(** * Google-Maps-Business-Scraper: a shallow embedding of [src/main.py]

    The development follows the three components of the program:
    the field extractor ([extract_place], [extract_email_from_website]),
    the listing walker ([scrape_places], [_scrape_places_with_browser]) and
    the job orchestrator (the tail of [main]).

    Python values are modelled as follows.  A [str] is a list of Unicode code
    points.  An operation that may raise returns a [result]; a
    [try ... except Exception] block is a [match] on that result.  The
    browser page is a record of the observations the code makes of it, keyed
    by the selectors that occur in the source.  Logging calls and the
    progress bar have no effect on any returned value and are left out. *)

From Stdlib Require Import List String Ascii ZArith NArith Bool Arith Lia.
From Stdlib Require Import Permutation Sorted.
Import ListNotations.

(* ================================================================== *)
(** * Exceptions and results *)

Inductive exn : Type :=
| PlaywrightError
| TimeoutError
| RequestException
| ValueError
| OtherError.

Inductive result (A : Type) : Type :=
| Ok (a : A)
| Raise (e : exn).

Arguments Ok {A} a.
Arguments Raise {A} e.

Definition bind {A B : Type} (m : result A) (f : A -> result B) : result B :=
  match m with
  | Ok a => f a
  | Raise e => Raise e
  end.

Declare Scope py_scope.
Delimit Scope py_scope with py.
Notation "x <- m ;; k" := (bind m (fun x => k))
  (at level 61, m at next level, right associativity) : py_scope.
Open Scope py_scope.

Definition is_ok {A : Type} (m : result A) : bool :=
  match m with
  | Ok _ => true
  | Raise _ => false
  end.

(* ================================================================== *)
(** * Python strings *)

Module Py.

(** A Python [str]: the sequence of its code points. *)
Definition str : Type := list N.

(** The code point of an ASCII character. *)
Definition chr (a : ascii) : N := N_of_ascii a.

(** An ASCII literal of the source as a [str]. *)
Definition u (s : string) : str := map N_of_ascii (list_ascii_of_string s).

Fixpoint str_eqb (a b : str) : bool :=
  match a, b with
  | [], [] => true
  | x :: a', y :: b' => N.eqb x y && str_eqb a' b'
  | _, _ => false
  end.

(** Truthiness of a [str]: non-empty. *)
Definition truthy (s : str) : bool :=
  match s with
  | [] => false
  | _ :: _ => true
  end.

(** [a or b] on strings. *)
Definition or_else (a b : str) : str := if truthy a then a else b.

(** [s.startswith(p)]. *)
Fixpoint startswith (p s : str) : bool :=
  match p, s with
  | [], _ => true
  | x :: p', y :: s' => N.eqb x y && startswith p' s'
  | _ :: _, [] => false
  end.

(** [sub in s]. *)
Fixpoint contains (sub s : str) : bool :=
  startswith sub s ||
  match s with
  | [] => false
  | _ :: t => contains sub t
  end.

(** [x in l] for a list (or set) of strings. *)
Definition mem (x : str) (l : list str) : bool := existsb (str_eqb x) l.

(** [sep.join(l)]. *)
Fixpoint join (sep : str) (l : list str) : str :=
  match l with
  | [] => []
  | [x] => x
  | x :: rest => x ++ sep ++ join sep rest
  end.

(** [s.replace(old, new)] for a non-empty [old] (the source never passes an
    empty one): occurrences are replaced left to right without overlap.
    [skip] counts the characters of a replaced occurrence still to drop. *)
Fixpoint replace_aux (old new : str) (skip : nat) (s : str) : str :=
  match s with
  | [] => []
  | c :: t =>
      match skip with
      | S k => replace_aux old new k t
      | O =>
          if startswith old s
          then new ++ replace_aux old new (List.length old - 1) t
          else c :: replace_aux old new 0 t
      end
  end.

Definition replace (old new s : str) : str := replace_aux old new 0 s.

(** [s.split(sep)] for a one-character separator. *)
Fixpoint split_aux (sep : N) (cur : str) (s : str) : list str :=
  match s with
  | [] => [rev cur]
  | c :: t =>
      if N.eqb c sep then rev cur :: split_aux sep [] t
      else split_aux sep (c :: cur) t
  end.

Definition split (sep : N) (s : str) : list str := split_aux sep [] s.

(** The code points on which [str.isspace] holds; these are the ones
    [str.strip()] removes. *)
Definition isspace (c : N) : bool :=
  ((9 <=? c) && (c <=? 13) || (28 <=? c) && (c <=? 32) ||
   (c =? 133) || (c =? 160) || (c =? 5760) ||
   (8192 <=? c) && (c <=? 8202) ||
   (c =? 8232) || (c =? 8233) || (c =? 8239) || (c =? 8287) ||
   (c =? 12288))%N.

Fixpoint lstrip (s : str) : str :=
  match s with
  | [] => []
  | c :: t => if isspace c then lstrip t else s
  end.

(** [s.strip()]. *)
Definition strip (s : str) : str := rev (lstrip (rev (lstrip s))).

(** The longest prefix of [s] whose characters satisfy [p], and the rest. *)
Fixpoint span (p : N -> bool) (s : str) : str * str :=
  match s with
  | [] => ([], [])
  | c :: t =>
      if p c then let (a, b) := span p t in (c :: a, b) else ([], s)
  end.

(** Comparison of strings: lexicographic on code points. *)
Fixpoint str_leb (a b : str) : bool :=
  match a, b with
  | [], _ => true
  | _ :: _, [] => false
  | x :: a', y :: b' => N.ltb x y || (N.eqb x y && str_leb a' b')
  end.

Fixpoint insert_sorted (x : str) (l : list str) : list str :=
  match l with
  | [] => [x]
  | y :: t => if str_leb x y then x :: l else y :: insert_sorted x t
  end.


(** [sorted(l)] for a list of strings. *)
Fixpoint sorted (l : list str) : list str :=
  match l with
  | [] => []
  | x :: t => insert_sorted x (sorted t)
  end.

(** The distinct elements of [l], one possible iteration order of [set(l)]. *)
Fixpoint distinct (l : list str) : list str :=
  match l with
  | [] => []
  | x :: t => if mem x t then distinct t else x :: distinct t
  end.

(** [s.lower()] restricted to ASCII letters. *)
Definition ascii_lower_char (c : N) : N :=
  if ((65 <=? c) && (c <=? 90))%N then (c + 32)%N else c.

(** ASCII characters that [str.lower] leaves alone. *)
Definition ascii_not_upper (c : N) : bool :=
  ((c <? 128) && negb ((65 <=? c) && (c <=? 90)))%N.

(** The ASCII part of the regular-expression class [\w]. *)
Definition ascii_word (c : N) : bool :=
  ((48 <=? c) && (c <=? 57) || (65 <=? c) && (c <=? 90) ||
   (c =? 95) || (97 <=? c) && (c <=? 122))%N.

(** The value of an ASCII decimal digit. *)
Definition ascii_decimal (c : N) : option N :=
  if ((48 <=? c) && (c <=? 57))%N then Some (c - 48)%N else None.

End Py.

Import Py.

(* ================================================================== *)
(** * The Python runtime and the libraries the program calls

    The Unicode tables behind [str.lower], [\d], [\w] and [int], the
    parsing of a [float], the iteration order of a [set], the HTML parser
    and the HTTP client are not part of the program.  They are the fields of
    a class, together with the few facts about them the proofs use; every
    theorem holds for any implementation with these facts. *)

Class Runtime : Type := {
  (** [s.lower()] *)
  lower : str -> str;
  (** the value of a character of Unicode category Nd, the class [\d] *)
  decimal : N -> option N;
  (** the regular-expression class [\w] *)
  is_word : N -> bool;
  (** the type of a Python [float], and [float(s)] ([None] for [ValueError]) *)
  pyfloat : Type;
  float_of_str : str -> option pyfloat;
  (** the order in which a [set] built from a list is iterated *)
  set_iter : list str -> list str;
  (** [BeautifulSoup(html, 'html.parser')]: for every [tr] of the document
      the [get_text(strip=True)] of each of its [td] cells *)
  soup_table : str -> result (list (list str));
  (** [requests.get(url, headers=..., timeout=5, proxies=...)]: the status
      code and the body, or the exception raised (a timeout is one) *)
  requests_get : str -> result (Z * str);

  lower_nil : lower [] = [];
  lower_keeps : forall a b c : str,
    forallb ascii_not_upper b = true ->
    exists a' c', lower (a ++ b ++ c) = a' ++ b ++ c';
  decimal_ascii : forall c, (c < 128)%N -> decimal c = ascii_decimal c;
  is_word_ascii : forall c, (c < 128)%N -> is_word c = ascii_word c;
  set_iter_NoDup : forall l, NoDup (set_iter l);
  set_iter_In : forall l x, In x (set_iter l) <-> In x l
}.

(* ================================================================== *)
(** * The page-automation capability *)

(** The selectors of [extract_place], named as its local variables are;
    those written inline in the source are named after what they select. *)
Inductive selector : Type :=
| name_xpath
| address_xpath
| website_xpath
| phone_number_xpath
| reviews_count_xpath
| reviews_average_xpath
| opens_at_xpath
| opens_at_xpath2
| place_type_xpath
| intro_xpath
| weekly_hours_xpath
| place_link_xpath      (* //a[contains(@href, "/maps/place/") and not(...)] *)
| mailto_xpath          (* //a[starts-with(@href, "mailto:")] *)
| detail_links_css      (* div[role="main"] a[href*="http"] *)
| tags_xpath.           (* //button[contains(@jsaction, ...)]//span *)

Definition selector_eqb (a b : selector) : bool :=
  match a, b with
  | name_xpath, name_xpath | address_xpath, address_xpath
  | website_xpath, website_xpath | phone_number_xpath, phone_number_xpath
  | reviews_count_xpath, reviews_count_xpath
  | reviews_average_xpath, reviews_average_xpath
  | opens_at_xpath, opens_at_xpath | opens_at_xpath2, opens_at_xpath2
  | place_type_xpath, place_type_xpath | intro_xpath, intro_xpath
  | weekly_hours_xpath, weekly_hours_xpath
  | place_link_xpath, place_link_xpath | mailto_xpath, mailto_xpath
  | detail_links_css, detail_links_css | tags_xpath, tags_xpath => true
  | _, _ => false
  end.

(** One element of [locator.all()]. *)
Record Element : Type := {
  get_attribute_href : result (option str);   (* el.get_attribute('href') *)
  el_inner_text : result str                  (* el.inner_text() *)
}.

(** The detail view as [extract_place] observes it, at one moment: a
    query asked twice has one answer.  For a selector [s],
    [loc_count] is [page.locator(s).count()], [loc_inner_text] is
    [.inner_text()], [loc_inner_html] is [.inner_html()], [loc_all] is
    [.all()], [loc_first_count] is [.first.count()] and [loc_first_href] is
    [.first.get_attribute('href')]. *)
Record Page : Type := {
  page_url : str;                                   (* page.url *)
  loc_count : selector -> result nat;
  loc_inner_text : selector -> result str;
  loc_inner_html : selector -> result str;
  loc_all : selector -> result (list Element);
  loc_first_count : selector -> result nat;
  loc_first_href : selector -> result (option str)
}.

(** [extract_text], lines 45-51. *)
Definition extract_text (page : Page) (xpath : selector) : str :=
  match
    (n <- loc_count page xpath ;;
     if 0 <? n then (t <- loc_inner_text page xpath ;; Ok (Some t))
     else Ok None)
  with
  | Ok (Some t) => t
  | Ok None => []
  | Raise _ => []
  end.

(* ================================================================== *)
(** * The field extractor *)

Section FieldExtractor.

Context {rt : Runtime}.

(** A value of a field that is not always a [str]. *)
Inductive pyval : Type :=
| PNone
| PStr (s : str)
| PInt (z : Z)
| PFloat (f : pyfloat).

(** The [Place] dataclass, lines 20-37.  [extra_attrs] holds the instance
    attributes that are not dataclass fields (the instance [__dict__] beyond
    the declared fields), by name. *)
Record Place : Type := {
  name : str;
  maps_url : str;
  email : str;
  website : str;
  address : str;
  phone_number : str;
  reviews_count : pyval;
  reviews_average : pyval;
  place_type : str;
  introduction : str;
  social_media_urls : str;
  category : str;
  latitude : str;
  longitude : str;
  weekly_hours : str;
  tags : str;
  extra_attrs : list (string * str)
}.

(** [Place.__dataclass_fields__], in declaration order. *)
Definition dataclass_fields : list string :=
  ["name"; "maps_url"; "email"; "website"; "address"; "phone_number";
   "reviews_count"; "reviews_average"; "place_type"; "introduction";
   "social_media_urls"; "category"; "latitude"; "longitude";
   "weekly_hours"; "tags"]%string.

(** [dataclasses.asdict(place)]: the declared fields only. *)
Definition asdict (p : Place) : list (string * pyval) :=
  [("name", PStr (name p)); ("maps_url", PStr (maps_url p));
   ("email", PStr (email p)); ("website", PStr (website p));
   ("address", PStr (address p)); ("phone_number", PStr (phone_number p));
   ("reviews_count", reviews_count p);
   ("reviews_average", reviews_average p);
   ("place_type", PStr (place_type p));
   ("introduction", PStr (introduction p));
   ("social_media_urls", PStr (social_media_urls p));
   ("category", PStr (category p)); ("latitude", PStr (latitude p));
   ("longitude", PStr (longitude p));
   ("weekly_hours", PStr (weekly_hours p)); ("tags", PStr (tags p))]%string.

(** [place.category = cat]. *)
Definition set_category (cat : str) (p : Place) : Place :=
  {| name := name p; maps_url := maps_url p; email := email p;
     website := website p; address := address p;
     phone_number := phone_number p; reviews_count := reviews_count p;
     reviews_average := reviews_average p; place_type := place_type p;
     introduction := introduction p;
     social_media_urls := social_media_urls p; category := cat;
     latitude := latitude p; longitude := longitude p;
     weekly_hours := weekly_hours p; tags := tags p;
     extra_attrs := extra_attrs p |}.

(** The two sentinels. *)
Definition no_info : str := u "No info available".
Definition no_website : str := u "No website".

(** ** Regular expressions of the source *)

(** The class [[\w\.-]] of the e-mail pattern. *)
Definition email_char (c : N) : bool :=
  is_word c || N.eqb c (chr ".") || N.eqb c (chr "-").

(** A match of [[\w\.-]+@[\w\.-]+] at the start of [s].  Neither class
    contains [@], so each greedy run is the longest one and no shorter
    run can lead to a match. *)
Definition match_email (s : str) : option str :=
  let (local_part, rest) := span email_char s in
  match local_part, rest with
  | _ :: _, c :: rest' =>
      if N.eqb c (chr "@") then
        let (domain, _) := span email_char rest' in
        match domain with
        | [] => None
        | _ :: _ => Some (local_part ++ [c] ++ domain)
        end
      else None
  | _, _ => None
  end.

(** [re.findall(r"[\w\.-]+@[\w\.-]+", text)]: the matches from left to
    right, without overlap.  [skip] counts the characters of the last match
    still to pass. *)
Fixpoint findall_email_aux (skip : nat) (text : str) : list str :=
  match text with
  | [] => []
  | _ :: t =>
      match skip with
      | S k => findall_email_aux k t
      | O =>
          match match_email text with
          | Some m => m :: findall_email_aux (List.length m - 1) t
          | None => findall_email_aux 0 t
          end
      end
  end.

Definition findall_email (text : str) : list str := findall_email_aux 0 text.

(** The class [[\d\.\-]] of the coordinate pattern. *)
Definition geo_char (c : N) : bool :=
  match decimal c with Some _ => true | None => false end
  || N.eqb c (chr ".") || N.eqb c (chr "-").

(** A match of [@([\d\.\-]+),([\d\.\-]+),] at the start of [s], with its
    two groups. *)
Definition match_geo (s : str) : option (str * str) :=
  match s with
  | c :: r =>
      if N.eqb c (chr "@") then
        let (lat, r1) := span geo_char r in
        match lat, r1 with
        | _ :: _, c1 :: r2 =>
            if N.eqb c1 (chr ",") then
              let (lng, r3) := span geo_char r2 in
              match lng, r3 with
              | _ :: _, c2 :: _ =>
                  if N.eqb c2 (chr ",") then Some (lat, lng) else None
              | _, _ => None
              end
            else None
        | _, _ => None
        end
      else None
  | [] => None
  end.

(** [re.search(r'@([\d\.\-]+),([\d\.\-]+),', s)]: the leftmost match. *)
Fixpoint search_geo (s : str) : option (str * str) :=
  match match_geo s with
  | Some m => Some m
  | None =>
      match s with
      | [] => None
      | _ :: t => search_geo t
      end
  end.

(** ** [int(s)] *)

(** Digits with single underscores between them. *)
Fixpoint int_digits (acc : Z) (after_digit : bool) (s : str) : option Z :=
  match s with
  | [] => if after_digit then Some acc else None
  | c :: r =>
      if N.eqb c (chr "_") then
        if after_digit then int_digits acc false r else None
      else
        match decimal c with
        | Some d => int_digits (10 * acc + Z.of_N d) true r
        | None => None
        end
  end.

(** [int(s)] for a [str]: surrounding whitespace, an optional sign, decimal
    digits; [None] stands for [ValueError].  The interpreter's limit on the
    number of digits is not modelled. *)
Definition py_int (s : str) : option Z :=
  match strip s with
  | c :: r =>
      if N.eqb c (chr "-") then option_map Z.opp (int_digits 0 false r)
      else if N.eqb c (chr "+") then int_digits 0 false r
      else int_digits 0 false (c :: r)
  | [] => None
  end.

(** ** [extract_email_from_website], lines 53-65 *)

(** The body of the [try] block returns [Some r] where the source returns
    [r], and [None] where control falls through to the final [return]. *)
Definition extract_email_from_website (website_url : str) : result str :=
  if negb (truthy website_url)
     || mem website_url [u "No website"; u "No info available"]
  then Ok (u "No info available")
  else
    match
      (resp <- requests_get website_url ;;
       let (status_code, text) := resp in
       if (status_code =? 200)%Z then
         let emails := findall_email text in
         match emails with
         | _ :: _ => Ok (Some (join (u ", ") (set_iter emails)))
         | [] => Ok None
         end
       else Ok None)
    with
    | Ok (Some r) => Ok r
    | Ok None => Ok (u "No info available")
    | Raise _ => Ok (u "No info available")     (* except Exception: pass *)
    end.

(** ** The blocks of [extract_place] *)

(** Canonical URL, lines 86-98. *)
Definition extract_maps_url (page : Page) : str :=
  match
    (n <- loc_first_count page place_link_xpath ;;
     if 0 <? n then
       href <- loc_first_href page place_link_xpath ;;
       Ok (match href with
           | Some h =>
               if truthy h && startswith (u "http") h then h
               else if truthy h then u "https://www.google.com" ++ h
               else no_info
           | None => no_info
           end)
     else Ok (page_url page))
  with
  | Ok v => v
  | Raise _ => page_url page
  end.

(** The list comprehension of line 104. *)
Fixpoint mailto_addresses (email_links : list Element) : result (list str) :=
  match email_links with
  | [] => Ok []
  | l :: rest =>
      href <- get_attribute_href l ;;
      match href with
      | Some h =>
          if truthy h then
            tl <- mailto_addresses rest ;;
            Ok (replace (u "mailto:") [] h :: tl)
          else mailto_addresses rest
      | None => mailto_addresses rest
      end
  end.

(** E-mail shown on the detail view, lines 100-108. *)
Definition extract_mailto (page : Page) : str :=
  match
    (email_links <- loc_all page mailto_xpath ;;
     match email_links with
     | [] => Ok no_info
     | _ :: _ =>
         emails <- mailto_addresses email_links ;;
         match emails with
         | _ :: _ => Ok (join (u ", ") (set_iter emails))
         | [] => Ok no_info
         end
     end)
  with
  | Ok v => v
  | Raise _ => no_info
  end.

Definition social_media_domains_list : list str :=
  [u "facebook.com"; u "instagram.com"; u "linkedin.com"; u "twitter.com";
   u "x.com"; u "youtube.com"].

(** The loop [for domain_part in social_media_domains_list: if domain_part
    in s.lower(): ...; break] finds out whether some domain occurs. *)
Definition has_social_domain (s : str) : bool :=
  existsb (fun domain_part => contains domain_part (lower s))
          social_media_domains_list.

(** The loop over the links of the detail pane, lines 142-153. *)
Fixpoint scan_detail_links (links : list Element)
    (processed_links_for_social found_social_media_links : list str)
    : list str :=
  match links with
  | [] => found_social_media_links
  | link_locator :: rest =>
      match get_attribute_href link_locator with
      | Ok (Some href) =>
          if truthy href && negb (mem href processed_links_for_social) then
            scan_detail_links rest (href :: processed_links_for_social)
              (if has_social_domain href
               then found_social_media_links ++ [href]
               else found_social_media_links)
          else scan_detail_links rest processed_links_for_social
                 found_social_media_links
      | Ok None =>
          scan_detail_links rest processed_links_for_social
            found_social_media_links
      | Raise _ =>                                  (* logged, next link *)
          scan_detail_links rest processed_links_for_social
            found_social_media_links
      end
  end.

(** Line 161. *)
Definition clean_reviews_count (reviews_count_raw : str) : str :=
  replace (u " ") []
    (replace (u ",") []
      (replace (u ")") []
        (replace (u "(") []
          (replace [8239%N] []
            (replace [160%N] [] reviews_count_raw))))).

(** Reviews count, lines 158-166.  On a parse failure the [except] branch
    only logs, and the field keeps the dataclass default [None]. *)
Definition extract_reviews_count (page : Page) : pyval :=
  let reviews_count_raw := extract_text page reviews_count_xpath in
  if truthy reviews_count_raw then
    match py_int (clean_reviews_count reviews_count_raw) with
    | Some n => PInt n
    | None => PNone
    end
  else PStr (u "No info available").

(** Reviews average, lines 168-176. *)
Definition extract_reviews_average (page : Page) : pyval :=
  let reviews_avg_raw := extract_text page reviews_average_xpath in
  if truthy reviews_avg_raw then
    match float_of_str (replace (u ",") (u ".")
                          (replace (u " ") [] reviews_avg_raw)) with
    | Some f => PFloat f
    | None => PNone
    end
  else PStr (u "No info available").

(** Truthiness of a variable that holds [None] or a [str]. *)
Definition opt_truthy (o : option str) : bool :=
  match o with
  | Some s => truthy s
  | None => false
  end.

(** [[p.strip() for p in raw.split('⋅') if p.strip()]]; the separator is
    U+22C5. *)
Definition worktime_parts (raw : str) : list str :=
  map strip (filter (fun p => truthy (strip p)) (split 8901%N raw)).

(** The loop [for part in parts], lines 184-191 and again 205-212. *)
Fixpoint scan_parts (parts : list str) (open_time close_time : option str)
    : option str * option str :=
  match parts with
  | [] => (open_time, close_time)
  | part :: rest =>
      if startswith (u "open") (lower part) then
        scan_parts rest (Some part) close_time
      else if startswith (u "closes") (lower part)
              || startswith (u "close") (lower part) then
        scan_parts rest open_time (Some part)
      else if contains (u ":") part then
        if negb (opt_truthy close_time)
        then scan_parts rest open_time (Some (u "Closes " ++ part))
        else scan_parts rest open_time close_time
      else scan_parts rest open_time close_time
  end.

(** The value of a variable that holds [None] or a [str], where it is
    known to be truthy. *)
Definition opt_str (o : option str) : str :=
  match o with
  | Some s => s
  | None => []
  end.

(** What the source computes from a non-empty raw hours string; the same
    statements are written out for both selectors (lines 183-199 and
    203-220). *)
Definition worktime_of_raw (raw : str) : str :=
  let (open_time, close_time) := scan_parts (worktime_parts raw) None None in
  if opt_truthy open_time && opt_truthy close_time then
    opt_str open_time ++ u ", " ++ opt_str close_time
  else if opt_truthy open_time then opt_str open_time
  else if opt_truthy close_time then opt_str close_time
  else replace [8239%N] [] raw.

(** Worktime, lines 179-222. *)
Definition extract_worktime (page : Page) : str :=
  let opens_at_raw := extract_text page opens_at_xpath in
  if truthy opens_at_raw then worktime_of_raw opens_at_raw
  else
    let opens_at2_raw := extract_text page opens_at_xpath2 in
    if truthy opens_at2_raw then worktime_of_raw opens_at2_raw
    else u "No info available".

(** Geolocation, lines 226-237. *)
Definition extract_geolocation (page : Page) : str * str :=
  match search_geo (page_url page) with
  | Some (lat, lng) => (or_else lat no_info, or_else lng no_info)
  | None => (no_info, no_info)
  end.

(** Weekly hours, lines 240-258. *)
Definition extract_weekly_hours (page : Page) : str :=
  match
    (n <- loc_count page weekly_hours_xpath ;;
     if 0 <? n then
       table_html <- loc_inner_html page weekly_hours_xpath ;;
       rows <- soup_table table_html ;;
       let hours :=
         flat_map (fun cols =>
                     match cols with
                     | day :: times :: _ => [day ++ u ": " ++ times]
                     | _ => []
                     end) rows in
       match hours with
       | _ :: _ => Ok (join (u "; ") hours)
       | [] => Ok no_info
       end
     else Ok no_info)
  with
  | Ok v => v
  | Raise _ => no_info
  end.

(** The loop over the tag elements, lines 263-266.  An exception leaves the
    [try] block; the tags appended so far stay in the list. *)
Fixpoint collect_tags (tag_els : list Element) (tags : list str) : list str :=
  match tag_els with
  | [] => tags
  | el :: rest =>
      match el_inner_text el with
      | Ok t =>
          let tag := strip t in
          if truthy tag && negb (mem tag tags)
          then collect_tags rest (tags ++ [tag])
          else collect_tags rest tags
      | Raise _ => tags
      end
  end.

(** Tags, lines 260-269. *)
Definition extract_tags (page : Page) : str :=
  let tags :=
    match loc_all page tags_xpath with
    | Ok tag_els => collect_tags tag_els []
    | Raise _ => []
    end in
  match tags with
  | _ :: _ => join (u ", ") tags
  | [] => no_info
  end.

(** ** [extract_place], lines 67-270

    Two calls are outside every [try]: [extract_email_from_website], which
    catches its own exceptions, and [.all()] on the links of the detail pane
    (line 140), whose exception leaves [extract_place]. *)
Definition extract_place (page : Page) : result Place :=
  let name_v := or_else (extract_text page name_xpath) no_info in
  let maps_url_v := extract_maps_url page in
  let email0 := extract_mailto page in
  let website_url := extract_text page website_xpath in
  email_from_site <- extract_email_from_website website_url ;;
  let email_v :=
    if str_eqb email0 no_info && negb (str_eqb email_from_site no_info)
    then email_from_site else email0 in
  let extracted_website_url := website_url in
  let is_main_website_social :=
    truthy extracted_website_url && has_social_domain extracted_website_url in
  let found_social_media_links :=
    if is_main_website_social then [extracted_website_url] else [] in
  let website_v :=
    if is_main_website_social then no_website
    else if truthy extracted_website_url then extracted_website_url
         else no_info in
  let address_v := or_else (extract_text page address_xpath) no_info in
  let phone_number_v :=
    or_else (extract_text page phone_number_xpath) no_info in
  let place_type_v := or_else (extract_text page place_type_xpath) no_info in
  let intro_val := extract_text page intro_xpath in
  let introduction_v :=
    if truthy intro_val && truthy (strip intro_val) then intro_val
    else no_info in
  all_links_in_details <- loc_all page detail_links_css ;;
  let found_social_media_links :=
    scan_detail_links all_links_in_details [] found_social_media_links in
  let social_media_urls_v :=
    or_else (join (u ", ") (sorted (set_iter found_social_media_links)))
            no_info in
  let reviews_count_v := extract_reviews_count page in
  let reviews_average_v := extract_reviews_average page in
  let worktime := extract_worktime page in
  let (latitude_v, longitude_v) := extract_geolocation page in
  let weekly_hours_v := extract_weekly_hours page in
  let tags_v := extract_tags page in
  Ok {| name := name_v;
        maps_url := maps_url_v;
        email := email_v;
        website := website_v;
        address := address_v;
        phone_number := phone_number_v;
        reviews_count := reviews_count_v;
        reviews_average := reviews_average_v;
        place_type := place_type_v;
        introduction := introduction_v;
        social_media_urls := social_media_urls_v;
        category := [];
        latitude := latitude_v;
        longitude := longitude_v;
        weekly_hours := weekly_hours_v;
        tags := tags_v;
        extra_attrs := [("worktime"%string, worktime)] |}.

End FieldExtractor.

(* ================================================================== *)
(** * The listing walker *)

(** What the program does to the browser, in order. *)
Inductive event : Type :=
| PlaywrightStart (pw : nat)        (* entering [with sync_playwright() as p] *)
| PlaywrightStop (pw : nat)         (* leaving that block, on any path *)
| BrowserLaunch (pw browser : nat)  (* p.chromium.launch(...) *)
| BrowserClose (browser : nat)      (* browser.close() *)
| PageOpen (browser : nat)          (* browser.new_page() *)
| PageClose (browser : nat)         (* page.close() *)
| WriteErrorLog (n : nat).          (* n lines appended to scrape_errors.log *)

(** The browsers open after a sequence of events, given those open before:
    a browser is open from [launch] to [browser.close()].  What leaving the
    [sync_playwright] block does to the browsers launched within it is up
    to Playwright; the source does not say, and nothing is assumed. *)
Fixpoint open_browsers (before : list (nat * nat)) (tr : list event)
    : list (nat * nat) :=
  match tr with
  | [] => before
  | BrowserLaunch pw b :: tr' => open_browsers ((pw, b) :: before) tr'
  | BrowserClose b :: tr' =>
      open_browsers (filter (fun o => negb (snd o =? b)) before) tr'
  | _ :: tr' => open_browsers before tr'
  end.

(** The pages open after a sequence of events. *)
Fixpoint open_pages (before : nat) (tr : list event) : nat :=
  match tr with
  | [] => before
  | PageOpen _ :: tr' => open_pages (S before) tr'
  | PageClose _ :: tr' => open_pages (pred before) tr'
  | _ :: tr' => open_pages before tr'
  end.

Section Walker.

Context {rt : Runtime}.

(** A listing of the results panel: the detail view that clicking it and
    waiting for its title gives, or the exception raised on the way
    (lines 326-328). *)
Definition Listing : Type := result Page.

(** A browser as the walker drives it. *)
Record Session : Type := {
  new_page : result unit;                 (* browser.new_page(), line 305 *)
  submit_search : str -> result unit;     (* lines 307-312 *)
  feed : nat -> result (list Listing)     (* the n-th scroll, lines 319-323 *)
}.

(** Where a browser comes from. *)
Record Driver : Type := {
  start_playwright : result nat;          (* sync_playwright().__enter__() *)
  launch_browser : result nat             (* p.chromium.launch(...) *)
}.

(** [key = (place.name.strip(), place.address.strip())], line 330. *)
Definition place_key (place : Place) : str * str :=
  (strip (name place), strip (address place)).

Definition key_eqb (a b : str * str) : bool :=
  str_eqb (fst a) (fst b) && str_eqb (snd a) (snd b).

(** [key in unique_keys]. *)
Definition key_mem (k : str * str) (keys : list (str * str)) : bool :=
  existsb (key_eqb k) keys.

(** The variables of the walk that the listings update. *)
Record WalkState : Type := {
  places : list Place;
  unique_keys : list (str * str);
  errors : list (nat * exn)       (* "Failed to extract listing {idx+1}: {e}" *)
}.

Definition walk_start : WalkState :=
  {| places := []; unique_keys := []; errors := [] |}.

(** [len(places) >= total]. *)
Definition target_reached (total : Z) (st : WalkState) : bool :=
  (total <=? Z.of_nat (List.length (places st)))%Z.

(** Lines 329-334 for one extracted place. *)
Definition record_place (place : Place) (st : WalkState) : WalkState :=
  let key := place_key place in
  if truthy (name place) && negb (key_mem key (unique_keys st)) then
    {| places := places st ++ [place];
       unique_keys := unique_keys st ++ [key];
       errors := errors st |}
  else st.

(** The loop [for idx, listing in enumerate(listings)], lines 324-341. *)
Fixpoint visit_listings (total : Z) (idx : nat) (listings : list Listing)
    (st : WalkState) : WalkState :=
  match listings with
  | [] => st
  | listing :: rest =>
      match (page <- listing ;; extract_place page) with
      | Ok place =>
          let st' := record_place place st in
          if target_reached total st' then st'                  (* break *)
          else visit_listings total (S idx) rest st'
      | Raise e =>
          visit_listings total (S idx) rest
            {| places := places st;
               unique_keys := unique_keys st;
               errors := errors st ++ [(S idx, e)] |}
      end
  end.

Definition max_scroll_attempts : nat := 10.

(** The loop [while True], lines 318-351.  [fuel] bounds the number of
    iterations; [None] means the bound was reached first. *)
Fixpoint scroll_loop (fuel : nat) (s : Session) (total : Z) (cycle : nat)
    (scroll_attempts last_unique_count : nat) (st : WalkState)
    : option (result WalkState) :=
  match fuel with
  | O => None
  | S fuel' =>
      match feed s cycle with
      | Raise e => Some (Raise e)
      | Ok listings =>
          let st' := visit_listings total 0 listings st in
          if target_reached total st' then Some (Ok st')
          else
            let scroll_attempts' :=
              if List.length (unique_keys st') =? last_unique_count
              then S scroll_attempts else 0 in
            let last_unique_count' := List.length (unique_keys st') in
            if max_scroll_attempts <=? scroll_attempts' then Some (Ok st')
            else scroll_loop fuel' s total (S cycle) scroll_attempts'
                   last_unique_count' st'
      end
  end.

(** A number of iterations that [while True] never exceeds
    (see [scroll_loop_terminates]). *)
Definition cycle_bound (total : Z) : nat := 10 * Z.to_nat total + 1.

(** The [try] block of [_scrape_places_with_browser], lines 307-351. *)
Definition walk (s : Session) (search_for : str) (total : Z)
    : result WalkState :=
  _ <- submit_search s search_for ;;
  match scroll_loop (cycle_bound total) s total 0 0 0 walk_start with
  | Some r => r
  | None => Raise OtherError     (* not reached: [walk_within_bound] *)
  end.

(** [_scrape_places_with_browser], lines 302-354: the events, and the
    places with the error messages collected in [errors]. *)
Definition _scrape_places_with_browser (browser : nat) (s : Session)
    (search_for : str) (total : Z)
    : list event * result (list Place * list (nat * exn)) :=
  match new_page s with
  | Raise e => ([], Raise e)
  | Ok _ =>
      ([PageOpen browser; PageClose browser],        (* finally: page.close() *)
       st <- walk s search_for total ;; Ok (places st, errors st))
  end.

(** Lines 289-292 and 296-299. *)
Definition write_errors (errors : list (nat * exn)) : list event :=
  match errors with
  | [] => []
  | _ :: _ => [WriteErrorLog (List.length errors)]
  end.

(** [scrape_places], lines 272-300.  [browser] is the argument of that
    name; [d] is consulted only when it is [None]. *)
Definition scrape_places (search_for : str) (total : Z)
    (browser : option nat) (d : Driver) (s : Session)
    : list event * result (list Place) :=
  match browser with
  | None =>
      match start_playwright d with
      | Raise e => ([], Raise e)
      | Ok pw =>
          match launch_browser d with
          | Raise e => ([PlaywrightStart pw; PlaywrightStop pw], Raise e)
          | Ok b =>
              let (tr, r) := _scrape_places_with_browser b s search_for total in
              match r with
              | Raise e =>
                  ([PlaywrightStart pw; BrowserLaunch pw b] ++ tr
                   ++ [PlaywrightStop pw], Raise e)
              | Ok (result, errors) =>
                  ([PlaywrightStart pw; BrowserLaunch pw b] ++ tr
                   ++ [BrowserClose b] ++ write_errors errors
                   ++ [PlaywrightStop pw], Ok result)
              end
          end
      end
  | Some b =>
      let (tr, r) := _scrape_places_with_browser b s search_for total in
      match r with
      | Raise e => (tr, Raise e)
      | Ok (result, errors) => (tr ++ write_errors errors, Ok result)
      end
  end.

End Walker.

(* ================================================================== *)
(** * The job orchestrator: lines 685-727 of [main] *)

Section Orchestrator.

Context {rt : Runtime}.

(** A job [(cat, loc)]. *)
Definition Job : Type := (str * str)%type.

(** What one job meets when it runs: its own Playwright driver and the
    browser it launches.  Jobs share neither. *)
Record JobEnv : Type := {
  job_driver : Driver;
  job_session : Session
}.

(** [jobs = [(cat, loc) for cat in categories for loc in locations]]. *)
Definition jobs_of (categories locations : list str) : list Job :=
  flat_map (fun cat => map (fun loc => (cat, loc)) locations) categories.

(** [location_results]: a [dict] from location to list of places, in
    insertion order. *)
Definition LocationResults : Type := list (str * list Place).

Fixpoint dict_get (d : LocationResults) (loc : str) : option (list Place) :=
  match d with
  | [] => None
  | (k, v) :: d' => if str_eqb k loc then Some v else dict_get d' loc
  end.

(** [d[loc] = v]. *)
Fixpoint dict_set (d : LocationResults) (loc : str) (v : list Place)
    : LocationResults :=
  match d with
  | [] => [(loc, v)]
  | (k, v0) :: d' =>
      if str_eqb k loc then (k, v) :: d' else (k, v0) :: dict_set d' loc v
  end.

(** The body shared by the single-job branch (lines 691-703) and
    [scrape_job] (lines 710-721): launch a browser, scrape, tag every place
    with the category, close the browser. *)
Definition run_one_job (total : Z) (env : JobEnv) (args : Job)
    : list event * result (str * list Place) :=
  let (cat, loc) := args in
  match start_playwright (job_driver env) with
  | Raise e => ([], Raise e)
  | Ok pw =>
      match launch_browser (job_driver env) with
      | Raise e => ([PlaywrightStart pw; PlaywrightStop pw], Raise e)
      | Ok browser =>
          let full_query := cat ++ u " in " ++ loc in
          let (tr, r) :=
            scrape_places full_query total (Some browser) (job_driver env)
              (job_session env) in
          match r with
          | Raise e =>
              ([PlaywrightStart pw; BrowserLaunch pw browser] ++ tr
               ++ [PlaywrightStop pw], Raise e)
          | Ok places =>
              ([PlaywrightStart pw; BrowserLaunch pw browser] ++ tr
               ++ [BrowserClose browser; PlaywrightStop pw],
               Ok (loc, map (set_category cat) places))
          end
      end
  end.

(** [scrape_job], lines 707-721. *)
Definition scrape_job (total : Z) (job : Job * JobEnv)
    : result (str * list Place) :=
  snd (run_one_job total (snd job) (fst job)).

(** [list(executor.map(scrape_job, jobs))], lines 722-723: every job runs;
    the results are taken in the order of [jobs], and taking the result of a
    job that raised raises its exception. *)
Fixpoint executor_map_list (outcomes : list (result (str * list Place)))
    : result (list (str * list Place)) :=
  match outcomes with
  | [] => Ok []
  | o :: rest =>
      r <- o ;;
      rs <- executor_map_list rest ;;
      Ok (r :: rs)
  end.

(** One step of the loop of lines 724-727. *)
Definition merge_result (location_results : LocationResults)
    (r : str * list Place) : LocationResults :=
  let (loc, places) := r in
  let location_results :=
    match dict_get location_results loc with
    | None => dict_set location_results loc []
    | Some _ => location_results
    end in
  match dict_get location_results loc with
  | Some l => dict_set location_results loc (l ++ places)
  | None => location_results       (* the key was just inserted *)
  end.

(** Lines 685-727: the merged result, or the exception that leaves [main]. *)
Definition run_jobs (total : Z) (jobs : list (Job * JobEnv))
    : result LocationResults :=
  match jobs with
  | [job] =>
      r <- scrape_job total job ;;
      Ok (dict_set [] (fst r) (snd r))
  | [] => Raise ValueError          (* ThreadPoolExecutor(max_workers=0) *)
  | _ =>
      results <- executor_map_list (map (scrape_job total) jobs) ;;
      Ok (fold_left merge_result results [])
  end.

(** Job isolation in the words of the specification: a job that fails
    contributes an empty list for its location, and the others contribute
    their places. *)
Definition isolated_outcome (total : Z) (job : Job * JobEnv)
    : str * list Place :=
  match scrape_job total job with
  | Ok r => r
  | Raise _ => (snd (fst job), [])
  end.

Definition run_jobs_isolated (total : Z) (jobs : list (Job * JobEnv))
    : LocationResults :=
  fold_left merge_result (map (isolated_outcome total) jobs) [].

End Orchestrator.

(* ================================================================== *)
(** * The vocabulary of the properties

    Definitions that the statements below use to speak about the program:
    what the specification calls the social-media links of the pane, a
    total record, the records extracted from a feed, an isolated job. *)

Section Vocabulary.

Context {rt : Runtime}.

(** The social-media links collected by lines 117-153, given the links of
    the detail pane. *)
Definition found_social_media_links (page : Page) (links : list Element)
    : list str :=
  let w := extract_text page website_xpath in
  scan_detail_links links []
    (if truthy w && has_social_domain w then [w] else []).


(** A field holds something: not [None], not the empty string. *)
Definition pyval_filled (v : pyval) : bool :=
  match v with
  | PNone => false
  | PStr s => truthy s
  | PInt _ => true
  | PFloat _ => true
  end.

(** Sentinel totality as the specification states it: every declared field
    of the record holds a parsed value or a sentinel. *)
Definition sentinel_total (p : Place) : bool :=
  truthy (name p) && truthy (maps_url p) && truthy (email p)
  && truthy (website p) && truthy (address p) && truthy (phone_number p)
  && pyval_filled (reviews_count p) && pyval_filled (reviews_average p)
  && truthy (place_type p) && truthy (introduction p)
  && truthy (social_media_urls p) && truthy (category p)
  && truthy (latitude p) && truthy (longitude p)
  && truthy (weekly_hours p) && truthy (tags p).

(** The addresses of the [mailto:] links shown on the detail view. *)
Definition shown_addresses (page : Page) : list str :=
  match (email_links <- loc_all page mailto_xpath ;;
         mailto_addresses email_links) with
  | Ok emails => emails
  | Raise _ => []
  end.

(** Two pages that may differ only in what the two opening-hours selectors
    ([opens_at_xpath], [opens_at_xpath2]) give. *)
Definition same_outside_hours (page page' : Page) : Prop :=
  page_url page = page_url page' /\
  forall sel, sel <> opens_at_xpath -> sel <> opens_at_xpath2 ->
    loc_count page sel = loc_count page' sel /\
    loc_inner_text page sel = loc_inner_text page' sel /\
    loc_inner_html page sel = loc_inner_html page' sel /\
    loc_all page sel = loc_all page' sel /\
    loc_first_count page sel = loc_first_count page' sel /\
    loc_first_href page sel = loc_first_href page' sel.

(** The record a listing yields, if clicking it and extracting succeed. *)
Definition extraction (listing : Listing) : option Place :=
  match (page <- listing ;; extract_place page) with
  | Ok place => Some place
  | Raise _ => None
  end.

(** The records extracted from a sequence of listings, in order. *)
Definition extractions (listings : list Listing) : list Place :=
  flat_map (fun listing =>
              match extraction listing with
              | Some place => [place]
              | None => []
              end) listings.



(** A scroll that shows nothing new: every record extracted from its
    listings has a key that is already collected. *)
Definition stale_cycle (s : Session) (cycle : nat)
    (keys : list (str * str)) : Prop :=
  exists listings,
    feed s cycle = Ok listings /\
    Forall (fun p => key_mem (place_key p) keys = true)
           (extractions listings).

(** The records a job returned, tagged with its category; none if it
    raised. *)
Definition job_places (total : Z) (job : Job * JobEnv) : list Place :=
  match scrape_job total job with
  | Ok r => snd r
  | Raise _ => []
  end.

(** The records of the results filed under [loc], in order. *)
Definition places_for (loc : str) (results : list (str * list Place))
    : list Place :=
  flat_map (fun r => if str_eqb (fst r) loc then snd r else []) results.

(** The list under a key, empty if the key is absent. *)
Definition or_empty (o : option (list Place)) : list Place :=
  match o with
  | Some l => l
  | None => []
  end.

End Vocabulary.

(* ================================================================== *)
(** * Inputs on which the definitions are run *)

(** The pieces of a runtime for ASCII text: case, digits and word
    characters are those of ASCII; a [float] is a plain decimal literal,
    kept as its digits and the number of decimals; a [set] is iterated in
    the order of [distinct]. *)
Module AsciiRuntime.

Definition lower_ascii (s : str) : str := map ascii_lower_char s.

Definition is_digit (c : N) : bool :=
  match ascii_decimal c with Some _ => true | None => false end.

Fixpoint digits_value (acc : Z) (s : str) : Z :=
  match s with
  | [] => acc
  | c :: r => digits_value (10 * acc + Z.of_N (c - 48)) r
  end.

Definition float_of_decimal (s : str) : option (Z * nat) :=
  let (int_part, r) := span is_digit (strip s) in
  match r with
  | [] =>
      match int_part with
      | [] => None
      | _ :: _ => Some (digits_value 0 int_part, 0)
      end
  | c :: r' =>
      if N.eqb c (chr ".") then
        let (frac_part, r'') := span is_digit r' in
        match r'', int_part ++ frac_part with
        | [], _ :: _ =>
            Some (digits_value 0 (int_part ++ frac_part),
                  List.length frac_part)
        | _, _ => None
        end
      else None
  end.

Definition no_soup : str -> result (list (list str)) := fun _ => Ok [].

Definition offline : str -> result (Z * str) :=
  fun _ => Raise RequestException.

End AsciiRuntime.

(** Pages, browsers and jobs. *)
Module Fixtures.

(** A page on which nothing is found, and ways to put something on it. *)
Definition blank_page : Page :=
  {| page_url := u "about:blank";
     loc_count := fun _ => Ok 0;
     loc_inner_text := fun _ => Raise TimeoutError;
     loc_inner_html := fun _ => Raise TimeoutError;
     loc_all := fun _ => Ok [];
     loc_first_count := fun _ => Ok 0;
     loc_first_href := fun _ => Raise TimeoutError |}.

(** [page] with the single element [text] under the selector [sel]. *)
Definition with_text (sel : selector) (text : str) (page : Page) : Page :=
  {| page_url := page_url page;
     loc_count := fun x => if selector_eqb x sel then Ok 1 else loc_count page x;
     loc_inner_text :=
       fun x => if selector_eqb x sel then Ok text else loc_inner_text page x;
     loc_inner_html := loc_inner_html page;
     loc_all := loc_all page;
     loc_first_count := loc_first_count page;
     loc_first_href := loc_first_href page |}.

(** [page] with the elements [els] under the selector [sel]. *)
Definition with_elements (sel : selector) (els : list Element) (page : Page)
    : Page :=
  {| page_url := page_url page;
     loc_count := loc_count page;
     loc_inner_text := loc_inner_text page;
     loc_inner_html := loc_inner_html page;
     loc_all := fun x => if selector_eqb x sel then Ok els else loc_all page x;
     loc_first_count := loc_first_count page;
     loc_first_href := loc_first_href page |}.

(** A link element with the given [href]. *)
Definition link (href : str) : Element :=
  {| get_attribute_href := Ok (Some href); el_inner_text := Ok [] |}.

Definition cafe_page : Page :=
  with_text name_xpath (u "Cafe Atlas")
    (with_text address_xpath (u "12 Rue A, Rabat") blank_page).

(** The same place, shown with stray spaces. *)
Definition cafe_page_again : Page :=
  with_text name_xpath (u " Cafe Atlas ")
    (with_text address_xpath (u "12 Rue A, Rabat ") blank_page).

Definition bakery_page : Page :=
  with_text name_xpath (u "Boulangerie B")
    (with_text address_xpath (u "3 Avenue C, Rabat") blank_page).

(** A browser whose first scroll shows the given listings and whose later
    scrolls show nothing. *)
Definition session_showing (listings : list (@Listing)) : Session :=
  {| new_page := Ok tt;
     submit_search := fun _ => Ok tt;
     feed := fun n => match n with
                      | O => Ok listings
                      | S _ => Ok []
                      end |}.

Definition demo_session : Session :=
  session_showing
    [Ok cafe_page; Raise TimeoutError; Ok cafe_page_again; Ok bakery_page].

Definition demo_driver : Driver :=
  {| start_playwright := Ok 0; launch_browser := Ok 1 |}.

Definition broken_driver : Driver :=
  {| start_playwright := Ok 0; launch_browser := Raise PlaywrightError |}.

(** A detail view whose website is a Facebook page and whose pane links to
    it twice, to an Instagram profile and to a site that is no social
    medium. *)
Definition social_links : list Element :=
  [link (u "https://instagram.com/atlas"); link (u "https://atlas.ma/menu");
   link (u "https://facebook.com/x"); link (u "https://instagram.com/atlas");
   {| get_attribute_href := Raise TimeoutError; el_inner_text := Ok [] |}].

Definition social_page : Page :=
  with_elements detail_links_css social_links
    (with_text website_xpath (u "https://facebook.com/x") cafe_page).

Definition unparsable_page : Page :=
  with_text reviews_count_xpath (u "N/A") cafe_page.

(** The same place with an opening-hours line. *)
Definition hours_page : Page :=
  with_text opens_at_xpath (u "Open " ++ [8901%N] ++ u " Closes 5 PM")
    cafe_page.

Definition job_env (d : Driver) (page : Page) : JobEnv :=
  {| job_driver := d; job_session := session_showing [Ok page] |}.

(** The jobs [(A, loc1); (B, loc1); (A, loc2)] of the specification. *)
Definition demo_jobs : list (Job * JobEnv) :=
  [((u "cafe", u "Rabat"), job_env demo_driver cafe_page);
   ((u "bakery", u "Rabat"), job_env demo_driver bakery_page);
   ((u "cafe", u "Kenitra"), job_env demo_driver cafe_page)].

(** Two jobs, the first of which cannot launch its browser. *)
Definition failing_jobs : list (Job * JobEnv) :=
  [((u "cafe", u "Rabat"), job_env broken_driver cafe_page);
   ((u "bakery", u "Kenitra"), job_env demo_driver bakery_page)].

End Fixtures.

(* ================================================================== *)
(** * Facts about the string operations *)

Section StringFacts.

Lemma str_eqb_eq (a b : str) : str_eqb a b = true <-> a = b.
Proof.
  revert b; induction a as [|x a IH]; intros [|y b]; simpl;
    try (split; [discriminate | discriminate]); try tauto.
  rewrite andb_true_iff, N.eqb_eq, IH.
  split; [intros [-> ->]; reflexivity | intros H; inversion H; auto].
Qed.

Lemma str_eqb_refl (a : str) : str_eqb a a = true.
Proof. apply str_eqb_eq; reflexivity. Qed.

Lemma str_eqb_neq (a b : str) : str_eqb a b = false <-> a <> b.
Proof.
  rewrite <- str_eqb_eq. destruct (str_eqb a b); split; congruence.
Qed.

Lemma mem_In (x : str) (l : list str) : mem x l = true <-> In x l.
Proof.
  unfold mem. rewrite existsb_exists. split.
  - intros [y [Hy He]]. apply str_eqb_eq in He. subst. exact Hy.
  - intros H. exists x. split; [exact H | apply str_eqb_refl].
Qed.

Lemma mem_not_In (x : str) (l : list str) : mem x l = false <-> ~ In x l.
Proof.
  rewrite <- mem_In. destruct (mem x l); split; congruence.
Qed.

Lemma truthy_true (s : str) : truthy s = true <-> s <> [].
Proof. destruct s; simpl; split; congruence. Qed.

Lemma or_else_truthy (a b : str) : b <> [] -> or_else a b <> [].
Proof.
  unfold or_else. destruct a; simpl; intros H; [exact H | discriminate].
Qed.

Lemma startswith_app (p r : str) : startswith p (p ++ r) = true.
Proof.
  induction p as [|x p IH]; simpl; [reflexivity|].
  rewrite N.eqb_refl, IH. reflexivity.
Qed.

Lemma startswith_split (p s : str) :
  startswith p s = true -> exists r, s = p ++ r.
Proof.
  revert s; induction p as [|x p IH]; intros s H.
  - exists s. reflexivity.
  - destruct s as [|y s]; simpl in H; [discriminate|].
    apply andb_true_iff in H. destruct H as [Hxy Hp].
    apply N.eqb_eq in Hxy. subst y.
    destruct (IH _ Hp) as [r ->]. exists r. reflexivity.
Qed.

Lemma contains_startswith (sub s : str) :
  startswith sub s = true -> contains sub s = true.
Proof. intros H. destruct s; simpl; rewrite H; reflexivity. Qed.

Lemma contains_split (sub s : str) :
  contains sub s = true <-> exists a c, s = a ++ sub ++ c.
Proof.
  split.
  - induction s as [|y s IH]; simpl; intros H.
    + rewrite orb_false_r in H. apply startswith_split in H.
      destruct H as [r ->]. exists [], r. reflexivity.
    + apply orb_true_iff in H. destruct H as [H|H].
      * apply startswith_split in H. destruct H as [r ->].
        exists [], r. reflexivity.
      * destruct (IH H) as [a [c ->]]. exists (y :: a), c. reflexivity.
  - intros [a [c ->]]. induction a as [|y a IH].
    + change ([] ++ sub ++ c) with (sub ++ c).
      apply contains_startswith. apply startswith_app.
    + simpl. simpl in IH. rewrite IH. apply orb_true_r.
Qed.

Lemma join_In_contains (sep x : str) (l : list str) :
  In x l -> contains x (join sep l) = true.
Proof.
  intros H. apply contains_split.
  induction l as [|y l IH]; [destruct H|].
  destruct H as [->|H].
  - destruct l as [|z l].
    + exists [], []. simpl. rewrite app_nil_r. reflexivity.
    + exists [], (sep ++ join sep (z :: l)). reflexivity.
  - destruct (IH H) as [a [c E]]. destruct l as [|z l]; [destruct H|].
    exists (y ++ sep ++ a), c.
    change (join sep (y :: z :: l)) with (y ++ sep ++ join sep (z :: l)).
    rewrite E, <- !app_assoc. reflexivity.
Qed.

Lemma join_nonempty (sep x : str) (l : list str) :
  In x l -> x <> [] -> join sep l <> [].
Proof.
  intros H Hx E. apply join_In_contains with (sep := sep) in H.
  rewrite E in H. destruct x; [congruence | discriminate].
Qed.

Lemma distinct_In (l : list str) (x : str) : In x (distinct l) <-> In x l.
Proof.
  induction l as [|y l IH]; simpl; [tauto|].
  destruct (mem y l) eqn:E.
  - rewrite IH. apply mem_In in E. split; [auto | intros [->|H]; auto].
  - simpl. rewrite IH. tauto.
Qed.

Lemma distinct_NoDup (l : list str) : NoDup (distinct l).
Proof.
  induction l as [|y l IH]; simpl; [constructor|].
  destruct (mem y l) eqn:E; [exact IH|].
  constructor; [|exact IH].
  rewrite distinct_In. apply mem_not_In. exact E.
Qed.

(** [sorted] rearranges its argument into non-decreasing order. *)








End StringFacts.

(* ================================================================== *)
(** * The runtime for ASCII text *)

Section AsciiRuntimeFacts.

Import AsciiRuntime.

Lemma lower_ascii_fixed (b : str) :
  forallb ascii_not_upper b = true -> lower_ascii b = b.
Proof.
  induction b as [|x b IH]; simpl; intros H; [reflexivity|].
  apply andb_true_iff in H. destruct H as [Hx Hb].
  rewrite (IH Hb). unfold ascii_lower_char.
  unfold ascii_not_upper in Hx. apply andb_true_iff in Hx.
  destruct Hx as [_ Hx]. apply negb_true_iff in Hx. rewrite Hx.
  reflexivity.
Qed.

Lemma lower_ascii_keeps (a b c : str) :
  forallb ascii_not_upper b = true ->
  exists a' c', lower_ascii (a ++ b ++ c) = a' ++ b ++ c'.
Proof.
  intros H. exists (lower_ascii a), (lower_ascii c). unfold lower_ascii.
  rewrite !map_app. fold (lower_ascii b).
  rewrite (lower_ascii_fixed b H). reflexivity.
Qed.

End AsciiRuntimeFacts.

(** The ASCII runtime, given the HTML parser and the HTTP client. *)
Definition ascii_runtime (soup : str -> result (list (list str)))
    (web : str -> result (Z * str)) : Runtime :=
  {| lower := AsciiRuntime.lower_ascii;
     decimal := ascii_decimal;
     is_word := ascii_word;
     pyfloat := (Z * nat)%type;
     float_of_str := AsciiRuntime.float_of_decimal;
     set_iter := distinct;
     soup_table := soup;
     requests_get := web;
     lower_nil := eq_refl;
     lower_keeps := lower_ascii_keeps;
     decimal_ascii := fun c _ => eq_refl;
     is_word_ascii := fun c _ => eq_refl;
     set_iter_NoDup := distinct_NoDup;
     set_iter_In := distinct_In |}.

(* ================================================================== *)
(** * The field extractor: e-mail lookup *)

Section EmailFacts.

Context {rt : Runtime}.

Lemma match_email_nonempty (s m : str) : match_email s = Some m -> m <> [].
Proof.
  unfold match_email. destruct (span email_char s) as [local_part rest].
  destruct local_part as [|x l]; [discriminate|].
  destruct rest as [|c rest']; [discriminate|].
  destruct (N.eqb c (chr "@")); [|discriminate].
  destruct (span email_char rest') as [domain r].
  destruct domain; [discriminate|]. intros H. inversion H. discriminate.
Qed.

Lemma findall_email_aux_nonempty (text : str) :
  forall skip m, In m (findall_email_aux skip text) -> m <> [].
Proof.
  induction text as [|c t IH]; intros skip m H; [destruct H|].
  simpl in H. destruct skip as [|k].
  - destruct (match_email (c :: t)) as [m0|] eqn:E.
    + destruct H as [<-|H].
      * eapply match_email_nonempty; exact E.
      * eapply IH; exact H.
    + eapply IH; exact H.
  - eapply IH; exact H.
Qed.

Lemma findall_email_nonempty (text m : str) :
  In m (findall_email text) -> m <> [].
Proof. apply findall_email_aux_nonempty. Qed.

(** Joining the iteration of a set that has a non-empty member. *)
Lemma join_set_iter_nonempty (sep : str) (l : list str) :
  (exists x, In x l /\ x <> []) -> join sep (set_iter l) <> [].
Proof.
  intros [x [Hx Hne]]. apply join_nonempty with (x := x); [|exact Hne].
  apply set_iter_In. exact Hx.
Qed.

(** The lookup always returns, and what it returns is never empty. *)
Lemma extract_email_from_website_returns (website_url : str) :
  exists r, extract_email_from_website website_url = Ok r /\ r <> [].
Proof.
  unfold extract_email_from_website.
  destruct (negb (truthy website_url) || mem website_url _).
  - eexists; split; [reflexivity | discriminate].
  - destruct (requests_get website_url) as [[status_code text]|e]; simpl.
    + destruct (status_code =? 200)%Z.
      * destruct (findall_email text) as [|m ms] eqn:E.
        -- eexists; split; [reflexivity | discriminate].
        -- eexists; split; [reflexivity|].
           apply join_set_iter_nonempty. exists m. split; [left; reflexivity|].
           apply (findall_email_nonempty text). rewrite E. left. reflexivity.
      * eexists; split; [reflexivity | discriminate].
    + eexists; split; [reflexivity | discriminate].
Qed.

(** C8.  [extract_email_from_website] never raises.  When the GET raises
    (a timeout included), answers with a status other than 200, or its body
    has no match of the e-mail pattern, the result is "No info available".
    When the GET of a usable URL answers 200 with matches, the result is the
    matches, each once, joined by ", " (in the iteration order of the
    set). *)
Theorem extract_email_absorbs_fetch_failure (website_url : str) :
  exists r, extract_email_from_website website_url = Ok r /\
    (forall e, requests_get website_url = Raise e ->
       r = u "No info available") /\
    (forall status_code text,
       requests_get website_url = Ok (status_code, text) ->
       status_code <> 200%Z -> r = u "No info available") /\
    (forall text,
       requests_get website_url = Ok (200%Z, text) ->
       findall_email text = [] -> r = u "No info available") /\
    (forall text,
       website_url <> [] -> website_url <> u "No website" ->
       website_url <> u "No info available" ->
       requests_get website_url = Ok (200%Z, text) ->
       findall_email text <> [] ->
       exists emails,
         NoDup emails /\
         (forall x, In x emails <-> In x (findall_email text)) /\
         r = join (u ", ") emails).
Proof.
  unfold extract_email_from_website.
  destruct (negb (truthy website_url) || mem website_url _) eqn:Hguard.
  - eexists; split; [reflexivity|]. repeat split; try reflexivity.
    intros text Hne Hw Hi _ _. exfalso.
    apply orb_true_iff in Hguard. destruct Hguard as [Hg|Hg].
    + apply negb_true_iff in Hg. apply truthy_true in Hne. congruence.
    + apply mem_In in Hg. simpl in Hg. intuition congruence.
  - destruct (requests_get website_url) as [[status_code text]|e] eqn:Hget;
      simpl.
    + destruct (status_code =? 200)%Z eqn:Hst.
      * apply Z.eqb_eq in Hst. subst status_code.
        destruct (findall_email text) as [|m ms] eqn:E.
        -- eexists; split; [reflexivity|].
           repeat split; try reflexivity.
           intros text' _ _ _ Ht Hm. inversion Ht; subst. congruence.
        -- eexists; split; [reflexivity|].
           split; [intros e He; discriminate|].
           split; [intros s t Ht Hs; inversion Ht; subst; congruence|].
           split; [intros t Ht Hm; inversion Ht; subst; congruence|].
           intros t _ _ _ Ht _. inversion Ht; subst. rewrite E.
           exists (set_iter (m :: ms)).
           split; [apply set_iter_NoDup|].
           split; [intros x; apply set_iter_In | reflexivity].
      * apply Z.eqb_neq in Hst. eexists; split; [reflexivity|].
        repeat split; try reflexivity.
        intros t _ _ _ Ht _. inversion Ht; subst. congruence.
    + eexists; split; [reflexivity|].
      repeat split; try reflexivity.
      intros t _ _ _ Ht _. discriminate.
Qed.

End EmailFacts.

(* ================================================================== *)
(** * The field extractor: [extract_place] field by field *)

Section ExtractPlaceFacts.

Context {rt : Runtime}.

(** What [extract_place] puts in each field when it returns. *)
Lemma extract_place_fields (page : Page) (p : Place) :
  extract_place page = Ok p ->
  exists email_from_site links,
    extract_email_from_website (extract_text page website_xpath)
      = Ok email_from_site /\
    loc_all page detail_links_css = Ok links /\
    name p = or_else (extract_text page name_xpath) no_info /\
    maps_url p = extract_maps_url page /\
    email p =
      (if str_eqb (extract_mailto page) no_info
          && negb (str_eqb email_from_site no_info)
       then email_from_site else extract_mailto page) /\
    website p =
      (let w := extract_text page website_xpath in
       if truthy w && has_social_domain w then no_website
       else if truthy w then w else no_info) /\
    address p = or_else (extract_text page address_xpath) no_info /\
    phone_number p = or_else (extract_text page phone_number_xpath) no_info /\
    reviews_count p = extract_reviews_count page /\
    reviews_average p = extract_reviews_average page /\
    place_type p = or_else (extract_text page place_type_xpath) no_info /\
    introduction p =
      (let i := extract_text page intro_xpath in
       if truthy i && truthy (strip i) then i else no_info) /\
    social_media_urls p =
      or_else (join (u ", ")
                 (sorted (set_iter (found_social_media_links page links))))
              no_info /\
    category p = [] /\
    latitude p = fst (extract_geolocation page) /\
    longitude p = snd (extract_geolocation page) /\
    weekly_hours p = extract_weekly_hours page /\
    tags p = extract_tags page /\
    extra_attrs p = [("worktime"%string, extract_worktime page)].
Proof.
  unfold extract_place, found_social_media_links.
  destruct (extract_email_from_website (extract_text page website_xpath))
    as [email_from_site|e]; simpl; [|discriminate].
  destruct (loc_all page detail_links_css) as [links|e]; simpl;
    [|discriminate].
  destruct (extract_geolocation page) as [lat lng].
  intros H. inversion H; subst p; clear H. simpl.
  exists email_from_site, links. repeat split; reflexivity.
Qed.

(** [extract_place] raises exactly when enumerating the links of the detail
    pane does. *)
Lemma extract_place_returns (page : Page) :
  is_ok (extract_place page) = is_ok (loc_all page detail_links_css).
Proof.
  unfold extract_place.
  destruct (extract_email_from_website_returns
              (extract_text page website_xpath)) as [r [-> _]]. simpl.
  destruct (loc_all page detail_links_css); simpl; [|reflexivity].
  destruct (extract_geolocation page). reflexivity.
Qed.


(** ** Reviews count *)

Lemma decimal_of_letter (c : N) :
  (c < 128)%N -> ascii_decimal c = None -> decimal c = None.
Proof. intros Hc H. rewrite decimal_ascii by exact Hc. exact H. Qed.

Lemma decimal_of_digit (c : N) :
  (48 <= c)%N -> (c <= 57)%N -> decimal c = Some (c - 48)%N.
Proof.
  intros H1 H2. rewrite decimal_ascii by lia. unfold ascii_decimal.
  apply N.leb_le in H1, H2. rewrite H1, H2. reflexivity.
Qed.

(** [int("N/A")] raises [ValueError]. *)
Lemma py_int_NA : py_int (u "N/A") = None.
Proof.
  unfold py_int. cbn. rewrite decimal_of_letter; [reflexivity | lia |].
  reflexivity.
Qed.

(** [int("1234")] is 1234. *)
Lemma py_int_1234 : py_int (u "1234") = Some 1234%Z.
Proof.
  unfold py_int. cbn.
  repeat (rewrite decimal_of_digit by lia; cbn). reflexivity.
Qed.

(** The first half of the numeric-tolerance property: separators are
    stripped, and "(1,234)" is parsed as 1234. *)
Lemma reviews_count_strips_separators (page : Page) (p : Place) :
  extract_text page reviews_count_xpath = u "(1,234)" ->
  extract_place page = Ok p ->
  reviews_count p = PInt 1234.
Proof.
  intros Hraw H. destruct (extract_place_fields page p H)
    as (e & l & _ & _ & _ & _ & _ & _ & _ & _ & Hc & _).
  rewrite Hc. unfold extract_reviews_count. rewrite Hraw.
  change (clean_reviews_count (u "(1,234)")) with (u "1234").
  rewrite py_int_1234. reflexivity.
Qed.

(** The review average has the same two branches: a text that [float]
    rejects leaves [None]. *)
Lemma reviews_average_unparsable_left_None (page : Page) (p : Place) :
  extract_text page reviews_average_xpath <> [] ->
  float_of_str (replace (u ",") (u ".")
                  (replace (u " ") []
                     (extract_text page reviews_average_xpath))) = None ->
  extract_place page = Ok p ->
  reviews_average p = PNone.
Proof.
  intros Hraw Hf H. destruct (extract_place_fields page p H)
    as (e & l & _ & _ & _ & _ & _ & _ & _ & _ & _ & Ha & _).
  rewrite Ha. unfold extract_reviews_average.
  apply truthy_true in Hraw. rewrite Hraw, Hf. reflexivity.
Qed.

(** C6.  On the review-count text "N/A" no exception leaves
    [extract_place] on account of the parse, but the field is left at the
    dataclass default [None]: it is not the "No info available" sentinel
    that the branch for a missing text assigns. *)
Theorem reviews_count_unparsable_left_None (page : Page) (p : Place) :
  extract_text page reviews_count_xpath = u "N/A" ->
  extract_place page = Ok p ->
  reviews_count p = PNone /\ reviews_count p <> PStr (u "No info available").
Proof.
  intros Hraw H. destruct (extract_place_fields page p H)
    as (e & l & _ & _ & _ & _ & _ & _ & _ & _ & Hc & _).
  rewrite Hc. unfold extract_reviews_count. rewrite Hraw.
  change (clean_reviews_count (u "N/A")) with (u "N/A").
  rewrite py_int_NA. simpl. split; [reflexivity | discriminate].
Qed.

(** ** Website and social-media links *)






(** ** Which fields are always filled *)

Lemma no_info_nonempty : no_info <> [].
Proof. discriminate. Qed.

Lemma app_nonempty_r (a b : str) : b <> [] -> a ++ b <> [].
Proof. intros H E. apply app_eq_nil in E. tauto. Qed.

Lemma extract_maps_url_filled (page : Page) :
  page_url page <> [] -> extract_maps_url page <> [].
Proof.
  intros Hurl. unfold extract_maps_url.
  destruct (loc_first_count page place_link_xpath) as [n|e]; cbn [bind];
    [|exact Hurl].
  destruct (0 <? n); [|exact Hurl].
  destruct (loc_first_href page place_link_xpath) as [[h|]|e]; cbn [bind];
    [| discriminate | exact Hurl].
  destruct (truthy h) eqn:Ht; cbn [andb].
  - destruct (startswith (u "http") h).
    + apply truthy_true. exact Ht.
    + apply app_nonempty_r. apply truthy_true. exact Ht.
  - discriminate.
Qed.

Lemma extract_mailto_filled (page : Page) :
  ~ In [] (shown_addresses page) -> extract_mailto page <> [].
Proof.
  unfold shown_addresses, extract_mailto.
  destruct (loc_all page mailto_xpath) as [email_links|e]; simpl;
    [|discriminate].
  destruct email_links as [|l ls]; [discriminate|].
  destruct (mailto_addresses (l :: ls)) as [emails|e]; [|discriminate].
  destruct emails as [|m ms]; [discriminate|].
  intros Hno. apply join_set_iter_nonempty. exists m.
  split; [left; reflexivity|]. intros ->. apply Hno. left. reflexivity.
Qed.

Lemma extract_weekly_hours_filled (page : Page) :
  extract_weekly_hours page <> [].
Proof.
  unfold extract_weekly_hours.
  destruct (loc_count page weekly_hours_xpath) as [n|e]; simpl;
    [|discriminate].
  destruct (0 <? n); [|discriminate].
  destruct (loc_inner_html page weekly_hours_xpath) as [h|e]; simpl;
    [|discriminate].
  destruct (soup_table h) as [rows|e]; simpl; [|discriminate].
  match goal with
  | |- context [flat_map ?f rows] => set (hours := flat_map f rows)
  end.
  assert (Hall : forall x, In x hours -> x <> []).
  { intros x Hx. subst hours. apply in_flat_map in Hx.
    destruct Hx as [cols [_ Hx]].
    destruct cols as [|day [|times cols]];
      [destruct Hx | destruct Hx |].
    destruct Hx as [<-|[]]. apply app_nonempty_r. discriminate. }
  destruct hours as [|h0 hs]; [discriminate|].
  apply join_nonempty with (x := h0); [left; reflexivity|].
  apply Hall. left. reflexivity.
Qed.

Lemma collect_tags_filled (tag_els : list Element) :
  forall tags, (forall x, In x tags -> x <> []) ->
               forall x, In x (collect_tags tag_els tags) -> x <> [].
Proof.
  induction tag_els as [|el rest IH]; intros tags Hall; simpl; [exact Hall|].
  destruct (el_inner_text el) as [t|e]; [|exact Hall].
  destruct (truthy (strip t)) eqn:Ht; simpl; [|apply IH; exact Hall].
  destruct (mem (strip t) tags); simpl; [apply IH; exact Hall|].
  apply IH. intros x Hx. apply in_app_or in Hx. destruct Hx as [Hx|[<-|[]]].
  - apply Hall. exact Hx.
  - apply truthy_true. exact Ht.
Qed.

Lemma extract_tags_filled (page : Page) : extract_tags page <> [].
Proof.
  unfold extract_tags.
  destruct (loc_all page tags_xpath) as [tag_els|e]; [|discriminate].
  assert (Hall : forall x, In x (collect_tags tag_els []) -> x <> []).
  { apply collect_tags_filled. intros x []. }
  destruct (collect_tags tag_els []) as [|t ts]; [discriminate|].
  apply join_nonempty with (x := t); [left; reflexivity|].
  apply Hall. left. reflexivity.
Qed.

Lemma extract_geolocation_filled (page : Page) :
  fst (extract_geolocation page) <> [] /\
  snd (extract_geolocation page) <> [].
Proof.
  unfold extract_geolocation.
  destruct (search_geo (page_url page)) as [[lat lng]|]; simpl.
  - split; apply or_else_truthy; discriminate.
  - split; discriminate.
Qed.

(** C3, as the code has it.  For every record that [extract_place]
    returns: [name], [website], [address], [phone_number], [place_type],
    [introduction], [social_media_urls], [latitude], [longitude],
    [weekly_hours] and [tags] are never empty; [maps_url] is not empty when
    the URL of the page is not; [email] is not empty unless a [mailto:] link
    of the view carries an empty address; [reviews_count] and
    [reviews_average] are "No info available" when their text is missing and
    the parsed number when the text parses; [category] is the empty string,
    because the extractor never assigns it. *)
Theorem sentinel_totality_of_extracted_fields (page : Page) (p : Place) :
  extract_place page = Ok p ->
  (name p <> [] /\ website p <> [] /\ address p <> [] /\
   phone_number p <> [] /\ place_type p <> [] /\ introduction p <> [] /\
   social_media_urls p <> [] /\ latitude p <> [] /\ longitude p <> [] /\
   weekly_hours p <> [] /\ tags p <> []) /\
  (page_url page <> [] -> maps_url p <> []) /\
  (~ In [] (shown_addresses page) -> email p <> []) /\
  (extract_text page reviews_count_xpath = [] ->
   reviews_count p = PStr (u "No info available")) /\
  (forall n, extract_text page reviews_count_xpath <> [] ->
     py_int (clean_reviews_count (extract_text page reviews_count_xpath))
       = Some n ->
     reviews_count p = PInt n) /\
  (extract_text page reviews_average_xpath = [] ->
   reviews_average p = PStr (u "No info available")) /\
  (forall f, extract_text page reviews_average_xpath <> [] ->
     float_of_str (replace (u ",") (u ".")
                     (replace (u " ") []
                        (extract_text page reviews_average_xpath)))
       = Some f ->
     reviews_average p = PFloat f) /\
  category p = [].
Proof.
  intros H.
  destruct (extract_place_fields page p H)
    as (e & l & He & _ & Hn & Hm & Hem & Hw & Ha & Hph & Hrc & Hra & Hpt
        & Hi & Hs & Hc & Hlat & Hlng & Hwh & Htg & _).
  split; [|split; [|split; [|split; [|split; [|split; [|split]]]]]].
  - rewrite Hn, Hw, Ha, Hph, Hpt, Hi, Hs, Hlat, Hlng, Hwh, Htg.
    pose proof (extract_geolocation_filled page) as [Hg1 Hg2].
    repeat split;
      try (apply or_else_truthy; discriminate);
      try assumption;
      try apply extract_weekly_hours_filled;
      try apply extract_tags_filled.
    + cbv zeta. destruct (truthy (extract_text page website_xpath)) eqn:Ht;
        simpl; [|discriminate].
      destruct (has_social_domain _); [discriminate|].
      apply truthy_true. exact Ht.
    + cbv zeta. destruct (truthy (extract_text page intro_xpath)) eqn:Ht;
        simpl; [|discriminate].
      destruct (truthy (strip _)); [|discriminate].
      apply truthy_true. exact Ht.
  - intros Hurl. rewrite Hm. apply extract_maps_url_filled. exact Hurl.
  - intros Hno. rewrite Hem.
    pose proof (extract_mailto_filled page Hno) as Hmail.
    destruct (str_eqb (extract_mailto page) no_info && _); [|exact Hmail].
    destruct (extract_email_from_website_returns
                (extract_text page website_xpath)) as [r [Hr Hne]].
    rewrite Hr in He. inversion He; subst. exact Hne.
  - intros Hraw. rewrite Hrc. unfold extract_reviews_count.
    rewrite Hraw. reflexivity.
  - intros n Hraw Hint. rewrite Hrc. unfold extract_reviews_count.
    apply truthy_true in Hraw. rewrite Hraw, Hint. reflexivity.
  - intros Hraw. rewrite Hra. unfold extract_reviews_average.
    rewrite Hraw. reflexivity.
  - intros f Hraw Hf. rewrite Hra. unfold extract_reviews_average.
    apply truthy_true in Hraw. rewrite Hraw, Hf. reflexivity.
  - exact Hc.
Qed.

(** ** The worktime string and the declared fields *)

Lemma asdict_keys (p : Place) : map fst (asdict p) = dataclass_fields.
Proof. reflexivity. Qed.

Ltac same_at H sel :=
  let Hc := fresh "Hcount" in
  let Ht := fresh "Htext" in
  let Hh := fresh "Hhtml" in
  let Ha := fresh "Hall" in
  let Hfc := fresh "Hfcount" in
  let Hfh := fresh "Hfhref" in
  destruct (H sel ltac:(discriminate) ltac:(discriminate))
    as (Hc & Ht & Hh & Ha & Hfc & Hfh).

Lemma extract_text_same (page page' : Page) (sel : selector) :
  same_outside_hours page page' ->
  sel <> opens_at_xpath -> sel <> opens_at_xpath2 ->
  extract_text page sel = extract_text page' sel.
Proof.
  intros [_ H] H1 H2. destruct (H sel H1 H2) as (Hc & Ht & _).
  unfold extract_text. rewrite Hc, Ht. reflexivity.
Qed.

Lemma declared_fields_same (page page' : Page) :
  same_outside_hours page page' ->
  extract_maps_url page = extract_maps_url page' /\
  extract_mailto page = extract_mailto page' /\
  extract_reviews_count page = extract_reviews_count page' /\
  extract_reviews_average page = extract_reviews_average page' /\
  extract_geolocation page = extract_geolocation page' /\
  extract_weekly_hours page = extract_weekly_hours page' /\
  extract_tags page = extract_tags page' /\
  (forall links, found_social_media_links page links
                 = found_social_media_links page' links).
Proof.
  intros Hsame. pose proof Hsame as [Hurl H].
  repeat split.
  - unfold extract_maps_url. same_at H place_link_xpath.
    rewrite Hurl, Hfcount, Hfhref. reflexivity.
  - unfold extract_mailto. same_at H mailto_xpath.
    rewrite Hall. reflexivity.
  - unfold extract_reviews_count.
    rewrite (extract_text_same page page' reviews_count_xpath Hsame)
      by discriminate. reflexivity.
  - unfold extract_reviews_average.
    rewrite (extract_text_same page page' reviews_average_xpath Hsame)
      by discriminate. reflexivity.
  - unfold extract_geolocation. rewrite Hurl. reflexivity.
  - unfold extract_weekly_hours. same_at H weekly_hours_xpath.
    rewrite Hcount, Hhtml. reflexivity.
  - unfold extract_tags. same_at H tags_xpath. rewrite Hall. reflexivity.
  - intros links. unfold found_social_media_links.
    rewrite (extract_text_same page page' website_xpath Hsame)
      by discriminate. reflexivity.
Qed.

(** C10.  The worktime string is kept under the name "worktime", which is
    not a field of the dataclass, and nowhere else: whatever the two
    opening-hours selectors give, [extract_place] returns, and the declared
    fields ([asdict], [weekly_hours] among them) are the same.
    [weekly_hours] comes from the hours table alone. *)
Theorem worktime_leaves_declared_fields_alone (page page' : Page)
    (p : Place) :
  extract_place page = Ok p ->
  same_outside_hours page page' ->
  ~ In "worktime"%string dataclass_fields /\
  map fst (asdict p) = dataclass_fields /\
  extra_attrs p = [("worktime"%string, extract_worktime page)] /\
  weekly_hours p = extract_weekly_hours page /\
  exists p',
    extract_place page' = Ok p' /\
    asdict p' = asdict p /\
    weekly_hours p' = weekly_hours p /\
    extra_attrs p' = [("worktime"%string, extract_worktime page')].
Proof.
  intros H Hsame.
  destruct (extract_place_fields page p H)
    as (e & l & He & Hl & Hn & Hm & Hem & Hw & Ha & Hph & Hrc & Hra & Hpt
        & Hi & Hs & Hc & Hlat & Hlng & Hwh & Htg & Hex).
  split.
  { simpl. intros Hin.
    repeat (destruct Hin as [Hin|Hin]; [discriminate Hin|]). exact Hin. }
  split; [reflexivity|]. split; [exact Hex|]. split; [exact Hwh|].
  assert (Hok : is_ok (extract_place page') = true).
  { rewrite extract_place_returns. pose proof Hsame as [_ Hs'].
    same_at Hs' detail_links_css. rewrite <- Hall, Hl. reflexivity. }
  destruct (extract_place page') as [p'|e'] eqn:H'; [|discriminate Hok].
  exists p'. split; [reflexivity|].
  destruct (extract_place_fields page' p' H')
    as (e2 & l2 & He2 & Hl2 & Hn2 & Hm2 & Hem2 & Hw2 & Ha2 & Hph2 & Hrc2
        & Hra2 & Hpt2 & Hi2 & Hs2 & Hc2 & Hlat2 & Hlng2 & Hwh2 & Htg2
        & Hex2).
  destruct (declared_fields_same page page' Hsame)
    as (Emaps & Email & Erc & Era & Egeo & Ewh & Etags & Efound).
  assert (Etext : forall sel, sel <> opens_at_xpath ->
                    sel <> opens_at_xpath2 ->
                    extract_text page' sel = extract_text page sel).
  { intros sel H1 H2. symmetry. apply extract_text_same; assumption. }
  rewrite (Etext website_xpath) in He2 by discriminate.
  rewrite He in He2. inversion He2; subst e2; clear He2.
  pose proof Hsame as [_ Hs'].
  assert (El : l2 = l).
  { same_at Hs' detail_links_css. rewrite <- Hall, Hl in Hl2.
    inversion Hl2. reflexivity. }
  subst l2.
  assert (Ewh' : weekly_hours p' = weekly_hours p)
    by (rewrite Hwh2, Hwh, Ewh; reflexivity).
  split; [|split; [exact Ewh' | exact Hex2]].
  unfold asdict.
  rewrite Hn2, Hm2, Hem2, Hw2, Ha2, Hph2, Hrc2, Hra2, Hpt2, Hi2, Hs2, Hc2,
    Hlat2, Hlng2, Hwh2, Htg2.
  rewrite Hn, Hm, Hem, Hw, Ha, Hph, Hrc, Hra, Hpt, Hi, Hs, Hc, Hlat, Hlng,
    Hwh, Htg.
  rewrite <- Emaps, <- Email, <- Erc, <- Era, <- Egeo, <- Ewh, <- Etags,
    <- Efound.
  rewrite !Etext by discriminate.
  reflexivity.
Qed.

End ExtractPlaceFacts.

(* ================================================================== *)
(** * The listing walker: deduplication *)

Section WalkerFacts.

Context {rt : Runtime}.



Lemma extractions_app (a b : list Listing) :
  extractions (a ++ b) = extractions a ++ extractions b.
Proof. unfold extractions. apply flat_map_app. Qed.







(** One iteration of [while True]. *)
Lemma scroll_loop_step (fuel : nat) (s : Session) (total : Z)
    (cycle scroll_attempts last_unique_count : nat) (st : WalkState) :
  scroll_loop (S fuel) s total cycle scroll_attempts last_unique_count st =
  match feed s cycle with
  | Raise e => Some (Raise e)
  | Ok listings =>
      let st' := visit_listings total 0 listings st in
      if target_reached total st' then Some (Ok st')
      else
        let scroll_attempts' :=
          if List.length (unique_keys st') =? last_unique_count
          then S scroll_attempts else 0 in
        if max_scroll_attempts <=? scroll_attempts' then Some (Ok st')
        else scroll_loop fuel s total (S cycle) scroll_attempts'
               (List.length (unique_keys st')) st'
  end.
Proof. reflexivity. Qed.


(** What [scrape_places] returns is what the walk collected. *)
Lemma scrape_places_result (search_for : str) (total : Z)
    (browser : option nat) (d : Driver) (s : Session) (result : list Place) :
  snd (scrape_places search_for total browser d s) = Ok result ->
  exists st, walk s search_for total = Ok st /\ result = places st.
Proof.
  unfold scrape_places, _scrape_places_with_browser.
  destruct browser as [b|].
  - destruct (new_page s); simpl; [|discriminate].
    destruct (walk s search_for total) as [st|e]; simpl; [|discriminate].
    intros H. inversion H. exists st. auto.
  - destruct (start_playwright d); simpl; [|discriminate].
    destruct (launch_browser d); simpl; [|discriminate].
    destruct (new_page s); simpl; [|discriminate].
    destruct (walk s search_for total) as [st|e]; simpl; [|discriminate].
    intros H. inversion H. exists st. auto.
Qed.


(** * The listing walker: termination and the target *)

Lemma record_place_lengths (place : Place) (st : WalkState) :
  List.length (unique_keys st) = List.length (places st) ->
  List.length (unique_keys (record_place place st))
    = List.length (places (record_place place st)) /\
  List.length (places st) <= List.length (places (record_place place st))
    <= S (List.length (places st)).
Proof.
  intros H. unfold record_place.
  destruct (truthy (name place) && _); simpl.
  - rewrite !length_app, H. simpl. lia.
  - lia.
Qed.

Lemma visit_listings_lengths (total : Z) (listings : list Listing) :
  forall idx st,
    List.length (unique_keys st) = List.length (places st) ->
    List.length (unique_keys (visit_listings total idx listings st))
      = List.length (places (visit_listings total idx listings st)) /\
    List.length (places st)
      <= List.length (places (visit_listings total idx listings st)).
Proof.
  induction listings as [|listing rest IH]; intros idx st H; simpl.
  - lia.
  - destruct (page <- listing ;; extract_place page) as [place|e].
    + destruct (record_place_lengths place st H) as [H1 H2].
      destruct (target_reached total (record_place place st)).
      * lia.
      * destruct (IH (S idx) _ H1). lia.
    + apply (IH (S idx)
               {| places := places st; unique_keys := unique_keys st;
                  errors := errors st ++ [(S idx, e)] |}).
      exact H.
Qed.

(** Below the target, the inner loop stays within it. *)
Lemma visit_listings_within_target (total : Z) (listings : list Listing) :
  forall idx st,
    List.length (unique_keys st) = List.length (places st) ->
    (Z.of_nat (List.length (places st)) < total)%Z ->
    (Z.of_nat (List.length (places (visit_listings total idx listings st)))
     <= total)%Z.
Proof.
  induction listings as [|listing rest IH]; intros idx st H Hlt; simpl.
  - lia.
  - destruct (page <- listing ;; extract_place page) as [place|e].
    + destruct (record_place_lengths place st H) as [H1 H2].
      destruct (target_reached total (record_place place st)) eqn:Ht.
      * lia.
      * apply (IH (S idx) _ H1). unfold target_reached in Ht.
        apply Z.leb_gt in Ht. exact Ht.
    + apply (IH (S idx)
               {| places := places st; unique_keys := unique_keys st;
                  errors := errors st ++ [(S idx, e)] |}); assumption.
Qed.

(** The loop returns once the fuel exceeds ten times the records still
    missing, less the stalls already counted. *)
Lemma scroll_loop_terminates_from (s : Session) (total : Z) :
  forall fuel cycle scroll_attempts last_unique_count st,
    scroll_attempts < max_scroll_attempts ->
    last_unique_count = List.length (unique_keys st) ->
    List.length (unique_keys st) = List.length (places st) ->
    Z.to_nat (10 * (total - Z.of_nat (List.length (places st))))
      - scroll_attempts < fuel ->
    exists r,
      scroll_loop fuel s total cycle scroll_attempts last_unique_count st
        = Some r.
Proof.
  unfold max_scroll_attempts.
  induction fuel as [|fuel IH]; intros cycle sa last st Hsa Hlast Hlen Hfuel;
    [lia|].
  rewrite scroll_loop_step.
  destruct (feed s cycle) as [listings|e]; [|eexists; reflexivity].
  cbv zeta.
  destruct (visit_listings_lengths total listings 0 st Hlen) as [Hlen1 Hmono].
  set (st1 := visit_listings total 0 listings st) in *.
  destruct (target_reached total st1) eqn:Ht; [eexists; reflexivity|].
  unfold target_reached in Ht. apply Z.leb_gt in Ht.
  destruct (max_scroll_attempts <=? _) eqn:Hmax; [eexists; reflexivity|].
  unfold max_scroll_attempts in Hmax. apply Nat.leb_gt in Hmax.
  apply IH; try assumption; try reflexivity.
  destruct (List.length (unique_keys st1) =? last) eqn:Hsame.
  - apply Nat.eqb_eq in Hsame. lia.
  - apply Nat.eqb_neq in Hsame. lia.
Qed.

(** Termination: [cycle_bound total] iterations always suffice. *)
Lemma scroll_loop_terminates (s : Session) (total : Z) (fuel : nat) :
  cycle_bound total <= fuel ->
  exists r, scroll_loop fuel s total 0 0 0 walk_start = Some r.
Proof.
  intros H. apply scroll_loop_terminates_from.
  - unfold max_scroll_attempts. lia.
  - reflexivity.
  - reflexivity.
  - unfold cycle_bound in H.
    change (List.length (places walk_start)) with 0. lia.
Qed.

(** More fuel does not change the outcome. *)
Lemma scroll_loop_fuel_mono (s : Session) (total : Z) :
  forall fuel fuel' cycle scroll_attempts last_unique_count st r,
    scroll_loop fuel s total cycle scroll_attempts last_unique_count st
      = Some r ->
    fuel <= fuel' ->
    scroll_loop fuel' s total cycle scroll_attempts last_unique_count st
      = Some r.
Proof.
  induction fuel as [|fuel IH]; intros fuel' cycle sa last st r H Hle;
    [discriminate|].
  destruct fuel' as [|fuel']; [lia|].
  rewrite scroll_loop_step in *.
  destruct (feed s cycle) as [listings|e]; [|exact H].
  cbv zeta in *.
  destruct (target_reached total _); [exact H|].
  destruct (max_scroll_attempts <=? _); [exact H|].
  apply IH; [exact H | lia].
Qed.

(** The [None] branch of [walk] is never taken. *)
Lemma walk_within_bound (s : Session) (total : Z) :
  scroll_loop (cycle_bound total) s total 0 0 0 walk_start <> None.
Proof.
  destruct (scroll_loop_terminates s total (cycle_bound total) (le_n _))
    as [r ->]. discriminate.
Qed.

Lemma scroll_loop_within_target (s : Session) (total : Z) :
  forall fuel cycle scroll_attempts last_unique_count st st',
    List.length (unique_keys st) = List.length (places st) ->
    (Z.of_nat (List.length (places st)) < total)%Z ->
    scroll_loop fuel s total cycle scroll_attempts last_unique_count st
      = Some (Ok st') ->
    (Z.of_nat (List.length (places st')) <= total)%Z.
Proof.
  induction fuel as [|fuel IH]; intros cycle sa last st st' Hlen Hlt H;
    [discriminate|].
  rewrite scroll_loop_step in H.
  destruct (feed s cycle) as [listings|e]; [|discriminate].
  cbv zeta in H.
  pose proof (visit_listings_within_target total listings 0 st Hlen Hlt)
    as Hb.
  destruct (visit_listings_lengths total listings 0 st Hlen) as [Hlen1 _].
  set (st1 := visit_listings total 0 listings st) in *.
  destruct (target_reached total st1) eqn:Ht.
  - inversion H; subst. exact Hb.
  - destruct (max_scroll_attempts <=? _).
    + inversion H; subst. exact Hb.
    + apply (IH _ _ _ _ _ Hlen1) in H; [exact H|].
      unfold target_reached in Ht. apply Z.leb_gt in Ht. exact Ht.
Qed.

(** For a target of at least one, [scrape_places] returns at most that
    many records. *)
Lemma result_within_target (search_for : str) (total : Z)
    (browser : option nat) (d : Driver) (s : Session) (result : list Place) :
  (1 <= total)%Z ->
  snd (scrape_places search_for total browser d s) = Ok result ->
  (Z.of_nat (List.length result) <= total)%Z.
Proof.
  intros Htotal H.
  destruct (scrape_places_result _ _ _ _ _ _ H) as [st [Hw ->]].
  unfold walk in Hw. destruct (submit_search s search_for); simpl in Hw;
    [|discriminate].
  destruct (scroll_loop (cycle_bound total) s total 0 0 0 walk_start)
    as [r|] eqn:Hloop; [|discriminate]. subst r.
  apply (scroll_loop_within_target s total (cycle_bound total) 0 0 0
           walk_start st); [reflexivity | simpl; lia | exact Hloop].
Qed.

Lemma visit_listings_stale (total : Z) (listings : list Listing) :
  forall idx st,
    target_reached total st = false ->
    Forall (fun p => key_mem (place_key p) (unique_keys st) = true)
           (extractions listings) ->
    places (visit_listings total idx listings st) = places st /\
    unique_keys (visit_listings total idx listings st) = unique_keys st.
Proof.
  induction listings as [|listing rest IH]; intros idx st Ht Hall; simpl.
  - auto.
  - change (listing :: rest) with ([listing] ++ rest) in Hall.
    rewrite extractions_app in Hall. apply Forall_app in Hall.
    destruct Hall as [Hone Hrest].
    unfold extractions, extraction in Hone. simpl in Hone.
    destruct (page <- listing ;; extract_place page) as [place|e].
    + simpl in Hone. inversion Hone as [|? ? Hk _]; subst.
      assert (Hrec : record_place place st = st).
      { unfold record_place. rewrite Hk, andb_false_r. reflexivity. }
      rewrite Hrec, Ht. apply IH; assumption.
    + apply (IH (S idx)
               {| places := places st; unique_keys := unique_keys st;
                  errors := errors st ++ [(S idx, e)] |}); assumption.
Qed.

(** Stall exhaustion: when the scrolls that complete ten consecutive
    stalls show nothing new, the loop returns normally with the places it
    has. *)
Lemma stall_exhaustion (s : Session) (total : Z) :
  forall k fuel cycle scroll_attempts st,
    scroll_attempts + k = max_scroll_attempts -> 0 < k -> k <= fuel ->
    target_reached total st = false ->
    (forall i, i < k -> stale_cycle s (cycle + i) (unique_keys st)) ->
    exists st',
      scroll_loop fuel s total cycle scroll_attempts
        (List.length (unique_keys st)) st = Some (Ok st') /\
      places st' = places st.
Proof.
  unfold max_scroll_attempts.
  induction k as [|k IH]; intros fuel cycle sa st Hsum Hk Hfuel Ht Hstale;
    [lia|].
  destruct fuel as [|fuel]; [lia|].
  rewrite scroll_loop_step.
  destruct (Hstale 0 ltac:(lia)) as [listings [Hfeed Hall]].
  rewrite Nat.add_0_r in Hfeed. rewrite Hfeed. cbv zeta.
  destruct (visit_listings_stale total listings 0 st Ht Hall) as [Hp Hu].
  set (st1 := visit_listings total 0 listings st) in *.
  assert (Ht1 : target_reached total st1 = false)
    by (unfold target_reached in *; rewrite Hp; exact Ht).
  rewrite Ht1, Hu, Nat.eqb_refl.
  destruct k as [|k].
  - assert (sa = 9) by lia. subst sa. simpl. exists st1. auto.
  - assert (Hmax : (max_scroll_attempts <=? S sa) = false)
      by (unfold max_scroll_attempts; apply Nat.leb_gt; lia).
    rewrite Hmax. rewrite <- Hu, <- Hp. apply IH; try lia.
    + exact Ht1.
    + intros i Hi. rewrite Hu.
      replace (S cycle + i) with (cycle + S i) by lia.
      apply Hstale. lia.
Qed.

(** * The listing walker: the browser session *)

Lemma open_browsers_app (before : list (nat * nat)) (a b : list event) :
  open_browsers before (a ++ b) = open_browsers (open_browsers before a) b.
Proof.
  revert before; induction a as [|ev a IH]; intros before; simpl;
    [reflexivity|].
  destruct ev; apply IH.
Qed.

Lemma open_pages_app (before : nat) (a b : list event) :
  open_pages before (a ++ b) = open_pages (open_pages before a) b.
Proof.
  revert before; induction a as [|ev a IH]; intros before; simpl;
    [reflexivity|].
  destruct ev; apply IH.
Qed.

(** [_scrape_places_with_browser] opens at most one page and closes it
    (the [finally] clause); it touches no browser. *)
Lemma scrape_with_browser_events (browser : nat) (s : Session)
    (search_for : str) (total : Z) :
  let tr := fst (_scrape_places_with_browser browser s search_for total) in
  tr = [] \/ tr = [PageOpen browser; PageClose browser].
Proof.
  unfold _scrape_places_with_browser.
  destruct (new_page s); simpl; auto.
Qed.

Lemma write_errors_events (errors : list (nat * exn)) :
  forall before n,
    open_browsers before (write_errors errors) = before /\
    open_pages n (write_errors errors) = n.
Proof. destruct errors; simpl; auto. Qed.

Lemma scrape_places_handed_browser (search_for : str) (total : Z)
    (d : Driver) (s : Session) (b : nat) (before : list (nat * nat))
    (pages : nat) :
  open_browsers before (fst (scrape_places search_for total (Some b) d s))
    = before /\
  open_pages pages (fst (scrape_places search_for total (Some b) d s))
    = pages.
Proof.
  unfold scrape_places.
  pose proof (scrape_with_browser_events b s search_for total) as Htr.
  destruct (_scrape_places_with_browser b s search_for total) as [tr r].
  simpl in Htr.
  destruct r as [[result errs]|e]; destruct Htr as [-> | ->];
    try destruct errs; split; reflexivity.
Qed.

(** On the paths where [scrape_places] returns, the browser it launched
    is closed by [browser.close()]. *)
Lemma own_browser_closed_when_scrape_returns (search_for : str) (total : Z)
    (d : Driver) (s : Session) (result : list Place) :
  snd (scrape_places search_for total None d s) = Ok result ->
  open_browsers [] (fst (scrape_places search_for total None d s)) = [] /\
  open_pages 0 (fst (scrape_places search_for total None d s)) = 0.
Proof.
  unfold scrape_places.
  destruct (start_playwright d) as [pw|e]; [|discriminate].
  destruct (launch_browser d) as [b0|e]; [|discriminate].
  pose proof (scrape_with_browser_events b0 s search_for total) as Htr.
  destruct (_scrape_places_with_browser b0 s search_for total) as [tr r]
    eqn:E.
  cbn [fst] in Htr.
  destruct r as [[places errs]|e]; [|discriminate]. intros _.
  assert (Hpage : tr = [PageOpen b0; PageClose b0]).
  { unfold _scrape_places_with_browser in E.
    destruct (new_page s); inversion E. reflexivity. }
  subst tr. destruct errs; cbn; rewrite Nat.eqb_refl; split; reflexivity.
Qed.

(** When no browser could be launched, none is open. *)
Lemma no_browser_without_launch (search_for : str) (total : Z)
    (d : Driver) (s : Session) :
  (forall b, launch_browser d <> Ok b) ->
  open_browsers [] (fst (scrape_places search_for total None d s)) = [] /\
  open_pages 0 (fst (scrape_places search_for total None d s)) = 0.
Proof.
  intros Hno. unfold scrape_places.
  destruct (start_playwright d) as [pw|e]; [|split; reflexivity].
  destruct (launch_browser d) as [b0|e]; [|split; reflexivity].
  contradiction (Hno b0). reflexivity.
Qed.

(** A job closes the browser it launched when the scrape returns, and
    does not reach [browser.close()] when the scrape raises (lines 699-703
    and 717-720 have no [try]). *)
Lemma run_one_job_browser (total : Z) (env : JobEnv) (cat loc : str)
    (pw b : nat) :
  start_playwright (job_driver env) = Ok pw ->
  launch_browser (job_driver env) = Ok b ->
  open_pages 0 (fst (run_one_job total env (cat, loc))) = 0 /\
  open_browsers [] (fst (run_one_job total env (cat, loc)))
  = match snd (run_one_job total env (cat, loc)) with
    | Ok _ => []
    | Raise _ => [(pw, b)]
    end.
Proof.
  intros Hpw Hb. unfold run_one_job. rewrite Hpw, Hb.
  match goal with
  | |- context [scrape_places ?q ?t ?br ?d ?s] =>
      destruct (scrape_places_handed_browser q t d s b [(pw, b)] 0)
        as [Hopen Hpages];
      destruct (scrape_places q t br d s) as [tr r]
  end.
  cbn [fst] in Hopen, Hpages.
  destruct r as [places|e]; cbn [fst snd app open_browsers open_pages];
    rewrite open_browsers_app, open_pages_app, Hopen, Hpages; cbn;
    rewrite ?Nat.eqb_refl; split; reflexivity.
Qed.


End WalkerFacts.

(* ================================================================== *)
(** * The job orchestrator *)

Section OrchestratorFacts.

Context {rt : Runtime}.

Lemma dict_get_set (d : LocationResults) (k k' : str) (v : list Place) :
  dict_get (dict_set d k v) k' =
  if str_eqb k k' then Some v else dict_get d k'.
Proof.
  induction d as [|[k0 v0] d IH]; simpl.
  - destruct (str_eqb k k'); reflexivity.
  - destruct (str_eqb k0 k) eqn:E0; simpl.
    + apply str_eqb_eq in E0. subst k0.
      destruct (str_eqb k k'); reflexivity.
    + destruct (str_eqb k0 k') eqn:E1; [|exact IH].
      apply str_eqb_eq in E1. subst k'.
      assert (Hne : str_eqb k k0 = false).
      { apply str_eqb_neq. apply str_eqb_neq in E0. congruence. }
      rewrite Hne. reflexivity.
Qed.

Lemma dict_get_In (d : LocationResults) (k : str) :
  In k (map fst d) <-> dict_get d k <> None.
Proof.
  induction d as [|[k0 v0] d IH]; simpl.
  - split; [intros [] | congruence].
  - destruct (str_eqb k0 k) eqn:E.
    + apply str_eqb_eq in E. split; [discriminate | auto].
    + apply str_eqb_neq in E. rewrite <- IH. tauto.
Qed.

Lemma dict_set_keys (d : LocationResults) (k : str) (v : list Place) :
  map fst (dict_set d k v) =
  if mem k (map fst d) then map fst d else map fst d ++ [k].
Proof.
  induction d as [|[k0 v0] d IH]; simpl; [reflexivity|].
  destruct (str_eqb k0 k) eqn:E0; simpl.
  - apply str_eqb_eq in E0. subst k0. rewrite str_eqb_refl. reflexivity.
  - assert (Hne : str_eqb k k0 = false).
    { apply str_eqb_neq. apply str_eqb_neq in E0. congruence. }
    rewrite Hne. simpl. rewrite IH.
    fold (mem k (map fst d)). destruct (mem k (map fst d)); reflexivity.
Qed.

(** One merge step: the places are appended under their location, and the
    location is added after the others if it is new. *)
Lemma merge_result_get (d : LocationResults) (loc : str)
    (places : list Place) (k : str) :
  dict_get (merge_result d (loc, places)) k =
  if str_eqb loc k then Some (or_empty (dict_get d loc) ++ places)
  else dict_get d k.
Proof.
  unfold merge_result. destruct (dict_get d loc) as [l|] eqn:E.
  - rewrite E. rewrite dict_get_set. reflexivity.
  - rewrite dict_get_set, str_eqb_refl. rewrite !dict_get_set. simpl.
    destruct (str_eqb loc k); reflexivity.
Qed.

Lemma merge_result_keys (d : LocationResults) (loc : str)
    (places : list Place) :
  map fst (merge_result d (loc, places)) =
  if mem loc (map fst d) then map fst d else map fst d ++ [loc].
Proof.
  unfold merge_result. destruct (dict_get d loc) as [l|] eqn:E.
  - rewrite E. rewrite dict_set_keys.
    assert (Hin : mem loc (map fst d) = true).
    { apply mem_In. apply dict_get_In. congruence. }
    rewrite Hin. reflexivity.
  - rewrite dict_get_set, str_eqb_refl.
    assert (Hnot : mem loc (map fst d) = false).
    { apply mem_not_In. rewrite dict_get_In. intros H. apply H. exact E. }
    rewrite !dict_set_keys, Hnot.
    assert (Hin : mem loc (map fst d ++ [loc]) = true).
    { apply mem_In. apply in_or_app. right. left. reflexivity. }
    rewrite Hin. reflexivity.
Qed.

Lemma places_for_cons (k loc : str) (places : list Place)
    (results : list (str * list Place)) :
  places_for k ((loc, places) :: results) =
  (if str_eqb loc k then places else []) ++ places_for k results.
Proof. reflexivity. Qed.

Lemma places_for_none (k : str) (results : list (str * list Place)) :
  existsb (fun r => str_eqb (fst r) k) results = false ->
  places_for k results = [].
Proof.
  induction results as [|[loc places] results IH]; [reflexivity|].
  cbn [existsb fst]. intros H. apply orb_false_iff in H.
  destruct H as [H1 H2]. rewrite places_for_cons, H1, (IH H2). reflexivity.
Qed.

Lemma merge_all_get (results : list (str * list Place)) :
  forall d k,
    dict_get (fold_left merge_result results d) k =
    if existsb (fun r => str_eqb (fst r) k) results
    then Some (or_empty (dict_get d k) ++ places_for k results)
    else dict_get d k.
Proof.
  induction results as [|[loc places] results IH]; intros d k;
    [reflexivity|].
  cbn [fold_left existsb fst]. rewrite IH, !merge_result_get.
  rewrite places_for_cons.
  destruct (str_eqb loc k) eqn:E; cbn [orb].
  - apply str_eqb_eq in E. subst loc.
    destruct (existsb _ results) eqn:Hex; cbn [or_empty].
    + rewrite <- app_assoc. reflexivity.
    + rewrite (places_for_none k results Hex), app_nil_r. reflexivity.
  - reflexivity.
Qed.

Lemma merge_all_keys (results : list (str * list Place)) :
  forall d,
    NoDup (map fst d) ->
    NoDup (map fst (fold_left merge_result results d)) /\
    forall k, In k (map fst (fold_left merge_result results d)) <->
              In k (map fst d) \/ In k (map fst results).
Proof.
  induction results as [|[loc places] results IH]; intros d Hnd; simpl.
  - split; [exact Hnd | tauto].
  - assert (Hnd' : NoDup (map fst (merge_result d (loc, places)))).
    { rewrite merge_result_keys. destruct (mem loc (map fst d)) eqn:E;
        [exact Hnd|].
      apply NoDup_app; [exact Hnd | repeat constructor; intros [] |].
      intros x Hx [<-|[]]. apply mem_not_In in E. auto. }
    destruct (IH _ Hnd') as [H1 H2]. split; [exact H1|].
    intros k. rewrite H2, merge_result_keys.
    destruct (mem loc (map fst d)) eqn:E.
    + apply mem_In in E. split; [tauto|].
      intros [H|[<-|H]]; auto.
    + rewrite in_app_iff. simpl. tauto.
Qed.

(** The job list of [main] is the product of the categories and the
    locations. *)
Lemma jobs_of_In (categories locations : list str) (cat loc : str) :
  In (cat, loc) (jobs_of categories locations) <->
  In cat categories /\ In loc locations.
Proof.
  unfold jobs_of. rewrite in_flat_map. split.
  - intros [c [Hc H]]. apply in_map_iff in H. destruct H as [l [Hl Hin]].
    inversion Hl; subst. auto.
  - intros [Hc Hl]. exists cat. split; [exact Hc|].
    apply in_map_iff. exists loc. auto.
Qed.

(** A job that returns, returns its own location and places tagged with
    its own category. *)
Lemma scrape_job_ok (total : Z) (job : Job * JobEnv)
    (r : str * list Place) :
  scrape_job total job = Ok r ->
  fst r = snd (fst job) /\
  Forall (fun p => category p = fst (fst job)) (snd r).
Proof.
  unfold scrape_job, run_one_job. destruct job as [[cat loc] env].
  cbn [fst snd].
  destruct (start_playwright (job_driver env)); [|simpl; discriminate].
  destruct (launch_browser (job_driver env)); [|simpl; discriminate].
  match goal with
  | |- context [scrape_places ?q ?t ?b ?d ?s] =>
      destruct (scrape_places q t b d s) as [tr [places|e]]
  end; cbn [fst snd]; [|discriminate].
  intros H. inversion H; subst r; clear H. cbn [fst snd].
  split; [reflexivity|].
  apply Forall_forall. intros p Hp. apply in_map_iff in Hp.
  destruct Hp as [q [<- _]]. reflexivity.
Qed.

(** [list(executor.map(...))] returns when every job did, with the results
    in the order of the jobs. *)
Lemma executor_map_list_ok (total : Z) (jobs : list (Job * JobEnv)) :
  forall results,
    executor_map_list (map (scrape_job total) jobs) = Ok results ->
    map fst results = map (fun j => snd (fst j)) jobs /\
    (forall loc, places_for loc results =
       flat_map (fun j => if str_eqb (snd (fst j)) loc
                          then job_places total j else []) jobs).
Proof.
  induction jobs as [|job jobs IH]; intros results.
  - simpl. intros H. inversion H. auto.
  - cbn [map executor_map_list].
    destruct (scrape_job total job) as [r|e] eqn:Hjob; cbn [bind];
      [|discriminate].
    destruct (executor_map_list (map (scrape_job total) jobs)) as [rs|e];
      cbn [bind]; [|discriminate].
    intros H. inversion H; subst results; clear H.
    destruct (IH rs eq_refl) as [Hk Hp].
    destruct (scrape_job_ok total job r Hjob) as [Hloc _].
    split.
    + cbn [map]. rewrite Hk, Hloc. reflexivity.
    + intros loc. destruct r as [rl rp]. cbn [fst] in Hloc. subst rl.
      assert (Hjp : job_places total job = rp)
        by (unfold job_places; rewrite Hjob; reflexivity).
      rewrite places_for_cons, Hp. cbn [flat_map]. rewrite Hjp.
      reflexivity.
Qed.

Lemma executor_map_list_all_ok (total : Z) (jobs : list (Job * JobEnv)) :
  Forall (fun k => is_ok (scrape_job total k) = true) jobs ->
  executor_map_list (map (scrape_job total) jobs)
  = Ok (map (isolated_outcome total) jobs).
Proof.
  induction 1 as [|job jobs Hjob _ IH]; simpl; [reflexivity|].
  unfold isolated_outcome at 1.
  destruct (scrape_job total job) as [r|e]; [|discriminate Hjob].
  simpl. rewrite IH. reflexivity.
Qed.

Lemma executor_map_list_raises (total : Z) (pre : list (Job * JobEnv)) :
  forall job post e,
    Forall (fun k => is_ok (scrape_job total k) = true) pre ->
    scrape_job total job = Raise e ->
    executor_map_list (map (scrape_job total) (pre ++ job :: post))
    = Raise e.
Proof.
  induction pre as [|k pre IH]; intros job post e Hpre Hjob; simpl.
  - rewrite Hjob. reflexivity.
  - inversion Hpre as [|? ? Hk Hpre']; subst.
    destruct (scrape_job total k); [|discriminate Hk].
    simpl. rewrite (IH job post e Hpre' Hjob). reflexivity.
Qed.

(** Both branches of lines 688-727 file the results of the jobs, taken in
    order, under their locations. *)
Lemma run_jobs_merges (total : Z) (jobs : list (Job * JobEnv)) :
  jobs <> [] ->
  run_jobs total jobs =
  (results <- executor_map_list (map (scrape_job total) jobs) ;;
   Ok (fold_left merge_result results [])).
Proof.
  intros Hne. destruct jobs as [|job [|job' jobs]]; [congruence | |].
  - simpl. destruct (scrape_job total job) as [[loc places]|e]; simpl;
      [|reflexivity].
    rewrite str_eqb_refl. reflexivity.
  - reflexivity.
Qed.

(** C9.  When the orchestrator has a merged result, its keys are the
    locations of the jobs, each once; under each location it holds the
    concatenation, in job order, of the records of the jobs with that
    location; and every record carries the category of the job that
    produced it. *)
Theorem aggregation_by_location (total : Z) (jobs : list (Job * JobEnv))
    (d : LocationResults) :
  run_jobs total jobs = Ok d ->
  NoDup (map fst d) /\
  (forall loc, In loc (map fst d) <->
               exists job, In job jobs /\ snd (fst job) = loc) /\
  (forall loc, In loc (map fst d) ->
     dict_get d loc =
     Some (flat_map (fun job => if str_eqb (snd (fst job)) loc
                                then job_places total job else []) jobs)) /\
  (forall job p, In job jobs -> In p (job_places total job) ->
                 category p = fst (fst job)).
Proof.
  intros H.
  assert (Hne : jobs <> []) by (intros ->; discriminate H).
  rewrite (run_jobs_merges total jobs Hne) in H.
  destruct (executor_map_list (map (scrape_job total) jobs))
    as [results|e] eqn:Hres; simpl in H; [|discriminate].
  inversion H; subst d; clear H.
  destruct (executor_map_list_ok total jobs results Hres) as [Hkeys Hplaces].
  destruct (merge_all_keys results [] (NoDup_nil _)) as [Hnd Hin].
  assert (Hlocs : forall loc,
             In loc (map fst (fold_left merge_result results [])) <->
             exists job, In job jobs /\ snd (fst job) = loc).
  { intros loc. rewrite Hin, Hkeys. cbn [map In].
    split.
    - intros [[]|Hj]. apply in_map_iff in Hj.
      destruct Hj as [j [Hj Hi]]. exists j. auto.
    - intros [j [Hi Hj]]. right. apply in_map_iff. exists j. auto. }
  split; [exact Hnd|]. split; [exact Hlocs|]. split.
  - intros loc Hloc. rewrite merge_all_get. simpl.
    assert (Hex : existsb (fun r => str_eqb (fst r) loc) results = true).
    { apply Hin in Hloc. destruct Hloc as [[]|Hloc].
      apply in_map_iff in Hloc. destruct Hloc as [r [Hr Hi]].
      apply existsb_exists. exists r. split; [exact Hi|].
      apply str_eqb_eq. exact Hr. }
    rewrite Hex, Hplaces. reflexivity.
  - intros job p Hjob Hp. unfold job_places in Hp.
    destruct (scrape_job total job) as [r|e] eqn:E; [|destruct Hp].
    destruct (scrape_job_ok total job r E) as [_ Hcat].
    rewrite Forall_forall in Hcat. apply Hcat. exact Hp.
Qed.

(** C4, as the code has it.  No failure is caught at the job boundary.
    When a job raises and the jobs before it in the list returned, its
    exception leaves the orchestrator and there is no merged result.  The
    merged result, with the records of every job under its location,
    exists when no job raises. *)
Theorem job_failure_propagates (total : Z) (jobs : list (Job * JobEnv)) :
  jobs <> [] ->
  (forall pre job post e,
     jobs = pre ++ job :: post ->
     Forall (fun k => is_ok (scrape_job total k) = true) pre ->
     scrape_job total job = Raise e ->
     run_jobs total jobs = Raise e) /\
  (Forall (fun k => is_ok (scrape_job total k) = true) jobs ->
   run_jobs total jobs = Ok (run_jobs_isolated total jobs)).
Proof.
  intros Hne. rewrite (run_jobs_merges total jobs Hne). split.
  - intros pre job post e -> Hpre Hjob.
    rewrite (executor_map_list_raises total pre job post e Hpre Hjob).
    reflexivity.
  - intros Hall. rewrite (executor_map_list_all_ok total jobs Hall).
    reflexivity.
Qed.

End OrchestratorFacts.

(* ================================================================== *)
(** * Runs on concrete pages *)

Import Fixtures.

(** The ASCII runtime with no network and no hours table. *)
Definition rt0 : Runtime :=
  ascii_runtime AsciiRuntime.no_soup AsciiRuntime.offline.

#[local] Existing Instance rt0.

Definition demo_result : list (@Place rt0) :=
  Eval vm_compute in
    match snd (scrape_places (rt := rt0) (u "cafe in Rabat") 5 (Some 1)
                 demo_driver demo_session) with
    | Ok r => r
    | Raise _ => []
    end.


Example demo_result_names :
  map (@name rt0) demo_result = [u "Cafe Atlas"; u "Boulangerie B"].
Proof. vm_compute. reflexivity. Qed.

(** C2.  With the target 0 the walk still appends the first record it
    extracts before it compares the count with the target, and returns one
    record. *)
Theorem target_zero_returns_one_record :
  exists result,
    snd (scrape_places (rt := rt0) (u "cafe in Rabat") 0 (Some 1)
           demo_driver demo_session) = Ok result /\
    List.length result = 1 /\
    (0 < Z.of_nat (List.length result))%Z.
Proof.
  eexists. split; [vm_compute; reflexivity|].
  split; [reflexivity | vm_compute; reflexivity].
Qed.

(** ** The field extractor *)

Definition blank_place : @Place rt0 :=
  Eval vm_compute in
    match extract_place blank_page with
    | Ok p => p
    | Raise _ =>
        {| name := []; maps_url := []; email := []; website := [];
           address := []; phone_number := []; reviews_count := PNone;
           reviews_average := PNone; place_type := []; introduction := [];
           social_media_urls := []; category := []; latitude := [];
           longitude := []; weekly_hours := []; tags := [];
           extra_attrs := [] |}
    end.

(** Counterexample to C3 as stated: on a page where nothing is found every
    extracted field is filled (a sentinel, or the URL of the page), and yet
    the record is not total, because [category] is the empty string. *)
Lemma sentinel_totality_counterexample :
  extract_place blank_page = Ok blank_place /\
  category blank_place = [] /\
  sentinel_total blank_place = false.
Proof. repeat split; vm_compute; reflexivity. Qed.

(** Witness of C3 as amended, on the same page. *)
Lemma sentinel_totality_of_extracted_fields_witness :
  extract_place blank_page = Ok blank_place /\
  name blank_place <> [] /\ category blank_place = [].
Proof.
  split; [vm_compute; reflexivity|].
  pose proof (sentinel_totality_of_extracted_fields blank_page blank_place)
    as H.
  destruct H as [[Hname _] [_ [_ [_ [_ [_ [_ Hcat]]]]]]];
    [vm_compute; reflexivity|].
  split; assumption.
Defined.

Definition social_place : @Place rt0 :=
  Eval vm_compute in
    match extract_place social_page with
    | Ok p => p
    | Raise _ => blank_place
    end.

Example social_place_fields :
  website social_place = u "No website" /\
  social_media_urls social_place
  = u "https://facebook.com/x, https://instagram.com/atlas".
Proof. split; vm_compute; reflexivity. Qed.


Definition unparsable_place : @Place rt0 :=
  Eval vm_compute in
    match extract_place unparsable_page with
    | Ok p => p
    | Raise _ => blank_place
    end.

(** Witness of C6: a page whose review-count text is "N/A". *)
Lemma reviews_count_unparsable_left_None_witness :
  extract_text unparsable_page reviews_count_xpath = u "N/A" /\
  extract_place unparsable_page = Ok unparsable_place /\
  (reviews_count unparsable_place = PNone /\
   reviews_count unparsable_place <> PStr (u "No info available")).
Proof.
  split; [reflexivity|]. split; [vm_compute; reflexivity|].
  apply (reviews_count_unparsable_left_None unparsable_page unparsable_place);
    [reflexivity | vm_compute; reflexivity].
Defined.

Example reviews_count_1234 :
  exists p,
    extract_place (with_text reviews_count_xpath (u "(1,234)") cafe_page)
    = Ok p /\ reviews_count p = PInt 1234.
Proof. eexists. split; vm_compute; reflexivity. Qed.

(** A site that answers 200 with the same address twice and another one. *)
Definition rt_web : Runtime :=
  ascii_runtime AsciiRuntime.no_soup
    (fun _ => Ok (200%Z,
                  u "Write to info@atlas.ma or to info@atlas.ma, not x@y.z")).

(** Witness of C8 on that site. *)
Lemma extract_email_absorbs_fetch_failure_witness :
  extract_email_from_website (rt := rt_web) (u "https://atlas.ma")
  = Ok (u "info@atlas.ma, x@y.z") /\
  extract_email_from_website (rt := rt0) (u "https://atlas.ma")
  = Ok (u "No info available").
Proof.
  split.
  - destruct (extract_email_absorbs_fetch_failure (rt := rt_web)
                (u "https://atlas.ma")) as [r [Hr _]].
    rewrite Hr. vm_compute in Hr. inversion Hr. reflexivity.
  - destruct (extract_email_absorbs_fetch_failure (rt := rt0)
                (u "https://atlas.ma")) as [r [Hr [Hraise _]]].
    rewrite Hr. rewrite (Hraise RequestException eq_refl). reflexivity.
Defined.

Definition cafe_place : @Place rt0 :=
  Eval vm_compute in
    match extract_place cafe_page with
    | Ok p => p
    | Raise _ => blank_place
    end.

Lemma same_outside_hours_demo : same_outside_hours cafe_page hours_page.
Proof.
  split; [reflexivity|].
  intros sel H1 H2. destruct sel; try congruence; repeat split; reflexivity.
Qed.

Example hours_page_worktime :
  exists p, extract_place hours_page = Ok p /\
            extra_attrs p = [("worktime"%string, u "Open, Closes 5 PM")].
Proof. eexists. split; vm_compute; reflexivity. Qed.

(** Witness of C10: the two pages differ in the opening-hours line only. *)
Lemma worktime_leaves_declared_fields_alone_witness :
  extract_place cafe_page = Ok cafe_place /\
  same_outside_hours cafe_page hours_page /\
  exists p',
    extract_place hours_page = Ok p' /\
    asdict p' = asdict cafe_place /\
    extra_attrs p' = [("worktime"%string, u "Open, Closes 5 PM")].
Proof.
  split; [vm_compute; reflexivity|].
  split; [exact same_outside_hours_demo|].
  destruct (worktime_leaves_declared_fields_alone cafe_page hours_page
              cafe_place) as [_ [_ [_ [_ [p' [Hp' [Hd [_ He]]]]]]]];
    [vm_compute; reflexivity | exact same_outside_hours_demo |].
  exists p'. split; [exact Hp'|]. split; [exact Hd|].
  rewrite He. vm_compute. reflexivity.
Defined.

(** ** The orchestrator *)

Definition demo_merged : @LocationResults rt0 :=
  Eval vm_compute in
    match run_jobs 1 demo_jobs with
    | Ok d => d
    | Raise _ => []
    end.

Example demo_merged_shape :
  map fst demo_merged = [u "Rabat"; u "Kenitra"] /\
  option_map (map (@category rt0)) (dict_get demo_merged (u "Rabat"))
  = Some [u "cafe"; u "bakery"] /\
  option_map (map (@category rt0)) (dict_get demo_merged (u "Kenitra"))
  = Some [u "cafe"].
Proof. repeat split; vm_compute; reflexivity. Qed.

(** Witness of C9. *)
Lemma aggregation_by_location_witness :
  run_jobs 1 demo_jobs = Ok demo_merged /\
  (NoDup (map fst demo_merged) /\
   (forall loc, In loc (map fst demo_merged) <->
                exists job, In job demo_jobs /\ snd (fst job) = loc) /\
   (forall loc, In loc (map fst demo_merged) ->
      dict_get demo_merged loc =
      Some (flat_map (fun job => if str_eqb (snd (fst job)) loc
                                 then job_places 1 job else []) demo_jobs)) /\
   (forall job p, In job demo_jobs -> In p (job_places 1 job) ->
                  category p = fst (fst job))).
Proof.
  split; [vm_compute; reflexivity|].
  apply (aggregation_by_location 1 demo_jobs demo_merged).
  vm_compute; reflexivity.
Defined.

(** Counterexample to C4 as stated: isolation would give an empty list for
    Rabat and the bakery for Kenitra; the orchestrator raises instead. *)
Lemma job_isolation_counterexample :
  map (fun r => (fst r, List.length (snd r)))
      (run_jobs_isolated 1 failing_jobs)
  = [(u "Rabat", 0); (u "Kenitra", 1)] /\
  run_jobs 1 failing_jobs = Raise PlaywrightError /\
  run_jobs 1 failing_jobs <> Ok (run_jobs_isolated 1 failing_jobs).
Proof.
  split; [vm_compute; reflexivity|].
  assert (H : run_jobs 1 failing_jobs = Raise PlaywrightError)
    by (vm_compute; reflexivity).
  split; [exact H|]. rewrite H. discriminate.
Qed.

(** Witness of C4 as amended, on the same jobs. *)
Lemma job_failure_propagates_witness :
  failing_jobs <> [] /\
  run_jobs 1 failing_jobs = Raise PlaywrightError.
Proof.
  assert (Hne : failing_jobs <> []) by discriminate.
  split; [exact Hne|].
  destruct (job_failure_propagates 1 failing_jobs Hne) as [Hraise _].
  apply (Hraise [] ((u "cafe", u "Rabat"), job_env broken_driver cafe_page)
           [((u "bakery", u "Kenitra"), job_env demo_driver bakery_page)]).
  - reflexivity.
  - constructor.
  - vm_compute; reflexivity.
Defined.

(** A browser in which the search cannot be submitted. *)
Definition failing_search_session : Session :=
  {| new_page := Ok tt;
     submit_search := fun _ => Raise TimeoutError;
     feed := fun _ => Ok [] |}.


(** The events of that run: the page is closed, the browser is not. *)
Example events_when_search_fails :
  scrape_places (u "cafe in Rabat") 5 None demo_driver
    failing_search_session
  = ([PlaywrightStart 0; BrowserLaunch 0 1; PageOpen 1; PageClose 1;
      PlaywrightStop 0], Raise TimeoutError).
Proof. vm_compute. reflexivity. Qed.

(** The same feed as in the run of C1 closes the browser it launched. *)
Example browser_closed_on_return :
  open_browsers []
    (fst (scrape_places (rt := rt0) (u "cafe in Rabat") 5 None demo_driver
            demo_session)) = [].
Proof. vm_compute. reflexivity. Qed.

(* ================================================================== *)
(** * Further code: the command line of [main]

    The rest of [src/main.py] and the job loop of [src/gui.py], modelled
    with the definitions above. *)

#[local] Remove Hints rt0 : typeclass_instances.

(** ** More facts about [strip], [split] and [replace] *)

Section MoreStringFacts.

Lemma lstrip_head (s : str) :
  match lstrip s with
  | [] => True
  | c :: _ => isspace c = false
  end.
Proof.
  induction s as [|c t IH]; simpl; [exact I|].
  destruct (isspace c) eqn:E; [exact IH | exact E].
Qed.

Lemma lstrip_decomp (s : str) :
  exists ws, s = ws ++ lstrip s /\ forallb isspace ws = true.
Proof.
  induction s as [|c t IH]; simpl.
  - exists []. auto.
  - destruct (isspace c) eqn:E.
    + destruct IH as [ws [H1 H2]]. exists (c :: ws). simpl.
      rewrite E, H2, <- H1. auto.
    + exists []. auto.
Qed.

Lemma lstrip_fixed (s : str) :
  match s with [] => True | c :: _ => isspace c = false end ->
  lstrip s = s.
Proof. destruct s as [|c t]; simpl; [reflexivity|]. intros ->. reflexivity. Qed.

(** [strip] removes a run of whitespace at each end and nothing else. *)
Lemma strip_decomp (s : str) :
  exists l r, s = l ++ strip s ++ r /\
              forallb isspace l = true /\ forallb isspace r = true.
Proof.
  unfold strip. destruct (lstrip_decomp s) as [l [Hl Hls]].
  destruct (lstrip_decomp (rev (lstrip s))) as [r [Hr Hrs]].
  exists l, (rev r). split; [|split; [exact Hls|]].
  - rewrite <- rev_app_distr, <- Hr, rev_involutive. exact Hl.
  - rewrite forallb_forall in *. intros x Hx. apply Hrs.
    apply in_rev. exact Hx.
Qed.

Lemma strip_last (s : str) :
  match rev (strip s) with
  | [] => True
  | c :: _ => isspace c = false
  end.
Proof. unfold strip. rewrite rev_involutive. apply lstrip_head. Qed.

Lemma strip_head (s : str) :
  match strip s with
  | [] => True
  | c :: _ => isspace c = false
  end.
Proof.
  pose proof (lstrip_head s) as Hh.
  assert (Hpre : exists r, lstrip s = strip s ++ r).
  { unfold strip. destruct (lstrip_decomp (rev (lstrip s))) as [r [Hr _]].
    exists (rev r). rewrite <- rev_app_distr, <- Hr, rev_involutive.
    reflexivity. }
  destruct Hpre as [r Hr]. destruct (strip s) as [|c t]; [exact I|].
  rewrite Hr in Hh. exact Hh.
Qed.

Lemma strip_fixed (s : str) : strip (strip s) = strip s.
Proof.
  pose proof (strip_head s) as Hh. pose proof (strip_last s) as Hl.
  unfold strip at 1. rewrite (lstrip_fixed (strip s) Hh).
  rewrite (lstrip_fixed (rev (strip s)) Hl). apply rev_involutive.
Qed.

Lemma strip_In (s : str) (c : N) : In c (strip s) -> In c s.
Proof.
  destruct (strip_decomp s) as [l [r [H _]]]. intros Hc. rewrite H.
  apply in_or_app. right. apply in_or_app. left. exact Hc.
Qed.

Lemma strip_nil_iff (s : str) :
  strip s = [] <-> forallb isspace s = true.
Proof.
  split.
  - intros H. destruct (strip_decomp s) as [l [r [Hs [Hl Hr]]]].
    rewrite H in Hs. rewrite Hs. simpl. rewrite forallb_app, Hl, Hr.
    reflexivity.
  - intros H. assert (Hls : lstrip s = []).
    { induction s as [|c t IH]; simpl; [reflexivity|].
      simpl in H. apply andb_true_iff in H. destruct H as [Hc Ht].
      rewrite Hc. apply IH. exact Ht. }
    unfold strip. rewrite Hls. reflexivity.
Qed.

Lemma split_aux_nonempty (sep : N) (s cur : str) : split_aux sep cur s <> [].
Proof.
  revert cur; induction s as [|c t IH]; intros cur; simpl; [discriminate|].
  destruct (N.eqb c sep); [discriminate | apply IH].
Qed.

(** Joining the parts of [s.split(sep)] with [sep] gives [s] back. *)
Lemma join_split_aux (sep : N) (s : str) :
  forall cur, join [sep] (split_aux sep cur s) = rev cur ++ s.
Proof.
  induction s as [|c t IH]; intros cur; cbn [split_aux].
  - simpl. rewrite app_nil_r. reflexivity.
  - destruct (N.eqb c sep) eqn:E.
    + apply N.eqb_eq in E. subst c.
      pose proof (split_aux_nonempty sep t []) as Hne.
      pose proof (IH []) as IH0.
      destruct (split_aux sep [] t) as [|p ps]; [congruence|].
      change (join [sep] (rev cur :: p :: ps))
        with (rev cur ++ [sep] ++ join [sep] (p :: ps)).
      rewrite IH0. reflexivity.
    + rewrite IH. cbn [rev]. rewrite <- app_assoc. reflexivity.
Qed.

Lemma join_split (sep : N) (s : str) : join [sep] (split sep s) = s.
Proof. unfold split. apply join_split_aux. Qed.

Lemma split_aux_no_sep (sep : N) (s : str) :
  forall cur part,
    ~ In sep cur -> In part (split_aux sep cur s) -> ~ In sep part.
Proof.
  induction s as [|c t IH]; intros cur part Hcur Hin; simpl in Hin.
  - destruct Hin as [<-|[]]. rewrite <- in_rev. exact Hcur.
  - destruct (N.eqb c sep) eqn:E.
    + destruct Hin as [<-|Hin].
      * rewrite <- in_rev. exact Hcur.
      * apply (IH [] part); [intros [] | exact Hin].
    + apply (IH (c :: cur) part); [|exact Hin].
      intros [H|H]; [|auto]. apply N.eqb_neq in E. congruence.
Qed.

Lemma split_no_sep (sep : N) (s part : str) :
  In part (split sep s) -> ~ In sep part.
Proof. apply split_aux_no_sep. intros []. Qed.

Lemma join_In_char (sep : str) (l : list str) (c : N) :
  In c (join sep l) -> In c sep \/ exists part, In part l /\ In c part.
Proof.
  induction l as [|x l IH]; [intros []|].
  destruct l as [|y l].
  - simpl. intros H. right. exists x. auto.
  - change (join sep (x :: y :: l)) with (x ++ sep ++ join sep (y :: l)).
    intros H. apply in_app_or in H. destruct H as [H|H].
    + right. exists x. split; [left; reflexivity | exact H].
    + apply in_app_or in H. destruct H as [H|H]; [left; exact H|].
      destruct (IH H) as [H'|[part [Hp Hc]]]; [left; exact H'|].
      right. exists part. split; [right; exact Hp | exact Hc].
Qed.

(** A character of [s] other than the separator is in one of the parts. *)
Lemma split_covers (sep : N) (s : str) (c : N) :
  In c s -> c <> sep -> exists part, In part (split sep s) /\ In c part.
Proof.
  intros Hc Hne. rewrite <- (join_split sep s) in Hc.
  apply join_In_char in Hc. destruct Hc as [[H|[]]|H]; [congruence|exact H].
Qed.

Lemma split_parts_In (sep : N) (s : str) :
  forall cur part c,
    In part (split_aux sep cur s) -> In c part -> In c cur \/ In c s.
Proof.
  induction s as [|x t IH]; intros cur part c Hp Hc; simpl in Hp.
  - destruct Hp as [<-|[]]. left. apply in_rev. exact Hc.
  - destruct (N.eqb x sep).
    + destruct Hp as [<-|Hp].
      * left. apply in_rev. exact Hc.
      * destruct (IH [] part c Hp Hc) as [[]|H]. right. right. exact H.
    + destruct (IH (x :: cur) part c Hp Hc) as [[<-|H]|H].
      * right. left. reflexivity.
      * left. exact H.
      * right. right. exact H.
Qed.

(** [s.replace(c, "")] for a single character removes every [c]. *)
Lemma replace_char_filter (c : N) (s : str) :
  replace [c] [] s = filter (fun x => negb (N.eqb c x)) s.
Proof.
  unfold replace. induction s as [|x t IH]; [reflexivity|].
  cbn [replace_aux startswith List.length Nat.sub filter].
  destruct (N.eqb c x); cbn [andb negb app].
  - destruct t; exact IH.
  - rewrite IH. reflexivity.
Qed.

End MoreStringFacts.

(** ** The prompts *)

Section CommandLine.

Context {rt : Runtime}.

(** [input(...)]: the next line of the standard input.  At its end Python
    raises [EOFError], which is [OtherError] here. *)
Definition input (stdin : list str) : result (str * list str) :=
  match stdin with
  | [] => Raise OtherError
  | line :: rest => Ok (line, rest)
  end.

(** [prompt_user_input(..., allow_multiple=True)], lines 507-509, on the
    line typed: [[item.strip() for item in user_input.split(',') if
    item.strip()]].  [gui.py] splits its two text fields the same way
    (lines 164 and 169). *)
Definition prompt_user_input_multiple (user_input : str) : list str :=
  map strip
    (filter (fun item => truthy (strip item)) (split (chr ",") user_input)).

(** [get_language_settings], lines 522-540, on the line typed. *)
Definition get_language_settings (typed : str) : str * str :=
  let lang_choice := strip typed in
  if str_eqb lang_choice (u "1") then (u "English", u "en")
  else if str_eqb lang_choice (u "2") then (u "Arabic", u "ar")
  else if str_eqb lang_choice (u "3") then (u "French", u "fr")
  else if str_eqb lang_choice (u "4") then (u "Deutsch", u "de")
  else (u "English", u "en").        (* "Invalid choice. Defaulting ..." *)

(** Why [main] returns before it opens a browser. *)
Inductive exit_reason : Type :=
| NoCategories
| InvalidLocationMode
| NoLocations
| InvalidExportType
| InvalidNumber.

(** What [main] has read when it starts the jobs (line 682). *)
Record Config : Type := {
  cfg_lang_code : str;
  cfg_categories : list str;
  cfg_location_type : str;
  cfg_locations : list str;
  cfg_export_type : str;
  cfg_total : Z;
  cfg_headless : bool
}.

(** Lines 639-648: the location mode and the locations.  [None] is the
    branch "Invalid choice. Exiting.". *)
Definition read_locations (stdin : list str)
    : result (option (list str * str * list str)) :=
  l <- input stdin ;;
  let location_mode := strip (fst l) in
  if str_eqb location_mode (u "1") then
    l <- input (snd l) ;;
    Ok (Some (prompt_user_input_multiple (fst l), u "country", snd l))
  else if str_eqb location_mode (u "2") then
    l <- input (snd l) ;;
    Ok (Some (prompt_user_input_multiple (fst l), u "city", snd l))
  else Ok None.

(** Lines 656-665: the export type of the choice typed. *)
Definition read_export_type (typed : str) : option str :=
  let export_choice := strip typed in
  if str_eqb export_choice (u "1") then Some (u "excel")
  else if str_eqb export_choice (u "2") then Some (u "json")
  else if str_eqb export_choice (u "3") then Some (u "html")
  else None.

(** Lines 667-681: the number of results, read inside [try ... except
    Exception], and the headless choice. *)
Definition read_total_and_headless (stdin : list str)
    : result (option (Z * bool)) :=
  match input stdin with
  | Raise _ => Ok None
  | Ok l =>
      match py_int (strip (fst l)) with
      | None => Ok None
      | Some total =>
          l <- input (snd l) ;;
          let headless_choice := strip (fst l) in
          Ok (Some (total, negb (str_eqb headless_choice (u "1"))))
      end
  end.

(** Lines 624-681 of [main]: the answers are read in order; [inl] is an
    early [return], [Raise] an exception that leaves [main]. *)
Definition read_config (stdin : list str) : result (exit_reason + Config) :=
  l <- input stdin ;;
  let lang_code := snd (get_language_settings (fst l)) in
  l <- input (snd l) ;;
  let categories := prompt_user_input_multiple (fst l) in
  match categories with
  | [] => Ok (inl NoCategories)
  | _ :: _ =>
      located <- read_locations (snd l) ;;
      match located with
      | None => Ok (inl InvalidLocationMode)
      | Some (locations, location_type, stdin) =>
          match locations with
          | [] => Ok (inl NoLocations)
          | _ :: _ =>
              l <- input stdin ;;
              match read_export_type (fst l) with
              | None => Ok (inl InvalidExportType)
              | Some export_type =>
                  answers <- read_total_and_headless (snd l) ;;
                  match answers with
                  | None => Ok (inl InvalidNumber)
                  | Some (total, headless) =>
                      Ok (inr {| cfg_lang_code := lang_code;
                                 cfg_categories := categories;
                                 cfg_location_type := location_type;
                                 cfg_locations := locations;
                                 cfg_export_type := export_type;
                                 cfg_total := total;
                                 cfg_headless := headless |})
                  end
              end
          end
      end
  end.

(** Commas and whitespace. *)
Definition blank_or_comma (c : N) : bool := isspace c || N.eqb c (chr ",").

Lemma prompt_item_spec (user_input item : str) :
  In item (prompt_user_input_multiple user_input) ->
  item <> [] /\ strip item = item /\ ~ In (chr ",") item /\
  forall c, In c item -> In c user_input.
Proof.
  unfold prompt_user_input_multiple. intros H.
  apply in_map_iff in H. destruct H as [part [<- Hpart]].
  apply filter_In in Hpart. destruct Hpart as [Hpart Htruthy].
  split; [apply truthy_true; exact Htruthy|].
  split; [apply strip_fixed|]. split.
  - intros Hc. apply strip_In in Hc.
    exact (split_no_sep (chr ",") user_input part Hpart Hc).
  - intros c Hc. apply strip_In in Hc.
    destruct (split_parts_In (chr ",") user_input [] part c Hpart Hc)
      as [[]|H]. exact H.
Qed.

(** X1.  Every item that the multiple-answer prompt returns is non-empty,
    has no whitespace at either end, contains no comma and is made of
    characters of the line typed. *)
Theorem prompt_items_are_clean (user_input item : str) :
  In item (prompt_user_input_multiple user_input) ->
  item <> [] /\ strip item = item /\ ~ In (chr ",") item /\
  (forall c, In c item -> In c user_input) /\
  match item with [] => True | c :: _ => isspace c = false end /\
  match rev item with [] => True | c :: _ => isspace c = false end.
Proof.
  intros H. destruct (prompt_item_spec user_input item H)
    as [Hne [Hfix [Hcomma Hin]]].
  repeat split; try assumption.
  - rewrite <- Hfix. apply strip_head.
  - rewrite <- Hfix. apply strip_last.
Qed.

Lemma prompt_nil_iff (user_input : str) :
  prompt_user_input_multiple user_input = [] <->
  forallb blank_or_comma user_input = true.
Proof.
  unfold prompt_user_input_multiple. split.
  - intros H. apply forallb_forall. intros c Hc. unfold blank_or_comma.
    destruct (N.eqb c (chr ",")) eqn:E; [apply orb_true_r|].
    apply N.eqb_neq in E. rewrite orb_false_r.
    destruct (split_covers (chr ",") user_input c Hc E) as [part [Hp Hcp]].
    destruct (truthy (strip part)) eqn:Ht.
    + exfalso. apply map_eq_nil in H.
      assert (Hin : In part (filter (fun item => truthy (strip item))
                               (split (chr ",") user_input)))
        by (apply filter_In; auto).
      rewrite H in Hin. exact Hin.
    + assert (Hnil : strip part = [])
        by (destruct (strip part); [reflexivity | discriminate]).
      apply strip_nil_iff in Hnil. rewrite forallb_forall in Hnil.
      apply Hnil. exact Hcp.
  - intros H. rewrite forallb_forall in H.
    assert (Hf : filter (fun item => truthy (strip item))
                   (split (chr ",") user_input) = []).
    { destruct (filter _ _) as [|part ps] eqn:E; [reflexivity|]. exfalso.
      assert (Hin : In part (filter (fun item => truthy (strip item))
                               (split (chr ",") user_input)))
        by (rewrite E; left; reflexivity).
      apply filter_In in Hin. destruct Hin as [Hp Ht].
      assert (Hall : forallb isspace part = true).
      { apply forallb_forall. intros c Hc.
        destruct (split_parts_In (chr ",") user_input [] part c Hp Hc)
          as [[]|Hcs].
        specialize (H c Hcs). unfold blank_or_comma in H.
        apply orb_true_iff in H. destruct H as [H|H]; [exact H|].
        apply N.eqb_eq in H. subst c. exfalso.
        exact (split_no_sep (chr ",") user_input part Hp Hc). }
      apply strip_nil_iff in Hall. rewrite Hall in Ht. discriminate. }
    rewrite Hf. reflexivity.
Qed.

(** X2.  [main] returns with "No categories entered" exactly when the
    line typed for the categories holds nothing but commas and
    whitespace. *)
Theorem blank_categories_line_exits (lang_line categories_line : str)
    (rest : list str) :
  read_config (lang_line :: categories_line :: rest) = Ok (inl NoCategories)
  <-> forallb blank_or_comma categories_line = true.
Proof.
  rewrite <- prompt_nil_iff. unfold read_config. cbn [input bind fst snd].
  split.
  - intros H.
    destruct (prompt_user_input_multiple categories_line) as [|c cs];
      [reflexivity|]. exfalso.
    destruct (read_locations rest) as [[[[locations lt] stdin]|]|e];
      cbn [bind] in H; try discriminate.
    destruct locations; [discriminate|].
    destruct (input stdin) as [l|e]; cbn [bind] in H; [|discriminate].
    destruct (read_export_type (fst l)); [|discriminate].
    destruct (read_total_and_headless (snd l)) as [[[total headless]|]|e];
      cbn [bind] in H; discriminate.
  - intros ->. reflexivity.
Qed.

Lemma jobs_of_length (categories locations : list str) :
  List.length (jobs_of categories locations)
  = List.length categories * List.length locations.
Proof.
  unfold jobs_of. induction categories as [|c cs IH]; [reflexivity|].
  cbn [flat_map List.length Nat.mul]. rewrite length_app, length_map.
  f_equal. exact IH.
Qed.

Lemma get_language_settings_codes (typed : str) :
  In (snd (get_language_settings typed)) [u "en"; u "ar"; u "fr"; u "de"].
Proof.
  unfold get_language_settings.
  destruct (str_eqb (strip typed) (u "1")); [simpl; auto|].
  destruct (str_eqb (strip typed) (u "2")); [simpl; auto|].
  destruct (str_eqb (strip typed) (u "3")); [simpl; auto|].
  destruct (str_eqb (strip typed) (u "4")); simpl; auto.
Qed.

Lemma read_locations_type (stdin : list str) (locations : list str)
    (location_type : str) (stdin' : list str) :
  read_locations stdin = Ok (Some (locations, location_type, stdin')) ->
  (exists line, locations = prompt_user_input_multiple line) /\
  In location_type [u "country"; u "city"].
Proof.
  unfold read_locations.
  destruct (input stdin) as [l|e]; cbn [bind]; [|discriminate]. cbv zeta.
  destruct (str_eqb (strip (fst l)) (u "1")).
  - destruct (input (snd l)) as [l2|e]; cbn [bind]; [|discriminate].
    intros H. inversion H. split; [exists (fst l2); reflexivity|].
    simpl; auto.
  - destruct (str_eqb (strip (fst l)) (u "2")); [|discriminate].
    destruct (input (snd l)) as [l2|e]; cbn [bind]; [|discriminate].
    intros H. inversion H. split; [exists (fst l2); reflexivity|].
    simpl; auto.
Qed.

Lemma read_export_type_values (typed export_type : str) :
  read_export_type typed = Some export_type ->
  In export_type [u "excel"; u "json"; u "html"].
Proof.
  unfold read_export_type.
  destruct (str_eqb (strip typed) (u "1"));
    [intros H; inversion H; simpl; auto|].
  destruct (str_eqb (strip typed) (u "2"));
    [intros H; inversion H; simpl; auto|].
  destruct (str_eqb (strip typed) (u "3"));
    [intros H; inversion H; simpl; auto | discriminate].
Qed.

(** What [read_config] has checked when it hands over a configuration. *)
Lemma read_config_run (stdin : list str) (cfg : Config) :
  read_config stdin = Ok (inr cfg) ->
  exists lang_line categories_line locations_line,
    cfg_lang_code cfg = snd (get_language_settings lang_line) /\
    cfg_categories cfg = prompt_user_input_multiple categories_line /\
    cfg_locations cfg = prompt_user_input_multiple locations_line /\
    cfg_categories cfg <> [] /\ cfg_locations cfg <> [] /\
    In (cfg_location_type cfg) [u "country"; u "city"] /\
    In (cfg_export_type cfg) [u "excel"; u "json"; u "html"].
Proof.
  unfold read_config.
  destruct (input stdin) as [l0|e]; cbn [bind]; [|discriminate].
  destruct (input (snd l0)) as [l1|e]; cbn [bind]; [|discriminate].
  destruct (prompt_user_input_multiple (fst l1)) as [|c cs] eqn:Hcats;
    [discriminate|].
  destruct (read_locations (snd l1))
    as [[[[locations location_type] stdin']|]|e] eqn:Hloc;
    cbn [bind]; try discriminate.
  destruct locations as [|x xs] eqn:Hlocs; [discriminate|].
  destruct (input stdin') as [l3|e]; cbn [bind]; [|discriminate].
  destruct (read_export_type (fst l3)) as [export_type|] eqn:Hex;
    [|discriminate].
  destruct (read_total_and_headless (snd l3)) as [[[total headless]|]|e];
    cbn [bind]; try discriminate.
  intros H. inversion H; subst cfg; clear H. cbn.
  destruct (read_locations_type _ _ _ _ Hloc) as [[line Hline] Hlt].
  exists (fst l0), (fst l1), line.
  rewrite Hcats. repeat split; try assumption; try discriminate.
  exact (read_export_type_values _ _ Hex).
Qed.

(** X3.  When [main] gets as far as the jobs, there is at least one
    category and one location, every one of them a clean item of the line
    typed, and the job list, their product, is not empty; the language code
    is one of the four known, the location type is "country" or "city" and
    the export type is "excel", "json" or "html". *)
Theorem main_starts_with_jobs (stdin : list str) (cfg : Config) :
  read_config stdin = Ok (inr cfg) ->
  jobs_of (cfg_categories cfg) (cfg_locations cfg) <> [] /\
  List.length (jobs_of (cfg_categories cfg) (cfg_locations cfg))
  = List.length (cfg_categories cfg) * List.length (cfg_locations cfg) /\
  (forall item, In item (cfg_categories cfg ++ cfg_locations cfg) ->
     item <> [] /\ strip item = item /\ ~ In (chr ",") item) /\
  In (cfg_lang_code cfg) [u "en"; u "ar"; u "fr"; u "de"] /\
  In (cfg_location_type cfg) [u "country"; u "city"] /\
  In (cfg_export_type cfg) [u "excel"; u "json"; u "html"].
Proof.
  intros H. destruct (read_config_run stdin cfg H)
    as (ll & cl & lcl & Hlang & Hcats & Hlocs & Hc & Hl & Hlt & Hex).
  split.
  - intros Hnil. apply (f_equal (@List.length _)) in Hnil.
    rewrite jobs_of_length in Hnil. simpl in Hnil.
    destruct (cfg_categories cfg); [congruence|].
    destruct (cfg_locations cfg); [congruence|]. simpl in Hnil. lia.
  - split; [apply jobs_of_length|]. split; [|split; [|split]].
    + intros item Hin. apply in_app_or in Hin.
      destruct Hin as [Hin|Hin].
      * rewrite Hcats in Hin.
        destruct (prompt_item_spec cl item Hin) as [H1 [H2 [H3 _]]]. auto.
      * rewrite Hlocs in Hin.
        destruct (prompt_item_spec lcl item Hin) as [H1 [H2 [H3 _]]]. auto.
    + rewrite Hlang. apply get_language_settings_codes.
    + exact Hlt.
    + exact Hex.
Qed.

End CommandLine.

(* ================================================================== *)
(** * Further code: the export *)

Section SheetExport.

Context {rt : Runtime}.

(** [x in columns] for a list of field names. *)
Definition list_mem (x : string) (l : list string) : bool :=
  existsb (String.eqb x) l.

(** [l.remove(x)]: the first occurrence goes; [ValueError] without one. *)
Fixpoint list_remove (x : string) (l : list string) : result (list string) :=
  match l with
  | [] => Raise ValueError
  | y :: t =>
      if String.eqb y x then Ok t
      else (t' <- list_remove x t ;; Ok (y :: t'))
  end.

(** [l.index(x)]: [ValueError] when [x] is not in [l]. *)
Fixpoint list_index (x : string) (l : list string) : result nat :=
  match l with
  | [] => Raise ValueError
  | y :: t =>
      if String.eqb y x then Ok 0 else (i <- list_index x t ;; Ok (S i))
  end.

(** [l[idx:idx] = items]. *)
Definition slice_insert (idx : nat) (items l : list string) : list string :=
  firstn idx l ++ items ++ skipn idx l.

(** The order of the columns, lines 364-372 of [save_places_to_xlsx] and
    again 739-747 of [main]. *)
Definition export_columns (columns : list string) : result (list string) :=
  columns <-
    (if list_mem "email" columns && list_mem "website" columns then
       c <- list_remove "email" columns ;;
       c <- list_remove "website" c ;;
       idx <- list_index "maps_url" c ;;
       Ok (slice_insert (idx + 1) ["email"; "website"]%string c)
     else Ok columns) ;;
  Ok (if list_mem "category" columns then columns
      else columns ++ ["category"]%string).

(** A cell of the sheet: the value it holds, and what the source assigned
    to [cell.hyperlink] if it gave the cell the style 'Hyperlink'. *)
Record Cell : Type := {
  cell_value : str;
  cell_hyperlink : option str
}.

(** The columns whose index is in [hyperlink_cols], line 378. *)
Definition hyperlink_columns : list string :=
  ["maps_url"; "website"; "social_media_urls"]%string.

(** [worksheet.cell(row=..., column=..., value=text)] and
    [cell.value = text] for a text: the value that openpyxl puts in the
    cell, or the exception it raises (it refuses some characters and cuts
    long texts).  This is openpyxl's; nothing is assumed about it. *)
Variable set_cell_value : str -> result str.

(** The body of the loops of lines 384-397 and 404-414 for a column of
    text: the cell written for [value] in the column named [column].
    [urls[0]] raises [IndexError], here [OtherError], when no part of the
    value is left. *)
Definition write_cell (column : string) (value : str) : result Cell :=
  stored <- set_cell_value value ;;                    (* lines 385, 405 *)
  if list_mem column hyperlink_columns && truthy value
     && negb (str_eqb value (u "no info available")) then
    if String.eqb column "social_media_urls" && contains (u ",") value then
      let urls :=
        map strip
          (filter (fun x => truthy (strip x)) (split (chr ",") value)) in
      match urls with
      | first :: _ =>
          stored <- set_cell_value first ;;            (* lines 392, 409 *)
          Ok {| cell_value := stored; cell_hyperlink := Some first |}
      | [] => Raise OtherError
      end
    else Ok {| cell_value := stored; cell_hyperlink := Some value |}
  else Ok {| cell_value := stored; cell_hyperlink := None |}.

(** The width of a column, lines 425-434.  A cell is given by the truth
    value of its value and the length of its text. *)
Definition column_width (col_cells : list (bool * nat)) : nat :=
  let max_len :=
    fold_left (fun (max_len : nat) (cell : bool * nat) =>
                 if fst cell then Nat.max max_len (snd cell) else max_len)
              col_cells 0 in
  Nat.max 15 (Nat.min (max_len + 4) 50).

(** [s.endswith(suffix)]. *)
Definition endswith (suffix s : str) : bool :=
  startswith (rev suffix) (rev s).

(** [s.rsplit(sep, 1)[0]]: what precedes the last [sep], or [s] when it
    has none. *)
Definition rsplit_head (sep : N) (s : str) : str :=
  match snd (span (fun c => negb (N.eqb c sep)) (rev s)) with
  | [] => s
  | _ :: before => rev before
  end.

(** The path that [save_places_to_csv] saves to, lines 490-491. *)
Definition csv_output_path (output_path : str) : str :=
  if negb (endswith (u ".xlsx") output_path)
  then rsplit_head (chr ".") output_path ++ u ".xlsx"
  else output_path.

(** [d[k] = v] on the [dict] of a record. *)
Fixpoint row_set (d : list (string * pyval)) (k : string) (v : pyval)
    : list (string * pyval) :=
  match d with
  | [] => [(k, v)]
  | (k0, v0) :: d' =>
      if String.eqb k0 k then (k0, v) :: d' else (k0, v0) :: row_set d' k v
  end.

(** The rows of the JSON and HTML exports, lines 781-786 and 792-797 of
    [main] and 236-241 and 247-252 of [gui.py]. *)
Definition export_rows (location_type : string)
    (location_results : LocationResults) : list (list (string * pyval)) :=
  flat_map (fun entry =>
              map (fun place =>
                     row_set (asdict place) location_type
                       (PStr (fst entry)))
                  (snd entry))
           location_results.

(** The loop over the jobs of [gui.py], lines 185-227: one job after the
    other, each as in [run_one_job]; an exception ends the loop and is
    reported by the handler of line 281. *)
Fixpoint gui_run_jobs (total : Z) (jobs : list (Job * JobEnv))
    (location_results : LocationResults) (all_places : list Place)
    : result (LocationResults * list Place) :=
  match jobs with
  | [] => Ok (location_results, all_places)
  | job :: rest =>
      r <- scrape_job total job ;;
      gui_run_jobs total rest
        (dict_set location_results (fst r) (snd r))
        (all_places ++ snd r)
  end.

End SheetExport.

Section ExportFacts.

Context {rt : Runtime}.

Variable set_cell_value : str -> result str.

Lemma list_mem_In (x : string) (l : list string) :
  list_mem x l = true <-> In x l.
Proof.
  unfold list_mem. rewrite existsb_exists. split.
  - intros [y [Hy He]]. apply String.eqb_eq in He. subst. exact Hy.
  - intros H. exists x. split; [exact H | apply String.eqb_refl].
Qed.

Lemma list_mem_ext (x : string) (l l' : list string) :
  (forall y, In y l <-> In y l') -> list_mem x l = list_mem x l'.
Proof.
  intros H. destruct (list_mem x l) eqn:E; symmetry.
  - apply list_mem_In. apply H. apply list_mem_In. exact E.
  - destruct (list_mem x l') eqn:E'; [|reflexivity].
    apply list_mem_In in E'. apply H in E'. apply list_mem_In in E'.
    congruence.
Qed.

(** Without duplicates, [remove] is a filter. *)
Lemma list_remove_NoDup (x : string) (l : list string) :
  NoDup l -> In x l ->
  list_remove x l = Ok (filter (fun y => negb (String.eqb y x)) l).
Proof.
  induction l as [|y t IH]; intros Hnd Hin; [destruct Hin|].
  inversion Hnd as [|? ? Hy Ht]; subst. cbn [list_remove filter].
  destruct (String.eqb y x) eqn:E; cbn [negb].
  - apply String.eqb_eq in E. subst y. f_equal. symmetry.
    apply forallb_filter_id. apply forallb_forall. intros z Hz.
    apply negb_true_iff. apply String.eqb_neq. intros ->. contradiction.
  - destruct Hin as [->|Hin]; [rewrite String.eqb_refl in E; discriminate|].
    rewrite (IH Ht Hin). reflexivity.
Qed.

Lemma list_index_split (x : string) (l : list string) :
  In x l ->
  exists pre post,
    l = pre ++ x :: post /\ ~ In x pre /\
    list_index x l = Ok (List.length pre).
Proof.
  induction l as [|y t IH]; intros Hin; [destruct Hin|].
  cbn [list_index]. destruct (String.eqb y x) eqn:E.
  - apply String.eqb_eq in E. subst y. exists [], t. auto.
  - apply String.eqb_neq in E. destruct Hin as [->|Hin]; [congruence|].
    destruct (IH Hin) as [pre [post [-> [Hpre Hidx]]]].
    exists (y :: pre), post. rewrite Hidx. cbn [bind].
    split; [reflexivity|]. split; [|reflexivity].
    intros [H|H]; [congruence | auto].
Qed.

Lemma slice_insert_after (pre post items : list string) (x : string) :
  slice_insert (List.length pre + 1) items (pre ++ x :: post)
  = pre ++ x :: items ++ post.
Proof.
  unfold slice_insert. induction pre as [|y pre IH]; simpl.
  - reflexivity.
  - f_equal. exact IH.
Qed.

(** The columns other than "email" and "website". *)
Definition other_columns (columns : list string) : list string :=
  filter (fun y => negb (String.eqb y "website"))
    (filter (fun y => negb (String.eqb y "email")) columns).

Lemma other_columns_In (columns : list string) (x : string) :
  In x (other_columns columns) <->
  In x columns /\ x <> "email"%string /\ x <> "website"%string.
Proof.
  unfold other_columns. rewrite !filter_In, !negb_true_iff, !String.eqb_neq.
  tauto.
Qed.

(** X4.  For column names without duplicates that include "email",
    "website" and "maps_url", the export order keeps the other columns in
    their order and puts "email" and "website" directly after "maps_url";
    "category" is added at the end if it was missing. *)
Theorem export_columns_order (columns : list string) :
  NoDup columns ->
  In "email"%string columns -> In "website"%string columns ->
  In "maps_url"%string columns ->
  exists pre post,
    other_columns columns = pre ++ "maps_url"%string :: post /\
    export_columns columns =
    Ok (pre ++ ["maps_url"; "email"; "website"]%string ++ post
        ++ (if list_mem "category" columns then []
            else ["category"]%string)).
Proof.
  intros Hnd He Hw Hm.
  assert (Hm' : In "maps_url"%string (other_columns columns))
    by (apply other_columns_In; repeat split; [exact Hm | discriminate ..]).
  destruct (list_index_split _ _ Hm') as [pre [post [Hsplit [_ Hidx]]]].
  exists pre, post. split; [exact Hsplit|].
  unfold export_columns.
  assert (He' : list_mem "email" columns = true) by (apply list_mem_In; auto).
  assert (Hw' : list_mem "website" columns = true)
    by (apply list_mem_In; auto).
  rewrite He', Hw'. cbn [andb].
  rewrite (list_remove_NoDup "email" columns Hnd He). cbn [bind].
  rewrite (list_remove_NoDup "website" _).
  - cbn [bind]. fold (other_columns columns). rewrite Hidx. cbn [bind].
    rewrite Hsplit, slice_insert_after.
    assert (Hcat : list_mem "category"
                     (pre ++ "maps_url"%string
                          :: ["email"; "website"]%string ++ post)
                   = list_mem "category" columns).
    { apply list_mem_ext. intros y.
      assert (Hy : In y (pre ++ "maps_url"%string :: post) <->
                   In y columns /\ y <> "email"%string
                   /\ y <> "website"%string)
        by (rewrite <- Hsplit; apply other_columns_In).
      split.
      - intros H. apply in_app_or in H. destruct H as [H|[H|H]].
        + apply Hy. apply in_or_app. left. exact H.
        + subst y. exact Hm.
        + cbn [app In] in H. destruct H as [<-|[<-|H]]; [exact He|exact Hw|].
          apply Hy. apply in_or_app. right. right. exact H.
      - intros H.
        destruct (String.eqb_spec y "email") as [->|Hne1].
        { apply in_or_app. right. right. left. reflexivity. }
        destruct (String.eqb_spec y "website") as [->|Hne2].
        { apply in_or_app. right. right. right. left. reflexivity. }
        assert (H' : In y (pre ++ "maps_url"%string :: post))
          by (apply Hy; auto).
        apply in_app_or in H'. apply in_or_app.
        destruct H' as [H'|[H'|H']]; [left; exact H' | right; left; exact H'|].
        right. right. right. right. exact H'. }
    rewrite Hcat. destruct (list_mem "category" columns).
    + rewrite app_nil_r. reflexivity.
    + rewrite <- !app_assoc. reflexivity.
  - apply NoDup_filter. exact Hnd.
  - apply filter_In. split; [exact Hw | reflexivity].
Qed.

(** ** Cells *)

Lemma split_aux_before_sep (sep : N) (a r : str) :
  forall cur,
    ~ In sep a ->
    split_aux sep cur (a ++ sep :: r) = (rev cur ++ a) :: split_aux sep [] r.
Proof.
  induction a as [|c a IH]; intros cur Hno.
  - cbn [app split_aux]. rewrite N.eqb_refl, app_nil_r. reflexivity.
  - cbn [app split_aux].
    assert (Hc : N.eqb c sep = false).
    { apply N.eqb_neq. intros ->. apply Hno. left. reflexivity. }
    rewrite Hc, IH by (intros H; apply Hno; right; exact H).
    cbn [rev]. rewrite <- app_assoc. reflexivity.
Qed.

Lemma website_field (page : Page) (p : Place) :
  extract_place page = Ok p ->
  website p <> [] /\
  (extract_text page website_xpath = [] -> website p = u "No info available").
Proof.
  intros H. destruct (extract_place_fields page p H)
    as (e & l & _ & _ & _ & _ & _ & Hw & _).
  rewrite Hw. cbv zeta. split.
  - destruct (truthy (extract_text page website_xpath)) eqn:Ht;
      cbn [andb]; [|discriminate].
    destruct (has_social_domain _); [discriminate|].
    apply truthy_true. exact Ht.
  - intros ->. reflexivity.
Qed.

(** X6.  The website cell of a record that [extract_place] returned is
    written as a hyperlink to its own text unless that text is
    "no info available" in lower case: it raises what the worksheet raises
    on the text, and otherwise holds what the worksheet stored, with the
    full text as the target of the link.  So when the view shows no
    website, the cell is a hyperlink to the sentinel "No info available". *)
Theorem website_cell_is_a_hyperlink (page : Page) (p : Place) :
  extract_place page = Ok p ->
  (website p <> u "no info available" ->
   write_cell set_cell_value "website" (website p)
   = (stored <- set_cell_value (website p) ;;
      Ok {| cell_value := stored;
            cell_hyperlink := Some (website p) |})) /\
  (extract_text page website_xpath = [] ->
   website p = u "No info available" /\
   write_cell set_cell_value "website" (website p)
   = (stored <- set_cell_value (u "No info available") ;;
      Ok {| cell_value := stored;
            cell_hyperlink := Some (u "No info available") |})).
Proof.
  intros H.
  destruct (website_field page p H) as [Hne Hw].
  assert (Hlink : forall value,
            value <> [] -> value <> u "no info available" ->
            write_cell set_cell_value "website" value
            = (stored <- set_cell_value value ;;
               Ok {| cell_value := stored;
                     cell_hyperlink := Some value |})).
  { intros value Hv Hlow. unfold write_cell.
    cbn [list_mem hyperlink_columns existsb].
    cbn [String.eqb Ascii.eqb Bool.eqb orb andb].
    apply truthy_true in Hv. rewrite Hv.
    apply str_eqb_neq in Hlow. rewrite Hlow. reflexivity. }
  split.
  - intros Hlow. apply Hlink; assumption.
  - intros Hraw. split; [exact (Hw Hraw)|].
    rewrite (Hw Hraw). apply Hlink; discriminate.
Qed.

(** X7.  A social-media cell that holds several URLs joined by ", " keeps
    the first one only, when that URL has no comma and no whitespace at its
    ends: after the worksheet took the joined text, the value of the cell
    is set again, to the first URL alone, which is also the target of the
    link; the others do not reach the sheet.  What the worksheet raises on
    the joined text or on the first URL leaves the loop. *)
Theorem social_cell_keeps_first_url (first second : str)
    (more : list str) :
  first <> [] -> strip first = first -> ~ In (chr ",") first ->
  write_cell set_cell_value "social_media_urls"
    (join (u ", ") (first :: second :: more))
  = (_ <- set_cell_value (join (u ", ") (first :: second :: more)) ;;
     stored <- set_cell_value first ;;
     Ok {| cell_value := stored; cell_hyperlink := Some first |}).
Proof.
  intros Hne Hstrip Hcomma.
  change (join (u ", ") (first :: second :: more))
    with (first ++ chr "," :: (chr " " :: join (u ", ") (second :: more))).
  set (rest := chr " " :: join (u ", ") (second :: more)).
  unfold write_cell. cbn [list_mem hyperlink_columns existsb].
  cbn [String.eqb Ascii.eqb Bool.eqb orb andb].
  assert (Ht : truthy (first ++ chr "," :: rest) = true)
    by (destruct first; [congruence | reflexivity]).
  assert (Hlow : str_eqb (first ++ chr "," :: rest) (u "no info available")
                 = false).
  { apply str_eqb_neq. intros E.
    assert (Hin : In (chr ",") (u "no info available"))
      by (rewrite <- E; apply in_or_app; right; left; reflexivity).
    vm_compute in Hin. intuition discriminate. }
  assert (Hc : contains (u ",") (first ++ chr "," :: rest) = true)
    by (apply contains_split; exists first, rest; reflexivity).
  rewrite Ht, Hlow, Hc. cbn [negb andb].
  unfold split. rewrite split_aux_before_sep by exact Hcomma.
  cbn [rev app filter]. rewrite Hstrip.
  apply truthy_true in Hne. rewrite Hne. cbn [map]. rewrite Hstrip.
  reflexivity.
Qed.

(** ** Column widths *)

Lemma max_len_ge (col_cells : list (bool * nat)) :
  forall start,
    start <= fold_left (fun (max_len : nat) (cell : bool * nat) =>
                          if fst cell then Nat.max max_len (snd cell)
                          else max_len) col_cells start /\
    forall cell, In cell col_cells -> fst cell = true ->
      snd cell <= fold_left (fun (max_len : nat) (cell : bool * nat) =>
                               if fst cell then Nat.max max_len (snd cell)
                               else max_len) col_cells start.
Proof.
  induction col_cells as [|c cs IH]; intros start; cbn [fold_left].
  - split; [lia | intros cell []].
  - destruct (IH (if fst c then Nat.max start (snd c) else start))
      as [H1 H2].
    split.
    + destruct (fst c); lia.
    + intros cell [<-|Hin] Ht; [|apply H2; assumption].
      rewrite Ht in *. lia.
Qed.

(** X8.  A column is at least 15 and at most 50 wide, and 4 wider than
    the text of each of its non-empty cells as far as 50 allows. *)
Theorem column_width_bounds (col_cells : list (bool * nat)) :
  15 <= column_width col_cells <= 50 /\
  forall cell, In cell col_cells -> fst cell = true ->
    Nat.min (snd cell + 4) 50 <= column_width col_cells.
Proof.
  unfold column_width. cbv zeta. split; [lia|].
  intros cell Hin Ht.
  destruct (max_len_ge col_cells 0) as [_ H]. specialize (H cell Hin Ht).
  lia.
Qed.

(** ** The path of [save_places_to_csv] *)

Lemma span_stop (p : N -> bool) (a r : str) (c : N) :
  forallb p a = true -> p c = false -> span p (a ++ c :: r) = (a, c :: r).
Proof.
  induction a as [|x a IH]; intros Ha Hc; cbn [app span].
  - rewrite Hc. reflexivity.
  - cbn [forallb] in Ha. apply andb_true_iff in Ha. destruct Ha as [Hx Ha].
    rewrite Hx, (IH Ha Hc). reflexivity.
Qed.

Lemma endswith_app (suffix s : str) : endswith suffix (s ++ suffix) = true.
Proof. unfold endswith. rewrite rev_app_distr. apply startswith_app. Qed.

Lemma rsplit_head_ext (stem ext : str) :
  ~ In (chr ".") ext ->
  rsplit_head (chr ".") (stem ++ chr "." :: ext) = stem.
Proof.
  intros Hno. unfold rsplit_head.
  rewrite rev_app_distr. cbn [rev]. rewrite <- app_assoc. cbn [app].
  rewrite span_stop.
  - cbn [snd]. apply rev_involutive.
  - apply forallb_forall. intros x Hx. apply negb_true_iff.
    apply N.eqb_neq. intros ->. apply Hno. apply in_rev. exact Hx.
  - rewrite N.eqb_refl. reflexivity.
Qed.

(** X9.  The path that [save_places_to_csv] saves to always ends in
    ".xlsx": a path that does is kept, and otherwise what follows the last
    dot of the path is replaced; the path is unchanged by a second pass. *)
Theorem csv_output_path_is_xlsx (output_path : str) :
  endswith (u ".xlsx") (csv_output_path output_path) = true /\
  (endswith (u ".xlsx") output_path = true ->
   csv_output_path output_path = output_path) /\
  csv_output_path (csv_output_path output_path)
  = csv_output_path output_path /\
  (forall stem ext,
     output_path = stem ++ chr "." :: ext ->
     ~ In (chr ".") ext -> ext <> u "xlsx" ->
     csv_output_path output_path = stem ++ u ".xlsx").
Proof.
  assert (H1 : endswith (u ".xlsx") (csv_output_path output_path) = true).
  { unfold csv_output_path.
    destruct (endswith (u ".xlsx") output_path) eqn:E; cbn [negb].
    - exact E.
    - apply endswith_app. }
  assert (H2 : forall q, endswith (u ".xlsx") q = true ->
                         csv_output_path q = q).
  { intros q E. unfold csv_output_path. rewrite E. reflexivity. }
  split; [exact H1|]. split; [apply H2|]. split; [apply H2; exact H1|].
  intros stem ext -> Hno Hext. clear H1 H2. unfold csv_output_path.
  assert (E : endswith (u ".xlsx") (stem ++ chr "." :: ext) = false).
  { destruct (endswith (u ".xlsx") (stem ++ chr "." :: ext)) eqn:E;
      [|reflexivity]. exfalso.
    unfold endswith in E. rewrite rev_app_distr in E. cbn [rev] in E.
    rewrite <- app_assoc in E. cbn [app] in E.
    assert (Hno' : ~ In (chr ".") (rev ext))
      by (rewrite <- in_rev; exact Hno).
    assert (Hrev : rev ext <> rev (u "xlsx"))
      by (intros Hr; apply Hext; rewrite <- (rev_involutive ext), Hr;
          reflexivity).
    change (rev (u ".xlsx")) with [120; 115; 108; 120; 46]%N in E, Hrev.
    change (rev (u "xlsx")) with [120; 115; 108; 120]%N in Hrev.
    change (chr ".") with 46%N in *.
    destruct (rev ext) as [|c1 [|c2 [|c3 [|c4 [|c5 t]]]]];
      cbn [startswith app] in E;
      rewrite ?andb_true_iff, ?N.eqb_eq in E.
    - destruct E as [E _]. discriminate E.
    - destruct E as [_ [E _]]. discriminate E.
    - destruct E as [_ [_ [E _]]]. discriminate E.
    - destruct E as [_ [_ [_ [E _]]]]. discriminate E.
    - apply Hrev. destruct E as [<- [<- [<- [<- _]]]]. reflexivity.
    - apply Hno'. destruct E as [_ [_ [_ [_ [<- _]]]]].
      right. right. right. right. left. reflexivity. }
  rewrite E. cbn [negb]. rewrite rsplit_head_ext by exact Hno. reflexivity.
Qed.

(** ** The records that reach the export *)

(** All the records of a merged result, location after location. *)
Definition all_records (d : LocationResults) : list Place :=
  flat_map snd d.

Lemma merge_result_nil (loc : str) (places : list Place) :
  merge_result [] (loc, places) = [(loc, places)].
Proof.
  unfold merge_result. simpl. rewrite str_eqb_refl. simpl.
  rewrite ?str_eqb_refl. reflexivity.
Qed.

Lemma merge_result_cons (k : str) (v : list Place) (d : LocationResults)
    (loc : str) (places : list Place) :
  merge_result ((k, v) :: d) (loc, places) =
  if str_eqb k loc then (k, v ++ places) :: d
  else (k, v) :: merge_result d (loc, places).
Proof.
  unfold merge_result. destruct (str_eqb k loc) eqn:E.
  - simpl. rewrite ?E. simpl. rewrite ?E. reflexivity.
  - simpl. rewrite ?E. destruct (dict_get d loc) as [l|] eqn:Hget.
    + simpl. rewrite ?E, ?Hget. simpl. rewrite ?E. reflexivity.
    + simpl. rewrite ?E. rewrite dict_get_set, str_eqb_refl.
      simpl. rewrite ?E. reflexivity.
Qed.

Lemma merge_result_records (d : LocationResults) (loc : str)
    (places : list Place) :
  Permutation (all_records (merge_result d (loc, places)))
              (all_records d ++ places).
Proof.
  unfold all_records. induction d as [|[k v] d IH].
  - rewrite merge_result_nil. simpl. rewrite app_nil_r. reflexivity.
  - rewrite merge_result_cons. destruct (str_eqb k loc).
    + cbn [flat_map snd]. rewrite <- !app_assoc.
      apply Permutation_app_head. apply Permutation_app_comm.
    + cbn [flat_map snd]. rewrite <- app_assoc.
      apply Permutation_app_head. exact IH.
Qed.

Lemma merge_all_records (results : list (str * list Place)) :
  forall d,
    Permutation (all_records (fold_left merge_result results d))
                (all_records d ++ flat_map snd results).
Proof.
  induction results as [|[loc places] results IH]; intros d;
    cbn [fold_left flat_map snd].
  - rewrite app_nil_r. reflexivity.
  - rewrite IH. rewrite merge_result_records, <- app_assoc. reflexivity.
Qed.

Lemma executor_map_list_records (total : Z) (jobs : list (Job * JobEnv)) :
  forall results,
    executor_map_list (map (scrape_job total) jobs) = Ok results ->
    flat_map snd results = flat_map (job_places total) jobs.
Proof.
  induction jobs as [|job jobs IH]; intros results.
  - simpl. intros H. inversion H. reflexivity.
  - cbn [map executor_map_list].
    destruct (scrape_job total job) as [r|e] eqn:Hjob; cbn [bind];
      [|discriminate].
    destruct (executor_map_list (map (scrape_job total) jobs)) as [rs|e];
      cbn [bind]; [|discriminate].
    intros H. inversion H; subst results; clear H.
    cbn [flat_map]. rewrite (IH rs eq_refl).
    unfold job_places at 2. rewrite Hjob. reflexivity.
Qed.

Lemma export_rows_length (location_type : string) (d : LocationResults) :
  List.length (export_rows location_type d) = List.length (all_records d).
Proof.
  unfold export_rows, all_records. induction d as [|[k v] d IH];
    [reflexivity|].
  cbn [flat_map fst snd]. rewrite !length_app, length_map, IH. reflexivity.
Qed.

(** X10.  When [main] has a merged result, the records in it are those
    that the jobs returned, each as often as it was returned, and the JSON
    and HTML exports have one row for each. *)
Theorem main_export_keeps_every_record (total : Z)
    (jobs : list (Job * JobEnv)) (d : LocationResults)
    (location_type : string) :
  run_jobs total jobs = Ok d ->
  Permutation (all_records d) (flat_map (job_places total) jobs) /\
  List.length (export_rows location_type d)
  = List.length (flat_map (job_places total) jobs).
Proof.
  intros H.
  assert (Hne : jobs <> []) by (intros ->; discriminate H).
  rewrite (run_jobs_merges total jobs Hne) in H.
  destruct (executor_map_list (map (scrape_job total) jobs))
    as [results|e] eqn:Hres; cbn [bind] in H; [|discriminate].
  inversion H; subst d; clear H.
  assert (Hperm : Permutation
            (all_records (fold_left merge_result results []))
            (flat_map (job_places total) jobs)).
  { rewrite merge_all_records. cbn [all_records flat_map app].
    rewrite (executor_map_list_records total jobs results Hres).
    reflexivity. }
  split; [exact Hperm|].
  rewrite export_rows_length. apply Permutation_length. exact Hperm.
Qed.

(** ** The job loop of the GUI *)

(** What the GUI has under [loc] after the jobs, given what it had. *)
Definition last_for (total : Z) (loc : str) (jobs : list (Job * JobEnv))
    (before : option (list Place)) : option (list Place) :=
  fold_left (fun acc job =>
               if str_eqb (snd (fst job)) loc
               then Some (job_places total job) else acc)
            jobs before.

Lemma gui_run_jobs_spec (total : Z) (jobs : list (Job * JobEnv)) :
  forall d0 all0 d all,
    gui_run_jobs total jobs d0 all0 = Ok (d, all) ->
    all = all0 ++ flat_map (job_places total) jobs /\
    forall loc, dict_get d loc = last_for total loc jobs (dict_get d0 loc).
Proof.
  induction jobs as [|job jobs IH]; intros d0 all0 d all H.
  - simpl in H. inversion H; subst. rewrite app_nil_r. auto.
  - cbn [gui_run_jobs] in H.
    destruct (scrape_job total job) as [r|e] eqn:Hjob; cbn [bind] in H;
      [|discriminate].
    destruct (IH _ _ _ _ H) as [Hall Hget].
    destruct (scrape_job_ok total job r Hjob) as [Hloc _].
    assert (Hjp : job_places total job = snd r)
      by (unfold job_places; rewrite Hjob; reflexivity).
    split.
    + rewrite Hall. cbn [flat_map]. rewrite Hjp, app_assoc. reflexivity.
    + intros loc. rewrite Hget, dict_get_set. unfold last_for.
      cbn [fold_left]. rewrite Hjp, Hloc. reflexivity.
Qed.

Lemma last_for_skip (total : Z) (loc : str) (jobs : list (Job * JobEnv)) :
  forall before,
    (forall j, In j jobs -> snd (fst j) <> loc) ->
    last_for total loc jobs before = before.
Proof.
  unfold last_for. induction jobs as [|job jobs IH]; intros before Hno;
    [reflexivity|].
  assert (E : str_eqb (snd (fst job)) loc = false)
    by (apply str_eqb_neq; apply Hno; left; reflexivity).
  cbn [fold_left]. cbv beta. unfold Job in *. rewrite E. apply IH.
  intros j Hj. apply Hno. right. exact Hj.
Qed.

(** X11.  When the job loop of the GUI ends without an exception,
    [all_places] holds the records of every job in order, but
    [location_results] holds, under each location, the records of the last
    job with that location only: those of an earlier job with the same
    location are overwritten. *)
Theorem gui_keeps_last_job_per_location (total : Z)
    (jobs : list (Job * JobEnv)) (d : LocationResults) (all : list Place) :
  gui_run_jobs total jobs [] [] = Ok (d, all) ->
  all = flat_map (job_places total) jobs /\
  forall pre job post,
    jobs = pre ++ job :: post ->
    (forall j, In j post -> snd (fst j) <> snd (fst job)) ->
    dict_get d (snd (fst job)) = Some (job_places total job).
Proof.
  intros H. destruct (gui_run_jobs_spec total jobs [] [] d all H)
    as [Hall Hget].
  split; [exact Hall|].
  intros pre job post -> Hpost. rewrite Hget. unfold last_for.
  rewrite fold_left_app. cbn [fold_left]. rewrite str_eqb_refl.
  apply (last_for_skip total (snd (fst job)) post). exact Hpost.
Qed.

End ExportFacts.

(* ================================================================== *)
(** * More about the listing walker *)

Section WalkerMore.

Context {rt : Runtime}.

(** X12.  The loop [while True] returns after at most [10 * total + 1]
    scrolls, whatever the feed shows, and a larger bound on the number of
    iterations gives the same outcome. *)
Theorem scroll_loop_returns_within_bound (s : Session) (total : Z) :
  exists r, forall fuel,
    cycle_bound total <= fuel ->
    scroll_loop fuel s total 0 0 0 walk_start = Some r.
Proof.
  destruct (scroll_loop_terminates s total (cycle_bound total) (le_n _))
    as [r Hr].
  exists r. intros fuel Hfuel.
  exact (scroll_loop_fuel_mono s total _ fuel 0 0 0 walk_start r Hr Hfuel).
Qed.

Lemma visit_listings_nonpositive_target (total : Z)
    (listings : list Listing) :
  (total <= 0)%Z ->
  forall idx st,
    List.length (places (visit_listings total idx listings st))
    <= S (List.length (places st)).
Proof.
  intros Htotal. induction listings as [|listing rest IH]; intros idx st;
    simpl; [lia|].
  destruct (page <- listing ;; extract_place page) as [place|e].
  - assert (Ht : target_reached total (record_place place st) = true)
      by (unfold target_reached; apply Z.leb_le; lia).
    rewrite Ht. unfold record_place.
    destruct (truthy (name place) && _); simpl;
      [rewrite length_app; simpl |]; lia.
  - apply (IH (S idx)
             {| places := places st; unique_keys := unique_keys st;
                errors := errors st ++ [(S idx, e)] |}).
Qed.

(** X13.  [scrape_places] returns at most [max(total, 1)] records: at
    most [total] when [total] is at least 1, and at most one otherwise. *)
Theorem result_length_at_most (search_for : str) (total : Z)
    (browser : option nat) (d : Driver) (s : Session) (result : list Place) :
  snd (scrape_places search_for total browser d s) = Ok result ->
  (Z.of_nat (List.length result) <= Z.max total 1)%Z.
Proof.
  intros H. destruct (Z_le_gt_dec 1 total) as [Hge|Hlt].
  - pose proof (result_within_target _ _ _ _ _ _ Hge H). lia.
  - destruct (scrape_places_result _ _ _ _ _ _ H) as [st [Hw ->]].
    unfold walk in Hw. destruct (submit_search s search_for);
      cbn [bind] in Hw; [|discriminate].
    assert (Hfuel : exists fuel, cycle_bound total = S fuel)
      by (unfold cycle_bound; exists (10 * Z.to_nat total); lia).
    destruct Hfuel as [fuel Hfuel]. rewrite Hfuel in Hw.
    rewrite scroll_loop_step in Hw.
    destruct (feed s 0) as [listings|e]; [|discriminate].
    cbv zeta in Hw.
    pose proof (visit_listings_nonpositive_target total listings
                  ltac:(lia) 0 walk_start) as Hlen.
    assert (Ht : target_reached total
                   (visit_listings total 0 listings walk_start) = true)
      by (unfold target_reached; apply Z.leb_le; lia).
    rewrite Ht in Hw. inversion Hw; subst st. simpl in Hlen. lia.
Qed.

(** X14.  Ten scrolls in a row that show nothing new end the walk: the
    loop returns normally, with the places it had. *)
Theorem ten_stale_scrolls_end_the_walk (s : Session) (total : Z)
    (fuel cycle : nat) (st : WalkState) :
  10 <= fuel ->
  target_reached total st = false ->
  (forall i, i < 10 -> stale_cycle s (cycle + i) (unique_keys st)) ->
  exists st',
    scroll_loop fuel s total cycle 0 (List.length (unique_keys st)) st
    = Some (Ok st') /\
    places st' = places st.
Proof.
  intros Hfuel Ht Hstale.
  apply (stall_exhaustion s total 10 fuel cycle 0 st);
    [reflexivity | lia | exact Hfuel | exact Ht | exact Hstale].
Qed.

(** The feed without the listings whose click or extraction raises. *)
Definition succeeds (listing : Listing) : bool :=
  match extraction listing with
  | Some _ => true
  | None => false
  end.

Definition without_failures (s : Session) : Session :=
  {| new_page := new_page s;
     submit_search := submit_search s;
     feed := fun n => match feed s n with
                      | Ok listings => Ok (filter succeeds listings)
                      | Raise e => Raise e
                      end |}.

(** Two states of the walk with the same places and keys. *)
Definition same_collected (st st' : WalkState) : Prop :=
  places st = places st' /\ unique_keys st = unique_keys st'.

Lemma visit_listings_without_failures (total : Z)
    (listings : list Listing) :
  forall idx idx' st st',
    same_collected st st' ->
    same_collected (visit_listings total idx listings st)
                   (visit_listings total idx' (filter succeeds listings) st').
Proof.
  induction listings as [|listing rest IH]; intros idx idx' st st' Hs;
    [exact Hs|].
  cbn [visit_listings filter]. unfold succeeds at 1, extraction.
  destruct (page <- listing ;; extract_place page) as [place|e] eqn:E.
  - cbn [visit_listings]. rewrite E.
    assert (Hrec : same_collected (record_place place st)
                                  (record_place place st')).
    { destruct Hs as [Hp Hk]. unfold record_place. rewrite Hk.
      destruct (truthy (name place) && _); split; simpl; congruence. }
    assert (Ht : target_reached total (record_place place st)
                 = target_reached total (record_place place st')).
    { unfold target_reached. destruct Hrec as [-> _]. reflexivity. }
    rewrite <- Ht. destruct (target_reached total (record_place place st));
      [exact Hrec | apply IH; exact Hrec].
  - apply IH. destruct Hs as [Hp Hk]. split; simpl; assumption.
Qed.

(** The outcomes of two runs of the loop agree up to the error list. *)
Definition same_outcome (r r' : option (result WalkState)) : Prop :=
  match r, r' with
  | None, None => True
  | Some (Raise e), Some (Raise e') => e = e'
  | Some (Ok st), Some (Ok st') => same_collected st st'
  | _, _ => False
  end.

Lemma scroll_loop_without_failures (s : Session) (total : Z) :
  forall fuel cycle scroll_attempts last_unique_count st st',
    same_collected st st' ->
    same_outcome
      (scroll_loop fuel s total cycle scroll_attempts last_unique_count st)
      (scroll_loop fuel (without_failures s) total cycle scroll_attempts
         last_unique_count st').
Proof.
  induction fuel as [|fuel IH]; intros cycle sa last st st' Hs;
    [exact I|].
  rewrite !scroll_loop_step. cbn [without_failures feed].
  destruct (feed s cycle) as [listings|e]; [|reflexivity].
  cbv zeta.
  pose proof (visit_listings_without_failures total listings 0 0 st st' Hs)
    as Hv.
  set (st1 := visit_listings total 0 listings st) in *.
  set (st1' := visit_listings total 0 (filter succeeds listings) st') in *.
  assert (Ht : target_reached total st1 = target_reached total st1')
    by (unfold target_reached; destruct Hv as [-> _]; reflexivity).
  assert (Hk : unique_keys st1 = unique_keys st1') by (apply Hv).
  rewrite <- Ht, <- Hk.
  destruct (target_reached total st1); [exact Hv|].
  destruct (max_scroll_attempts <=? _); [exact Hv|].
  apply IH. exact Hv.
Qed.

(** X15.  A listing whose click or extraction raises never aborts the
    walk and never changes what it returns: [scrape_places] returns the
    same records, or raises the same exception, as on the feed without the
    failing listings. *)
Theorem failed_listings_are_skipped (search_for : str) (total : Z)
    (browser : option nat) (d : Driver) (s : Session) :
  snd (scrape_places search_for total browser d (without_failures s))
  = snd (scrape_places search_for total browser d s).
Proof.
  assert (Hwalk :
    match walk s search_for total,
          walk (without_failures s) search_for total with
    | Ok st, Ok st' => places st = places st'
    | Raise e, Raise e' => e = e'
    | _, _ => False
    end).
  { unfold walk. cbn [without_failures submit_search].
    destruct (submit_search s search_for); cbn [bind]; [|reflexivity].
    pose proof (scroll_loop_without_failures s total (cycle_bound total)
                  0 0 0 walk_start walk_start (conj eq_refl eq_refl)) as H.
    pose proof (walk_within_bound s total) as Hb.
    destruct (scroll_loop (cycle_bound total) s total 0 0 0 walk_start)
      as [[st|e]|];
      destruct (scroll_loop (cycle_bound total) (without_failures s) total
                  0 0 0 walk_start) as [[st'|e']|];
      cbn in H; try contradiction; try congruence.
    apply H. }
  unfold scrape_places, _scrape_places_with_browser.
  cbn [without_failures new_page].
  destruct (walk s search_for total) as [st|e];
    destruct (walk (without_failures s) search_for total) as [st'|e'];
    try contradiction.
  - destruct browser as [b|].
    + destruct (new_page s); cbn [bind fst snd]; [|reflexivity].
      rewrite Hwalk. reflexivity.
    + destruct (start_playwright d); [|reflexivity].
      destruct (launch_browser d); [|reflexivity].
      destruct (new_page s); cbn [bind fst snd]; [|reflexivity].
      rewrite Hwalk. reflexivity.
  - subst e'. destruct browser as [b|].
    + destruct (new_page s); reflexivity.
    + destruct (start_playwright d); [|reflexivity].
      destruct (launch_browser d); [|reflexivity].
      destruct (new_page s); reflexivity.
Qed.

(** X16.  Every entry of the error list that the loop over the listings
    adds carries the 1-based position, counted from [idx], of a listing
    whose click or extraction raised, and the exception it raised. *)
Theorem logged_errors_name_failed_listings (total : Z)
    (listings : list Listing) :
  forall idx st i e,
    In (i, e) (errors (visit_listings total idx listings st)) ->
    In (i, e) (errors st) \/
    exists k listing,
      i = S (idx + k) /\ nth_error listings k = Some listing /\
      (page <- listing ;; extract_place page) = Raise e.
Proof.
  induction listings as [|listing rest IH]; intros idx st i e Hin;
    [left; exact Hin|].
  cbn [visit_listings] in Hin.
  destruct (page <- listing ;; extract_place page) as [place|e0] eqn:E.
  - destruct (target_reached total (record_place place st)).
    + left. unfold record_place in Hin.
      destruct (truthy (name place) && _); exact Hin.
    + destruct (IH _ _ _ _ Hin) as [H|[k [l [Hi [Hn He]]]]].
      * left. unfold record_place in H.
        destruct (truthy (name place) && _); exact H.
      * right. exists (S k), l. split; [lia|]. split; assumption.
  - destruct (IH _ _ _ _ Hin) as [H|[k [l [Hi [Hn He]]]]].
    + cbn [errors] in H. apply in_app_or in H. destruct H as [H|[H|[]]].
      * left. exact H.
      * inversion H; subst. right. exists 0, listing.
        split; [lia|]. split; [reflexivity | exact E].
    + right. exists (S k), l. split; [lia|]. split; assumption.
Qed.

(** X17.  The error log is written only on a path where [scrape_places]
    returns, and then with at least one message: when the walk raises, the
    messages collected for the listings that failed before are not saved. *)
Theorem error_log_written_only_on_return (search_for : str) (total : Z)
    (browser : option nat) (d : Driver) (s : Session) (n : nat) :
  In (WriteErrorLog n) (fst (scrape_places search_for total browser d s)) ->
  1 <= n /\
  exists result, snd (scrape_places search_for total browser d s) = Ok result.
Proof.
  assert (Hlog : forall errs pre post,
            In (WriteErrorLog n) (pre ++ write_errors errs ++ post) ->
            (forall m, ~ In (WriteErrorLog m) pre) ->
            (forall m, ~ In (WriteErrorLog m) post) -> 1 <= n).
  { intros errs pre post Hin Hpre Hpost.
    apply in_app_or in Hin. destruct Hin as [Hin|Hin];
      [exfalso; exact (Hpre n Hin)|].
    apply in_app_or in Hin. destruct Hin as [Hin|Hin];
      [|exfalso; exact (Hpost n Hin)].
    destruct errs as [|err errs]; [destruct Hin|].
    destruct Hin as [Hin|[]]. inversion Hin. cbn [List.length]. lia. }
  assert (Hnone : forall l, Forall (fun ev => forall m, ev <> WriteErrorLog m) l
                            -> forall m, ~ In (WriteErrorLog m) l).
  { intros l Hall m Hin. rewrite Forall_forall in Hall.
    exact (Hall _ Hin m eq_refl). }
  unfold scrape_places, _scrape_places_with_browser.
  destruct browser as [b|].
  - destruct (new_page s); cbn [bind fst snd]; [|intros []].
    destruct (walk s search_for total) as [st|e]; cbn [bind fst snd];
      intros Hin.
    + split; [|eexists; reflexivity].
      apply (Hlog (errors st) [PageOpen b; PageClose b] []).
      * rewrite app_nil_r. exact Hin.
      * apply Hnone. repeat constructor; discriminate.
      * intros m [].
    + exfalso. revert Hin. apply Hnone. repeat constructor; discriminate.
  - destruct (start_playwright d) as [pw|e]; cbn [fst snd]; [|intros []].
    destruct (launch_browser d) as [b|e]; cbn [fst snd].
    + destruct (new_page s); cbn [bind fst snd].
      * destruct (walk s search_for total) as [st|e]; cbn [bind fst snd];
          intros Hin.
        -- split; [|eexists; reflexivity].
           apply (Hlog (errors st)
                    ([PlaywrightStart pw; BrowserLaunch pw b]
                     ++ [PageOpen b; PageClose b] ++ [BrowserClose b])
                    [PlaywrightStop pw]).
           ++ rewrite <- !app_assoc. exact Hin.
           ++ apply Hnone. repeat constructor; discriminate.
           ++ apply Hnone. repeat constructor; discriminate.
        -- exfalso. revert Hin. apply Hnone.
           repeat constructor; discriminate.
      * intros Hin. exfalso. revert Hin. apply Hnone.
        repeat constructor; discriminate.
    + intros Hin. exfalso. revert Hin. apply Hnone.
      repeat constructor; discriminate.
Qed.

End WalkerMore.

(* ================================================================== *)
(** * More about the field extractor *)

Section ExtractorMore.

Context {rt : Runtime}.

(** X18.  [extract_place] raises exactly when enumerating the links of
    the detail pane raises, and then it raises that exception; no other
    step of the extraction can make it fail. *)
Theorem extract_place_raises_with_the_link_list (page : Page) (e : exn) :
  extract_place page = Raise e <-> loc_all page detail_links_css = Raise e.
Proof.
  unfold extract_place.
  destruct (extract_email_from_website_returns
              (extract_text page website_xpath)) as [r [-> _]].
  cbn [bind].
  destruct (loc_all page detail_links_css) as [links|e0]; cbn [bind].
  - destruct (extract_geolocation page). split; discriminate.
  - split; intros H; inversion H; reflexivity.
Qed.

(** ** Tags *)

Lemma collect_tags_NoDup (tag_els : list Element) :
  forall tags, NoDup tags -> NoDup (collect_tags tag_els tags).
Proof.
  induction tag_els as [|el rest IH]; intros tags Hnd; cbn [collect_tags];
    [exact Hnd|].
  destruct (el_inner_text el) as [t|e]; [|exact Hnd]. cbv zeta.
  destruct (truthy (strip t)); cbn [andb]; [|apply IH; exact Hnd].
  destruct (mem (strip t) tags) eqn:Hm; cbn [negb]; [apply IH; exact Hnd|].
  apply IH. apply mem_not_In in Hm.
  apply NoDup_app; [exact Hnd | constructor; [intros [] | constructor] |].
  intros x Hx [<-|[]]. exact (Hm Hx).
Qed.

Lemma collect_tags_from (tag_els : list Element) :
  forall tags t,
    In t (collect_tags tag_els tags) ->
    In t tags \/
    exists el raw,
      In el tag_els /\ el_inner_text el = Ok raw /\ t = strip raw /\ t <> [].
Proof.
  induction tag_els as [|el rest IH]; intros tags t Hin;
    cbn [collect_tags] in Hin; [left; exact Hin|].
  destruct (el_inner_text el) as [raw|e] eqn:E; [|left; exact Hin].
  cbv zeta in Hin.
  assert (Hrest : forall tags', In t (collect_tags rest tags') ->
            In t tags' \/
            exists el' raw',
              In el' (el :: rest) /\ el_inner_text el' = Ok raw' /\
              t = strip raw' /\ t <> []).
  { intros tags' H. destruct (IH _ _ H) as [H'|[el' [raw' [Hel H']]]];
      [left; exact H' | right; exists el', raw'; split; [right; exact Hel|]].
    exact H'. }
  destruct (truthy (strip raw)) eqn:Ht; cbn [andb] in Hin;
    [|apply Hrest; exact Hin].
  destruct (mem (strip raw) tags); cbn [negb] in Hin;
    [apply Hrest; exact Hin|].
  destruct (Hrest _ Hin) as [H|H]; [|right; exact H].
  apply in_app_or in H. destruct H as [H|[<-|[]]]; [left; exact H|].
  right. exists el, raw. split; [left; reflexivity|].
  split; [exact E|]. split; [reflexivity|]. apply truthy_true. exact Ht.
Qed.

(** X19.  The tags collected from the tag elements are pairwise
    distinct, and each one is the stripped, non-empty text of one of the
    elements. *)
Theorem collected_tags_are_distinct (tag_els : list Element) :
  NoDup (collect_tags tag_els []) /\
  forall t, In t (collect_tags tag_els []) ->
    t <> [] /\ strip t = t /\
    exists el raw,
      In el tag_els /\ el_inner_text el = Ok raw /\ t = strip raw.
Proof.
  split; [apply collect_tags_NoDup; constructor|].
  intros t Hin.
  destruct (collect_tags_from tag_els [] t Hin)
    as [[]|[el [raw [Hel [Hraw [Ht Hne]]]]]].
  split; [exact Hne|]. split; [rewrite Ht; apply strip_fixed|].
  exists el, raw. repeat split; assumption.
Qed.

(** ** Reviews count *)

(** The characters that line 161 removes: the two no-break spaces, the
    parentheses, the comma and the space. *)
Definition is_count_separator (c : N) : bool :=
  N.eqb c 160 || N.eqb c 8239 || N.eqb c (chr "(") || N.eqb c (chr ")")
  || N.eqb c (chr ",") || N.eqb c (chr " ").

Lemma filter_filter (f g : N -> bool) (s : str) :
  filter f (filter g s) = filter (fun x => g x && f x) s.
Proof.
  induction s as [|c s IH]; [reflexivity|]. cbn [filter].
  destruct (g c); cbn [filter andb]; [|exact IH].
  destruct (f c); rewrite IH; reflexivity.
Qed.

(** X20.  Cleaning the raw reviews count removes every separator
    character and nothing else, keeping the other characters in order. *)
Theorem clean_reviews_count_removes_separators (raw : str) :
  clean_reviews_count raw
  = filter (fun c => negb (is_count_separator c)) raw.
Proof.
  unfold clean_reviews_count.
  change (u " ") with [chr " "]. change (u ",") with [chr ","].
  change (u ")") with [chr ")"]. change (u "(") with [chr "("].
  rewrite !replace_char_filter, !filter_filter.
  apply filter_ext. intros c. unfold is_count_separator.
  rewrite !negb_orb, !andb_assoc.
  rewrite !(N.eqb_sym c). reflexivity.
Qed.

(** ** Geolocation *)

Lemma geo_char_comma : geo_char (chr ",") = false.
Proof.
  unfold geo_char. rewrite decimal_ascii by reflexivity. reflexivity.
Qed.

Lemma match_geo_here (lat lng post : str) :
  lat <> [] -> lng <> [] ->
  forallb geo_char lat = true -> forallb geo_char lng = true ->
  match_geo (chr "@" :: lat ++ chr "," :: lng ++ chr "," :: post)
  = Some (lat, lng).
Proof.
  intros Hlat Hlng Hl1 Hl2. unfold match_geo.
  rewrite N.eqb_refl.
  rewrite (span_stop geo_char lat _ (chr ",") Hl1 geo_char_comma).
  destruct lat as [|a lat]; [contradiction Hlat; reflexivity|].
  rewrite N.eqb_refl.
  rewrite (span_stop geo_char lng _ (chr ",") Hl2 geo_char_comma).
  destruct lng as [|b lng]; [contradiction Hlng; reflexivity|].
  rewrite N.eqb_refl. reflexivity.
Qed.

Lemma search_geo_first (pre rest : str) (m : str * str) :
  ~ In (chr "@") pre ->
  match_geo rest = Some m ->
  search_geo (pre ++ rest) = Some m.
Proof.
  induction pre as [|c pre IH]; intros Hno Hm; cbn [app].
  - destruct rest; cbn [search_geo]; rewrite Hm; reflexivity.
  - cbn [search_geo].
    assert (Hc : N.eqb c (chr "@") = false).
    { apply N.eqb_neq. intros ->. apply Hno. left. reflexivity. }
    unfold match_geo at 1. rewrite Hc. apply IH; [|exact Hm].
    intros H. apply Hno. right. exact H.
Qed.

(** X21.  When the URL of the page reads [...@lat,lng,...], where
    nothing before holds an [@] and [lat] and [lng] are non-empty runs of
    digits, dots and minus signs, the record's latitude and longitude are
    [lat] and [lng], as text. *)
Theorem geolocation_read_from_url (page : Page) (p : Place)
    (pre lat lng post : str) :
  extract_place page = Ok p ->
  page_url page = pre ++ chr "@" :: lat ++ chr "," :: lng ++ chr "," :: post ->
  ~ In (chr "@") pre ->
  lat <> [] -> lng <> [] ->
  forallb geo_char lat = true -> forallb geo_char lng = true ->
  latitude p = lat /\ longitude p = lng.
Proof.
  intros H Hurl Hpre Hlat Hlng Hl1 Hl2.
  destruct (extract_place_fields page p H)
    as (e & l & _ & _ & _ & _ & _ & _ & _ & _ & _ & _ & _ & _ & _ & _
        & Hla & Hlo & _).
  rewrite Hla, Hlo. unfold extract_geolocation. rewrite Hurl.
  rewrite (search_geo_first pre _ (lat, lng) Hpre
             (match_geo_here lat lng post Hlat Hlng Hl1 Hl2)).
  unfold or_else.
  destruct lat; [contradiction Hlat; reflexivity|].
  destruct lng; [contradiction Hlng; reflexivity|].
  split; reflexivity.
Qed.

Lemma search_geo_none (s : str) :
  ~ In (chr "@") s -> search_geo s = None.
Proof.
  induction s as [|c s IH]; intros Hno; [reflexivity|].
  cbn [search_geo].
  assert (Hc : N.eqb c (chr "@") = false).
  { apply N.eqb_neq. intros ->. apply Hno. left. reflexivity. }
  unfold match_geo. rewrite Hc. apply IH.
  intros H. apply Hno. right. exact H.
Qed.

(** X22.  The canonical URL of a record is never a relative link: it is
    the URL of the page, the sentinel, or a value that starts with
    [http]. *)
Theorem maps_url_is_absolute (page : Page) (p : Place) :
  extract_place page = Ok p ->
  maps_url p = page_url page \/ maps_url p = no_info \/
  startswith (u "http") (maps_url p) = true.
Proof.
  intros H.
  destruct (extract_place_fields page p H)
    as (e & l & _ & _ & _ & Hm & _).
  rewrite Hm. unfold extract_maps_url.
  destruct (loc_first_count page place_link_xpath) as [n|e0]; cbn [bind];
    [|left; reflexivity].
  destruct (0 <? n); [|left; reflexivity].
  destruct (loc_first_href page place_link_xpath) as [[h|]|e0]; cbn [bind];
    [| right; left; reflexivity | left; reflexivity].
  destruct (truthy h) eqn:Ht; cbn [andb]; [|right; left; reflexivity].
  destruct (startswith (u "http") h) eqn:Hs; right; right; [exact Hs|].
  reflexivity.
Qed.

(** ** Social-media links *)


(** X24.  When the URL of the page holds no [@], latitude and longitude
    are both the sentinel. *)
Theorem geolocation_absent_gives_sentinel (page : Page) (p : Place) :
  extract_place page = Ok p ->
  ~ In (chr "@") (page_url page) ->
  latitude p = no_info /\ longitude p = no_info.
Proof.
  intros H Hno.
  destruct (extract_place_fields page p H)
    as (e & l & _ & _ & _ & _ & _ & _ & _ & _ & _ & _ & _ & _ & _ & _
        & Hla & Hlo & _).
  rewrite Hla, Hlo. unfold extract_geolocation.
  rewrite (search_geo_none _ Hno). split; reflexivity.
Qed.

End ExtractorMore.

(* ================================================================== *)
(** * Further code: the headers of the sheet *)

Section Headers.

(** A table of [get_header_translations]: a [dict] literal without
    duplicate keys, in the order it is written. *)
Definition header_table : Type := list (string * str).

Definition headers_en : header_table :=
  [
   ("name"%string, u "Name");
   ("Maps Url"%string, u "Google Maps Link");
   ("address"%string, u "Address");
   ("website"%string, u "Website");
   ("phone_number"%string, u "Phone Number");
   ("Reviews Count"%string, u "Reviews Count");
   ("Reviews Average"%string, u "Reviews Average");
   ("Place Type"%string, u "Place Type");
   ("Work Time"%string, u "Work Time");
   ("Introduction"%string, u "Introduction");
   ("Social Media"%string, u "Social Media");
   ("Category"%string, u "Category");
   ("Email"%string, u "Email");
   ("Latitude"%string, u "Latitude");
   ("Longitude"%string, u "Longitude");
   ("Weekly Hours"%string, u "Weekly Hours");
   ("Tags"%string, u "Tags")
  ].

Definition headers_ar : header_table :=
  [
   ("name"%string, [1575; 1604; 1575; 1587; 1605]%N);
   ("maps_url"%string, [1585; 1575; 1576; 1591; 32; 1582; 1585; 1575; 1574;
      1591; 32; 1580; 1608; 1580; 1604]%N);
   ("address"%string, [1575; 1604; 1593; 1606; 1608; 1575; 1606]%N);
   ("website"%string, [1575; 1604; 1605; 1608; 1602; 1593; 32; 1575; 1604;
      1573; 1604; 1603; 1578; 1585; 1608; 1606; 1610]%N);
   ("phone_number"%string, [1585; 1602; 1605; 32; 1575; 1604; 1607; 1575;
      1578; 1601]%N);
   ("Reviews Count"%string, [1593; 1583; 1583; 32; 1575; 1604; 1578; 1602;
      1610; 1610; 1605; 1575; 1578]%N);
   ("Reviews Average"%string, [1605; 1578; 1608; 1587; 1591; 32; 1575;
      1604; 1578; 1602; 1610; 1610; 1605; 1575; 1578]%N);
   ("Place Type"%string, [1606; 1608; 1593; 32; 1575; 1604; 1605; 1603;
      1575; 1606]%N);
   ("Work Time"%string, [1587; 1575; 1593; 1575; 1578; 32; 1575; 1604;
      1593; 1605; 1604]%N);
   ("Introduction"%string, [1605; 1602; 1583; 1605; 1577]%N);
   ("Social Media"%string, [1608; 1587; 1575; 1574; 1604; 32; 1575; 1604;
      1578; 1608; 1575; 1589; 1604]%N);
   ("Category"%string, [1575; 1604; 1601; 1574; 1577]%N);
   ("Email"%string, [1575; 1604; 1576; 1585; 1610; 1583; 32; 1575; 1604;
      1573; 1604; 1603; 1578; 1585; 1608; 1606; 1610]%N);
   ("Latitude"%string, [1582; 1591; 32; 1575; 1604; 1593; 1585; 1590]%N);
   ("Longitude"%string, [1582; 1591; 32; 1575; 1604; 1591; 1608; 1604]%N);
   ("Weekly Hours"%string, [1587; 1575; 1593; 1575; 1578; 32; 1575; 1604;
      1593; 1605; 1604; 32; 1575; 1604; 1571; 1587; 1576; 1608; 1593; 1610;
      1577]%N);
   ("Tags"%string, [1575; 1604; 1593; 1604; 1575; 1605; 1575; 1578]%N)
  ].

Definition headers_fr : header_table :=
  [
   ("name"%string, u "Nom");
   ("maps_url"%string, u "Lien Google Maps");
   ("address"%string, u "Adresse");
   ("website"%string, u "Site Web");
   ("phone_number"%string, [84; 233; 108; 233; 112; 104; 111; 110; 101]%N);
   ("Reviews Count"%string, [78; 111; 109; 98; 114; 101; 32; 100; 8217; 97;
      118; 105; 115]%N);
   ("Reviews Average"%string, u "Moyenne des avis");
   ("Place Type"%string, u "Type de lieu");
   ("Work Time"%string, [72; 101; 117; 114; 101; 115; 32; 100; 8217; 111;
      117; 118; 101; 114; 116; 117; 114; 101]%N);
   ("Introduction"%string, u "Introduction");
   ("Social Media"%string, [82; 233; 115; 101; 97; 117; 120; 32; 115; 111;
      99; 105; 97; 117; 120]%N);
   ("Category"%string, [67; 97; 116; 233; 103; 111; 114; 105; 101]%N);
   ("Email"%string, u "E-mail");
   ("Latitude"%string, u "Latitude");
   ("Longitude"%string, u "Longitude");
   ("Weekly Hours"%string, u "Horaires hebdomadaires");
   ("tags"%string, [201; 116; 105; 113; 117; 101; 116; 116; 101; 115]%N)
  ].

Definition headers_de : header_table :=
  [
   ("name"%string, u "Name");
   ("maps_url"%string, u "Google Maps Link");
   ("address"%string, u "Adresse");
   ("website"%string, u "Webseite");
   ("phone_number"%string, u "Telefonnummer");
   ("Reviews Count"%string, u "Anzahl Bewertungen");
   ("Reviews Average"%string, u "Durchschnittliche Bewertung");
   ("Place Type"%string, u "Ortstyp");
   ("Work Time"%string, [214; 102; 102; 110; 117; 110; 103; 115; 122; 101;
      105; 116; 101; 110]%N);
   ("Introduction"%string, [69; 105; 110; 102; 252; 104; 114; 117; 110;
      103]%N);
   ("Social Media"%string, u "Soziale Medien");
   ("category"%string, u "Kategorie");
   ("email"%string, u "E-Mail");
   ("latitude"%string, u "Breitengrad");
   ("longitude"%string, [76; 228; 110; 103; 101; 110; 103; 114; 97; 100]%N);
   ("weekly_hours"%string, [87; 246; 99; 104; 101; 110; 116; 108; 105; 99;
      104; 101; 32; 214; 102; 102; 110; 117; 110; 103; 115; 122; 101; 105;
      116; 101; 110]%N);
   ("tags"%string, u "Tags")
  ].

(** [get_header_translations], lines 542-621: [headers.get(lang_code,
    headers['en'])]. *)
Definition get_header_translations (lang_code : str) : header_table :=
  if str_eqb lang_code (u "en") then headers_en
  else if str_eqb lang_code (u "ar") then headers_ar
  else if str_eqb lang_code (u "fr") then headers_fr
  else if str_eqb lang_code (u "de") then headers_de
  else headers_en.

(** [header_map.get(col)]. *)
Fixpoint header_get (header_map : header_table) (col : string)
    : option str :=
  match header_map with
  | [] => None
  | (k, v) :: rest =>
      if String.eqb k col then Some v else header_get rest col
  end.

(** [str.title] is Python's; nothing is assumed about it. *)
Variable title : str -> str.

(** One element of [display_headers], line 375:
    [header_map.get(col, col.replace('_', ' ').title())]. *)
Definition display_header (lang_code : str) (col : string) : str :=
  match header_get (get_header_translations lang_code) col with
  | Some header => header
  | None => title (replace (u "_") (u " ") (u col))
  end.

(** The columns whose entries in the tables are filed under a name in
    title case. *)
Definition untranslated_columns : list string :=
  ["reviews_count"; "reviews_average"; "place_type"; "introduction";
   "social_media_urls"]%string.

(** X25.  Whatever the language, the headers of the columns
    [reviews_count], [reviews_average], [place_type], [introduction] and
    [social_media_urls] are not taken from the translation table: no table
    has an entry under these names, so the header is the field name in
    title case. *)
Theorem title_case_keys_are_never_used (lang_code : str) (col : string) :
  In col untranslated_columns ->
  header_get (get_header_translations lang_code) col = None /\
  display_header lang_code col = title (replace (u "_") (u " ") (u col)).
Proof.
  intros Hin.
  assert (H : header_get (get_header_translations lang_code) col = None).
  { unfold get_header_translations.
    repeat match goal with
           | |- context [if ?b then _ else _] => destruct b
           end;
      cbn [untranslated_columns In] in Hin;
      repeat (destruct Hin as [<-|Hin]; [vm_compute; reflexivity|]);
      destruct Hin. }
  split; [exact H|]. unfold display_header. rewrite H. reflexivity.
Qed.

(** X26.  In English, and with a language code that has no table of
    its own, the header of [maps_url] is not "Google Maps Link": the
    English table files it under "Maps Url", and the header is the field
    name in title case. *)
Theorem english_maps_url_header (lang_code : str) :
  lang_code <> u "ar" -> lang_code <> u "fr" -> lang_code <> u "de" ->
  display_header lang_code "maps_url"
  = title (replace (u "_") (u " ") (u "maps_url")).
Proof.
  intros Har Hfr Hde. unfold display_header, get_header_translations.
  apply str_eqb_neq in Har, Hfr, Hde. rewrite Har, Hfr, Hde.
  destruct (str_eqb lang_code (u "en")); reflexivity.
Qed.

End Headers.

(* ================================================================== *)
(** * Further code: [clean_intro_text] *)

Section IntroText.

Context {rt : Runtime}.

(** [re.sub(r'\s+', ' ', text)]: every maximal run of whitespace becomes
    one space.  [in_run] tells that the character before was part of the
    run being replaced. *)
Fixpoint collapse_whitespace (in_run : bool) (text : str) : str :=
  match text with
  | [] => []
  | c :: t =>
      if isspace c then
        if in_run then collapse_whitespace true t
        else chr " " :: collapse_whitespace true t
      else c :: collapse_whitespace false t
  end.

(** Where the scan of [(?<=[.!?]) +] stands: the character before is one
    of the three marks, or is part of the run of spaces being replaced, or
    is anything else. *)
Inductive scan_state : Type := AfterMark | InRun | Plain.

Definition sentence_mark (c : N) : bool :=
  N.eqb c (chr ".") || N.eqb c (chr "!") || N.eqb c (chr "?").

(** [re.sub(r'(?<=[.!?]) +', '\n', text)]: a run of spaces that follows a
    mark becomes one line feed. *)
Fixpoint break_sentences (st : scan_state) (text : str) : str :=
  match text with
  | [] => []
  | c :: t =>
      if N.eqb c (chr " ") then
        match st with
        | AfterMark => 10%N :: break_sentences InRun t
        | InRun => break_sentences InRun t
        | Plain => c :: break_sentences Plain t
        end
      else
        c :: break_sentences (if sentence_mark c then AfterMark else Plain) t
  end.

(** [clean_intro_text], lines 513-520, for a [str]. *)
Definition clean_intro_text (text : str) : str :=
  if negb (truthy text)
     || mem (lower (strip text)) [u "none found"; u "none"]
  then []
  else break_sentences Plain (strip (collapse_whitespace false text)).

Definition not_space (c : N) : bool := negb (isspace c).

Lemma collapse_whitespace_keeps (text : str) :
  forall in_run,
    filter not_space (collapse_whitespace in_run text)
    = filter not_space text.
Proof.
  induction text as [|c t IH]; intros in_run; [reflexivity|].
  cbn [collapse_whitespace filter]. unfold not_space at 2.
  destruct (isspace c) eqn:E; cbn [negb].
  - destruct in_run; [apply IH|].
    cbn [filter]. change (not_space (chr " ")) with false. apply IH.
  - cbn [filter]. unfold not_space at 1. rewrite E. cbn [negb].
    rewrite IH. reflexivity.
Qed.

Lemma filter_all_space (s : str) :
  forallb isspace s = true -> filter not_space s = [].
Proof.
  induction s as [|c t IH]; [reflexivity|]. cbn [forallb filter].
  intros H. apply andb_true_iff in H. destruct H as [Hc Ht].
  unfold not_space at 1. rewrite Hc. exact (IH Ht).
Qed.

Lemma strip_keeps (s : str) :
  filter not_space (strip s) = filter not_space s.
Proof.
  destruct (strip_decomp s) as [l [r [Hs [Hl Hr]]]].
  rewrite Hs at 2. rewrite !filter_app.
  rewrite (filter_all_space l Hl), (filter_all_space r Hr), app_nil_r.
  reflexivity.
Qed.

Lemma break_sentences_keeps (text : str) :
  forall st,
    filter not_space (break_sentences st text) = filter not_space text.
Proof.
  induction text as [|c t IH]; intros st; [reflexivity|].
  cbn [break_sentences].
  destruct (N.eqb c (chr " ")) eqn:E.
  - apply N.eqb_eq in E. subst c.
    cbn [filter]. change (not_space (chr " ")) with false. cbv iota.
    destruct st; cbn [filter]; try change (not_space 10) with false;
      try change (not_space (chr " ")) with false; cbv iota; apply IH.
  - cbn [filter]. rewrite IH. reflexivity.
Qed.

(** X27.  [clean_intro_text] changes whitespace only: unless the text,
    stripped and in lower case, is "none found" or "none", the characters
    of the result that are not whitespace are those of the text, in
    order; for those two texts the result is empty. *)
Theorem clean_intro_text_changes_whitespace_only (text : str) :
  (mem (lower (strip text)) [u "none found"; u "none"] = false ->
   filter not_space (clean_intro_text text) = filter not_space text) /\
  (mem (lower (strip text)) [u "none found"; u "none"] = true ->
   clean_intro_text text = []).
Proof.
  unfold clean_intro_text. split; intros H; rewrite H.
  - destruct text as [|c t]; [reflexivity|].
    cbn [truthy negb orb].
    rewrite break_sentences_keeps, strip_keeps, collapse_whitespace_keeps.
    reflexivity.
  - rewrite orb_true_r. reflexivity.
Qed.

End IntroText.

(* ================================================================== *)
(** * Further runs on concrete inputs *)

#[local] Existing Instance rt0.

(** ** The command line *)

(** Witness of X1. *)
Lemma prompt_items_are_clean_witness :
  In (u "cafe") (prompt_user_input_multiple (u " cafe , ,bakery")) /\
  (u "cafe" <> [] /\ strip (u "cafe") = u "cafe" /\
   ~ In (chr ",") (u "cafe") /\
   (forall c, In c (u "cafe") -> In c (u " cafe , ,bakery")) /\
   match u "cafe" with [] => True | c :: _ => isspace c = false end /\
   match rev (u "cafe") with [] => True | c :: _ => isspace c = false end).
Proof.
  split; [vm_compute; auto|].
  apply (prompt_items_are_clean (u " cafe , ,bakery") (u "cafe")).
  vm_compute; auto.
Defined.

(** The answers of a run of [main]: Arabic, two categories, cities,
    one city, JSON, no result asked for, a visible browser. *)
Definition demo_stdin : list str :=
  [u "2"; u "cafe, bakery"; u " 2 "; u "Rabat"; u "2"; u "0"; u "1"].

Definition demo_config : Config :=
  Eval vm_compute in
    match read_config demo_stdin with
    | Ok (inr cfg) => cfg
    | _ => {| cfg_lang_code := []; cfg_categories := [];
              cfg_location_type := []; cfg_locations := [];
              cfg_export_type := []; cfg_total := 0;
              cfg_headless := true |}
    end.

(** Witness of X3. *)
Lemma main_starts_with_jobs_witness :
  read_config demo_stdin = Ok (inr demo_config) /\
  (jobs_of (cfg_categories demo_config) (cfg_locations demo_config) <> [] /\
   List.length (jobs_of (cfg_categories demo_config)
                  (cfg_locations demo_config))
   = List.length (cfg_categories demo_config)
     * List.length (cfg_locations demo_config) /\
   (forall item,
      In item (cfg_categories demo_config ++ cfg_locations demo_config) ->
      item <> [] /\ strip item = item /\ ~ In (chr ",") item) /\
   In (cfg_lang_code demo_config) [u "en"; u "ar"; u "fr"; u "de"] /\
   In (cfg_location_type demo_config) [u "country"; u "city"] /\
   In (cfg_export_type demo_config) [u "excel"; u "json"; u "html"]).
Proof.
  split; [vm_compute; reflexivity|].
  apply (main_starts_with_jobs demo_stdin demo_config).
  vm_compute; reflexivity.
Defined.

Example demo_config_fields :
  cfg_lang_code demo_config = u "ar" /\
  cfg_categories demo_config = [u "cafe"; u "bakery"] /\
  cfg_locations demo_config = [u "Rabat"] /\
  cfg_total demo_config = 0%Z.
Proof. repeat split; vm_compute; reflexivity. Qed.

(** ** The export *)

Lemma dataclass_fields_NoDup : NoDup dataclass_fields.
Proof.
  unfold dataclass_fields.
  repeat (constructor; [cbn [In]; intuition discriminate|]).
  constructor.
Qed.

(** Witness of X4: the declared fields of [Place] are already in the
    export order. *)
Lemma export_columns_order_witness :
  (NoDup dataclass_fields /\
   In "email"%string dataclass_fields /\
   In "website"%string dataclass_fields /\
   In "maps_url"%string dataclass_fields) /\
  exists pre post,
    other_columns dataclass_fields = pre ++ "maps_url"%string :: post /\
    export_columns dataclass_fields =
    Ok (pre ++ ["maps_url"; "email"; "website"]%string ++ post
        ++ (if list_mem "category" dataclass_fields then []
            else ["category"]%string)).
Proof.
  split.
  - split; [exact dataclass_fields_NoDup|]. cbn; auto 10.
  - apply (export_columns_order dataclass_fields).
    + exact dataclass_fields_NoDup.
    + cbn; auto 10.
    + cbn; auto 10.
    + cbn; auto 10.
Defined.

Example export_columns_of_Place :
  export_columns dataclass_fields = Ok dataclass_fields.
Proof. vm_compute. reflexivity. Qed.

(** A worksheet that cuts a text at 32767 characters and refuses the
    control characters U+0000 to U+0008, U+000B, U+000C and U+000E to
    U+001F. *)
Definition checked_cell_value (text : str) : result str :=
  let text := firstn (N.to_nat 32767) text in
  if existsb (fun c => (c <=? 8) || (c =? 11) || (c =? 12)
                       || ((14 <=? c) && (c <=? 31)))%N text
  then Raise OtherError
  else Ok text.

(** Witness of X6. *)
Lemma website_cell_is_a_hyperlink_witness :
  extract_place cafe_page = Ok cafe_place /\
  ((website cafe_place <> u "no info available" ->
    write_cell checked_cell_value "website" (website cafe_place)
    = (stored <- checked_cell_value (website cafe_place) ;;
       Ok {| cell_value := stored;
             cell_hyperlink := Some (website cafe_place) |})) /\
   (extract_text cafe_page website_xpath = [] ->
    website cafe_place = u "No info available" /\
    write_cell checked_cell_value "website" (website cafe_place)
    = (stored <- checked_cell_value (u "No info available") ;;
       Ok {| cell_value := stored;
             cell_hyperlink := Some (u "No info available") |}))).
Proof.
  split; [vm_compute; reflexivity|].
  apply (website_cell_is_a_hyperlink checked_cell_value cafe_page
           cafe_place).
  vm_compute; reflexivity.
Defined.

(** On that worksheet the cell of the cafe is a link to the sentinel,
    and a website text with a bell character is refused. *)
Example sentinel_is_linked :
  write_cell checked_cell_value "website" (website cafe_place)
  = Ok {| cell_value := u "No info available";
          cell_hyperlink := Some (u "No info available") |}.
Proof. vm_compute. reflexivity. Qed.

Example control_character_is_refused :
  write_cell checked_cell_value "website" (u "https://atlas.ma/" ++ [7%N])
  = Raise OtherError.
Proof. vm_compute. reflexivity. Qed.

(** Witness of X7. *)
Lemma social_cell_keeps_first_url_witness :
  (u "https://facebook.com/x" <> [] /\
   strip (u "https://facebook.com/x") = u "https://facebook.com/x" /\
   ~ In (chr ",") (u "https://facebook.com/x")) /\
  write_cell checked_cell_value "social_media_urls"
    (join (u ", ")
       [u "https://facebook.com/x"; u "https://instagram.com/atlas"])
  = (_ <- checked_cell_value
            (join (u ", ")
               [u "https://facebook.com/x";
                u "https://instagram.com/atlas"]) ;;
     stored <- checked_cell_value (u "https://facebook.com/x") ;;
     Ok {| cell_value := stored;
           cell_hyperlink := Some (u "https://facebook.com/x") |}).
Proof.
  assert (H1 : u "https://facebook.com/x" <> []) by discriminate.
  assert (H2 : strip (u "https://facebook.com/x")
               = u "https://facebook.com/x") by (vm_compute; reflexivity).
  assert (H3 : ~ In (chr ",") (u "https://facebook.com/x"))
    by (vm_compute; intuition discriminate).
  split; [auto|].
  exact (social_cell_keeps_first_url checked_cell_value
           (u "https://facebook.com/x")
           (u "https://instagram.com/atlas") [] H1 H2 H3).
Defined.

Example first_social_url_only :
  write_cell checked_cell_value "social_media_urls"
    (join (u ", ")
       [u "https://facebook.com/x"; u "https://instagram.com/atlas"])
  = Ok {| cell_value := u "https://facebook.com/x";
          cell_hyperlink := Some (u "https://facebook.com/x") |}.
Proof. vm_compute. reflexivity. Qed.

(** Witness of X10. *)
Lemma main_export_keeps_every_record_witness :
  run_jobs 1 demo_jobs = Ok demo_merged /\
  (Permutation (all_records demo_merged)
     (flat_map (job_places 1) demo_jobs) /\
   List.length (export_rows "city" demo_merged)
   = List.length (flat_map (job_places 1) demo_jobs)).
Proof.
  split; [vm_compute; reflexivity|].
  apply (main_export_keeps_every_record 1 demo_jobs demo_merged "city").
  vm_compute; reflexivity.
Defined.

(** The job loop of the GUI on the three jobs. *)
Definition gui_demo : @LocationResults rt0 * list (@Place rt0) :=
  Eval vm_compute in
    match gui_run_jobs 1 demo_jobs [] [] with
    | Ok r => r
    | Raise _ => ([], [])
    end.

(** Witness of X11. *)
Lemma gui_keeps_last_job_per_location_witness :
  gui_run_jobs 1 demo_jobs [] [] = Ok (fst gui_demo, snd gui_demo) /\
  (snd gui_demo = flat_map (job_places 1) demo_jobs /\
   forall pre job post,
     demo_jobs = pre ++ job :: post ->
     (forall j, In j post -> snd (fst j) <> snd (fst job)) ->
     dict_get (fst gui_demo) (snd (fst job)) = Some (job_places 1 job)).
Proof.
  split; [vm_compute; reflexivity|].
  apply (gui_keeps_last_job_per_location 1 demo_jobs
           (fst gui_demo) (snd gui_demo)).
  vm_compute; reflexivity.
Defined.

(** Of the two jobs for Rabat the GUI keeps the records of the second
    under the location, and all three records in [all_places]. *)
Example gui_demo_shape :
  option_map (map (@category rt0)) (dict_get (fst gui_demo) (u "Rabat"))
  = Some [u "bakery"] /\
  map (@category rt0) (snd gui_demo) = [u "cafe"; u "bakery"; u "cafe"].
Proof. split; vm_compute; reflexivity. Qed.

(** ** The walker *)

Definition zero_result : list (@Place rt0) :=
  Eval vm_compute in
    match snd (scrape_places (rt := rt0) (u "cafe in Rabat") 0 (Some 1)
                 demo_driver demo_session) with
    | Ok r => r
    | Raise _ => []
    end.

(** Witness of X13, with the target 0. *)
Lemma result_length_at_most_witness :
  snd (scrape_places (rt := rt0) (u "cafe in Rabat") 0 (Some 1)
         demo_driver demo_session) = Ok zero_result /\
  (Z.of_nat (List.length zero_result) <= Z.max 0 1)%Z.
Proof.
  split; [vm_compute; reflexivity|].
  apply (result_length_at_most (u "cafe in Rabat") 0 (Some 1)
           demo_driver demo_session zero_result).
  vm_compute; reflexivity.
Defined.

(** The walk after the first scroll of a feed that shows one place and
    then nothing new. *)
Definition one_place_session : Session := session_showing [Ok cafe_page].

Definition after_first_scroll : @WalkState rt0 :=
  record_place cafe_place walk_start.

(** Witness of X14. *)
Lemma ten_stale_scrolls_end_the_walk_witness :
  (10 <= 10 /\
   target_reached 5 after_first_scroll = false /\
   (forall i, i < 10 ->
      stale_cycle one_place_session (1 + i)
        (unique_keys after_first_scroll))) /\
  exists st',
    scroll_loop 10 one_place_session 5 1 0
      (List.length (unique_keys after_first_scroll)) after_first_scroll
    = Some (Ok st') /\
    places st' = places after_first_scroll.
Proof.
  assert (H1 : 10 <= 10) by apply le_n.
  assert (H2 : target_reached 5 after_first_scroll = false)
    by (vm_compute; reflexivity).
  assert (H3 : forall i, i < 10 ->
             stale_cycle one_place_session (1 + i)
               (unique_keys after_first_scroll)).
  { intros i _. exists []. split; [reflexivity | constructor]. }
  split; [auto|].
  exact (ten_stale_scrolls_end_the_walk one_place_session 5 10 1
           after_first_scroll H1 H2 H3).
Defined.

Definition demo_listings : list Listing :=
  [Ok cafe_page; Raise TimeoutError; Ok cafe_page_again; Ok bakery_page].

(** Witness of X16: the second listing of the demo feed is the one that
    failed. *)
Lemma logged_errors_name_failed_listings_witness :
  In (2, TimeoutError)
     (errors (visit_listings 5 0 demo_listings walk_start)) /\
  (In (2, TimeoutError) (errors (@walk_start rt0)) \/
   exists k listing,
     2 = S (0 + k) /\ nth_error demo_listings k = Some listing /\
     (page <- listing ;; extract_place page) = Raise TimeoutError).
Proof.
  split; [vm_compute; auto|].
  apply (logged_errors_name_failed_listings 5 demo_listings 0 walk_start
           2 TimeoutError).
  vm_compute; auto.
Defined.

(** Witness of X17: the run on the demo feed writes one message. *)
Lemma error_log_written_only_on_return_witness :
  In (WriteErrorLog 1)
     (fst (scrape_places (rt := rt0) (u "cafe in Rabat") 5 (Some 1)
             demo_driver demo_session)) /\
  (1 <= 1 /\
   exists result,
     snd (scrape_places (rt := rt0) (u "cafe in Rabat") 5 (Some 1)
            demo_driver demo_session) = Ok result).
Proof.
  split; [vm_compute; auto|].
  apply (error_log_written_only_on_return (u "cafe in Rabat") 5 (Some 1)
           demo_driver demo_session 1).
  vm_compute; auto.
Defined.

(** The demo feed without its failing listing gives the same records. *)
Example demo_without_failures :
  snd (scrape_places (rt := rt0) (u "cafe in Rabat") 5 (Some 1)
         demo_driver (without_failures demo_session)) = Ok demo_result.
Proof. vm_compute. reflexivity. Qed.

(** ** The field extractor *)

(** The detail view of the cafe under the URL of its place. *)
Definition geo_page : Page :=
  {| page_url :=
       u "https://www.google.com/maps/place/Cafe/@34.0209,-6.8416,17z";
     loc_count := loc_count cafe_page;
     loc_inner_text := loc_inner_text cafe_page;
     loc_inner_html := loc_inner_html cafe_page;
     loc_all := loc_all cafe_page;
     loc_first_count := loc_first_count cafe_page;
     loc_first_href := loc_first_href cafe_page |}.

Definition geo_place : @Place rt0 :=
  Eval vm_compute in
    match extract_place geo_page with
    | Ok p => p
    | Raise _ => blank_place
    end.

(** Witness of X21. *)
Lemma geolocation_read_from_url_witness :
  (extract_place geo_page = Ok geo_place /\
   page_url geo_page
   = u "https://www.google.com/maps/place/Cafe/"
     ++ chr "@" :: u "34.0209" ++ chr "," :: u "-6.8416" ++ chr ","
        :: u "17z" /\
   ~ In (chr "@") (u "https://www.google.com/maps/place/Cafe/") /\
   u "34.0209" <> [] /\ u "-6.8416" <> [] /\
   forallb geo_char (u "34.0209") = true /\
   forallb geo_char (u "-6.8416") = true) /\
  (latitude geo_place = u "34.0209" /\ longitude geo_place = u "-6.8416").
Proof.
  assert (H1 : extract_place geo_page = Ok geo_place)
    by (vm_compute; reflexivity).
  assert (H2 : page_url geo_page
               = u "https://www.google.com/maps/place/Cafe/"
                 ++ chr "@" :: u "34.0209" ++ chr "," :: u "-6.8416"
                    ++ chr "," :: u "17z")
    by (vm_compute; reflexivity).
  assert (H3 : ~ In (chr "@") (u "https://www.google.com/maps/place/Cafe/"))
    by (vm_compute; intuition discriminate).
  assert (H4 : u "34.0209" <> []) by discriminate.
  assert (H5 : u "-6.8416" <> []) by discriminate.
  assert (H6 : forallb geo_char (u "34.0209") = true)
    by (vm_compute; reflexivity).
  assert (H7 : forallb geo_char (u "-6.8416") = true)
    by (vm_compute; reflexivity).
  split; [auto 10|].
  exact (geolocation_read_from_url geo_page geo_place
           (u "https://www.google.com/maps/place/Cafe/")
           (u "34.0209") (u "-6.8416") (u "17z") H1 H2 H3 H4 H5 H6 H7).
Defined.

(** Witness of X24: the blank URL of the cafe's page holds no [@]. *)
Lemma geolocation_absent_gives_sentinel_witness :
  (extract_place cafe_page = Ok cafe_place /\
   ~ In (chr "@") (page_url cafe_page)) /\
  (latitude cafe_place = no_info /\ longitude cafe_place = no_info).
Proof.
  assert (H1 : extract_place cafe_page = Ok cafe_place)
    by (vm_compute; reflexivity).
  assert (H2 : ~ In (chr "@") (page_url cafe_page))
    by (vm_compute; intuition discriminate).
  split; [auto|].
  exact (geolocation_absent_gives_sentinel cafe_page cafe_place H1 H2).
Defined.

(** Witness of X22. *)
Lemma maps_url_is_absolute_witness :
  extract_place cafe_page = Ok cafe_place /\
  (maps_url cafe_place = page_url cafe_page \/
   maps_url cafe_place = no_info \/
   startswith (u "http") (maps_url cafe_place) = true).
Proof.
  split; [vm_compute; reflexivity|].
  apply (maps_url_is_absolute cafe_page cafe_place).
  vm_compute; reflexivity.
Defined.


(** ** The headers *)

(** Witness of X25, with a [title] that leaves its argument alone. *)
Lemma title_case_keys_are_never_used_witness :
  In "place_type"%string untranslated_columns /\
  (header_get (get_header_translations (u "fr")) "place_type" = None /\
   display_header (fun s => s) (u "fr") "place_type"
   = replace (u "_") (u " ") (u "place_type")).
Proof.
  split; [cbn; auto 10|].
  apply (title_case_keys_are_never_used (fun s => s) (u "fr") "place_type").
  cbn; auto 10.
Defined.

(** Witness of X26. *)
Lemma english_maps_url_header_witness :
  (u "en" <> u "ar" /\ u "en" <> u "fr" /\ u "en" <> u "de") /\
  display_header (fun s => s) (u "en") "maps_url"
  = replace (u "_") (u " ") (u "maps_url").
Proof.
  assert (H1 : u "en" <> u "ar") by discriminate.
  assert (H2 : u "en" <> u "fr") by discriminate.
  assert (H3 : u "en" <> u "de") by discriminate.
  split; [auto|].
  exact (english_maps_url_header (fun s => s) (u "en") H1 H2 H3).
Defined.

(** The French sheet has the translation where the table files it under
    the field name. *)
Example french_address_header :
  display_header (fun s => s) (u "fr") "address" = u "Adresse".
Proof. vm_compute. reflexivity. Qed.
